(** * Foodly: the ordering back end (server.js)

    A shallow embedding of the Express/SQLite server of the repository and
    the properties its specification states about it.

    The two source files, [src/server.js] and its later revision
    [src/unnamed/part_000], have the same route handlers up to logging; one
    embedding covers both.  What is not code of the repository is modelled
    as its environment:

    - the values [express.json()] hands to a handler are the values of
      [JSON.parse] ([json] below);
    - the SQLite engine behind [db.run], [db.get] and [db.all] is a small
      relational store whose tables carry the definitions written in the
      [CREATE TABLE] statements of the source;
    - input/output failures of the engine and the clock behind
      [CURRENT_TIMESTAMP] are read from an [environment].

    Handlers are run to quiescence, one request at a time: every statement a
    handler has queued is executed before the next request is looked at. *)

From Stdlib Require Import ZArith QArith String Ascii List Bool Lia.
From stdpp Require Import base option list sorting gmap strings.

Set Warnings "-register-all".

Local Open Scope Z_scope.

(** * JavaScript values *)

Module JS.

(** A Number, as far as the server can tell numbers apart.  The server never
    computes with a number: it tests it for truthiness, prints it and hands
    it to the engine.  A finite non-zero number is kept as the decimal
    [± s · 10^e]; the two zeros and the two infinities are values of their
    own ([JSON.parse] yields [-0] for [-0] and [Infinity] for [1e999]); NaN
    is no value of [JSON.parse] and the server has no arithmetic to make
    one. *)
Inductive number : Type :=
| NZero (neg : bool)
| NInf (neg : bool)
| NFin (neg : bool) (s : positive) (e : Z).

(** The values of [JSON.parse].  An object is the list of its own properties
    in enumeration order. *)
Inductive json : Type :=
| JNull
| JBool (b : bool)
| JNum (n : number)
| JStr (s : string)
| JArr (elems : list json)
| JObj (props : list (string * json)).

(** A value a handler holds: [None] is [undefined]. *)
Definition value : Type := option json.

Definition undefined : value := None.

Global Instance number_eq_dec : EqDecision number.
Proof. solve_decision. Defined.

(** Numbers from integers, for row identifiers: the decimal of [z] without
    its trailing zeros. *)
Fixpoint strip_zeros (fuel : nat) (s : positive) (e : Z) : positive * Z :=
  match fuel with
  | O => (s, e)
  | S fuel' =>
      if (Z.pos s mod 10 =? 0)%Z
      then match (Z.pos s / 10)%Z with
           | Z.pos s' => strip_zeros fuel' s' (e + 1)
           | _ => (s, e)
           end
      else (s, e)
  end.

Definition normalize (neg : bool) (s : positive) (e : Z) : number :=
  let '(s', e') := strip_zeros (Pos.to_nat (Pos.size s)) s e in NFin neg s' e'.

Definition number_of_Z (z : Z) : number :=
  match z with
  | Z0 => NZero false
  | Z.pos p => normalize false p 0
  | Z.neg p => normalize true p 0
  end.

(** The canonical decimals: the last digit of the mantissa is not 0. *)
Definition canonical (n : number) : bool :=
  match n with
  | NFin _ s _ => negb (Z.pos s mod 10 =? 0)%Z
  | _ => true
  end.

(** ** ToBoolean *)

Definition number_truthy (n : number) : bool :=
  match n with
  | NZero _ => false
  | _ => true
  end.

Definition json_truthy (j : json) : bool :=
  match j with
  | JNull => false
  | JBool b => b
  | JNum n => number_truthy n
  | JStr s => negb (String.eqb s "")
  | JArr _ | JObj _ => true
  end.

(** [!v] is [negb (truthy v)]. *)
Definition truthy (v : value) : bool :=
  match v with
  | None => false
  | Some j => json_truthy j
  end.

(** ** Property access *)

Fixpoint assoc (k : string) (props : list (string * json)) : value :=
  match props with
  | [] => None
  | (k', v) :: rest => if String.eqb k k' then Some v else assoc k rest
  end.

(** [o.k] for the property names the server reads ([id], [name], [quantity],
    [price]): an own property of an object, [undefined] on every other value
    but [null], where the access throws a TypeError ([None] here). *)
Definition member (o : json) (k : string) : option value :=
  match o with
  | JNull => None
  | JObj props => Some (assoc k props)
  | _ => Some undefined
  end.

(** ** Ordering of numbers *)

Definition signed (neg : bool) (s : positive) : Z :=
  if neg then Z.neg s else Z.pos s.

Definition finite_value (n : number) : Q :=
  match n with
  | NFin neg s e => (inject_Z (signed neg s) * Qpower (10 # 1) e)%Q
  | _ => 0%Q
  end.

Definition number_leb (a b : number) : bool :=
  match a, b with
  | NInf true, _ => true
  | _, NInf false => true
  | NInf false, _ => false
  | _, NInf true => false
  | _, _ => Qle_bool (finite_value a) (finite_value b)
  end.

(** Numeric equality ([-0] and [0] are equal). *)
Definition number_eqb (a b : number) : bool :=
  number_leb a b && number_leb b a.

End JS.

Export JS.

(** * The SQLite engine, as far as the server drives it *)

Module Sql.

(** A stored value.  INTEGER and REAL are one class here: the driver hands
    both back to JavaScript as a Number. *)
Inductive sqlval : Type :=
| SqlNull
| SqlNum (n : number)
| SqlText (s : string).

Global Instance sqlval_eq_dec : EqDecision sqlval.
Proof. solve_decision. Defined.

(** Declared column types of the three tables and their affinities. *)
Inductive coltype : Type := INTEGER | TEXT | REAL | DATETIME.

Inductive affinity : Type := TextAffinity | NumericAffinity.

Definition affinity_of (t : coltype) : affinity :=
  match t with
  | TEXT => TextAffinity
  | INTEGER | REAL | DATETIME => NumericAffinity
  end.

(** What a column gets when an INSERT does not name it. *)
Inductive default_value : Type :=
| DefaultNull
| Autoincrement          (* INTEGER PRIMARY KEY AUTOINCREMENT *)
| CurrentTimestamp.      (* DEFAULT CURRENT_TIMESTAMP *)

Record column : Type := Column {
  col_name : string;
  col_type : coltype;
  col_unique : bool;
  col_not_null : bool;
  col_default : default_value
}.

(** A table definition: its columns and the FOREIGN KEY clauses it declares.
    The server never switches foreign-key enforcement on (SQLite leaves it
    off), so the clauses are carried and never checked. *)
Record table_def : Type := TableDef {
  columns : list column;
  foreign_keys : list (string * (string * string))
}.

Definition row : Type := list sqlval.

(** A table: its definition, the largest row identifier handed out so far
    (the table's entry in sqlite_sequence) and its rows in insertion
    order. *)
Record table : Type := Table {
  def : table_def;
  seq : Z;
  rows : list row
}.

(** The conversions of the driver and the engine that the source does not
    determine: how the driver binds an array or an object, how the engine
    writes a number stored in a TEXT column, and which texts it reads as a
    number in a numeric column. *)
Record conversions : Type := Conversions {
  bind_object : json → sqlval;
  text_of_number : number → string;
  number_of_text : string → option number
}.

(** The statements the server issues: those it hands to [db.run] and those
    it hands to [db.get] and [db.all].  There is no UPDATE and no DELETE in
    the source. *)
Inductive command : Type :=
| CreateTableIfNotExists (name : string) (d : table_def)
| InsertInto (name : string) (assignments : list (string * value)).

Inductive query : Type :=
| SelectWhere (name : string) (col : string) (param : value)
              (order_by_desc : option string)
| SelectAll (name : string)
| SelectCounts (names : list string).

Inductive statement : Type :=
| Run (c : command)
| Ask (q : query).

Section Engine.

Context (cv : conversions).

(** The driver's binding of a JavaScript parameter: [undefined] leaves the
    parameter unbound, which the engine reads as NULL. *)
Definition bind (v : value) : sqlval :=
  match v with
  | None => SqlNull
  | Some JNull => SqlNull
  | Some (JBool b) => SqlNum (if b then NFin false 1 0 else NZero false)
  | Some (JNum n) => SqlNum n
  | Some (JStr s) => SqlText s
  | Some j => bind_object cv j
  end.

(** Column affinity, applied to a value on its way into a column. *)
Definition coerce (a : affinity) (v : sqlval) : sqlval :=
  match a, v with
  | TextAffinity, SqlNum n => SqlText (text_of_number cv n)
  | NumericAffinity, SqlText s =>
      match number_of_text cv s with
      | Some n => SqlNum n
      | None => SqlText s
      end
  | _, _ => v
  end.

(** [a = b] in a WHERE clause: NULL equals nothing, numbers by value, texts
    byte for byte. *)
Definition sql_eqb (a b : sqlval) : bool :=
  match a, b with
  | SqlNum x, SqlNum y => number_eqb x y
  | SqlText x, SqlText y => String.eqb x y
  | _, _ => false
  end.

(** The order of ORDER BY: NULL first, then numbers, then texts. *)
Definition sql_leb (a b : sqlval) : bool :=
  match a, b with
  | SqlNull, _ => true
  | SqlNum _, SqlNull => false
  | SqlNum x, SqlNum y => number_leb x y
  | SqlNum _, SqlText _ => true
  | SqlText x, SqlText y => String.leb x y
  | SqlText _, _ => false
  end.

Definition cell (r : row) (i : nat) : sqlval := default SqlNull (r !! i).

Fixpoint column_index (name : string) (cols : list column) : option nat :=
  match cols with
  | [] => None
  | c :: rest =>
      if String.eqb name (col_name c) then Some O
      else S <$> column_index name rest
  end.

Fixpoint assigned (name : string) (assignments : list (string * value))
  : option value :=
  match assignments with
  | [] => None
  | (k, v) :: rest => if String.eqb name k then Some v else assigned name rest
  end.

(** The cell an INSERT writes into column [c]. *)
Definition new_cell (t : table) (now : string)
    (assignments : list (string * value)) (c : column) : sqlval :=
  match assigned (col_name c) assignments with
  | Some v => coerce (affinity_of (col_type c)) (bind v)
  | None =>
      match col_default c with
      | DefaultNull => SqlNull
      | Autoincrement => SqlNum (number_of_Z (seq t + 1))
      | CurrentTimestamp => SqlText now
      end
  end.

Definition new_row (t : table) (now : string)
    (assignments : list (string * value)) : row :=
  map (new_cell t now assignments) (columns (def t)).

(** NOT NULL and UNIQUE, column by column. *)
Fixpoint constraints_ok (cols : list column) (i : nat) (existing : list row)
    (r : row) : bool :=
  match cols with
  | [] => true
  | c :: rest =>
      let v := cell r i in
      (negb (col_not_null c) || negb (bool_decide (v = SqlNull)))
      && (negb (col_unique c)
          || negb (existsb (λ r', sql_eqb (cell r' i) v) existing))
      && constraints_ok rest (S i) existing r
  end.

Definition known_columns (d : table_def) (assignments : list (string * value))
  : bool :=
  forallb (λ kv, bool_decide (is_Some (column_index kv.1 (columns d))))
          assignments.

(** INSERT INTO name (...) VALUES (...): the new table and the row
    identifier, or [None] when the engine refuses the statement. *)
Definition insert_into (st : gmap string table) (now : string) (name : string)
    (assignments : list (string * value)) : option (gmap string table * Z) :=
  match st !! name with
  | None => None
  | Some t =>
      if known_columns (def t) assignments then
        let r := new_row t now assignments in
        if constraints_ok (columns (def t)) O (rows t) r then
          Some (<[name := Table (def t) (seq t + 1) (rows t ++ [r])]> st,
                seq t + 1)
        else None
      else None
  end.

(** CREATE TABLE IF NOT EXISTS: nothing happens to a table that is there. *)
Definition create_table_if_not_exists (st : gmap string table) (name : string)
    (d : table_def) : gmap string table :=
  match st !! name with
  | Some _ => st
  | None => <[name := Table d 0 []]> st
  end.

(** A result row as the driver hands it to JavaScript: an object with one
    property per column. *)
Definition json_of_sqlval (v : sqlval) : json :=
  match v with
  | SqlNull => JNull
  | SqlNum n => JNum n
  | SqlText s => JStr s
  end.

Definition row_object (d : table_def) (r : row) : json :=
  JObj (imap (λ i c, (col_name c, json_of_sqlval (cell r i))) (columns d)).

(** ORDER BY col DESC. *)
Definition desc_by (i : nat) (r1 r2 : row) : Prop :=
  sql_leb (cell r2 i) (cell r1 i) = true.

Global Instance desc_by_dec i : RelDecision (desc_by i).
Proof. intros r1 r2. unfold desc_by. apply _. Defined.

(** SELECT * FROM name WHERE col = ? [ORDER BY key DESC]: the matching rows,
    or [None] when the table or a column is missing.  SQL leaves the order
    of rows with equal keys open; what is proved of a sorted answer is
    stated up to a permutation. *)
Definition select_where (st : gmap string table) (name col : string)
    (param : value) (order_by_desc : option string) : option (list row) :=
  t ← st !! name;
  i ← column_index col (columns (def t));
  c ← columns (def t) !! i;
  let p := coerce (affinity_of (col_type c)) (bind param) in
  let matching := filter (λ r, sql_eqb (cell r i) p = true) (rows t) in
  match order_by_desc with
  | None => Some matching
  | Some key =>
      k ← column_index key (columns (def t));
      Some (merge_sort (desc_by k) matching)
  end.

End Engine.

End Sql.

Export Sql.

(** * JSON.stringify *)

Module JSON.

Definition dquote : ascii := "034"%char.
Definition backslash : ascii := "092"%char.

(** Digits. *)
Definition digit_char (d : Z) : ascii := ascii_of_N (Z.to_N (48 + d)).

Fixpoint digits_le (fuel : nat) (z : Z) : list Z :=
  match fuel with
  | O => []
  | S fuel' =>
      if z <? 10 then [z] else (z mod 10) :: digits_le fuel' (z / 10)
  end.

(** The decimal digits of [p], most significant first. *)
Definition digits (p : positive) : list Z :=
  rev (digits_le (Pos.to_nat (Pos.size p)) (Z.pos p)).

Definition string_of_digits (ds : list Z) : string :=
  string_of_list_ascii (map digit_char ds).

Definition zeros (n : Z) : list Z := replicate (Z.to_nat n) 0.

(** Number::toString (radix 10) on a finite non-zero number with digits
    [ds] ([k] of them) and [n = e + k]: the five layouts of ECMA-262. *)
Definition exponent_part (n : Z) : string :=
  String "e" ((if 0 <=? n - 1 then "+" else "-")
              +:+ match Z.abs (n - 1) with
                  | Z.pos p => string_of_digits (digits p)
                  | _ => "0"
                  end).

Definition number_layout (ds : list Z) (n : Z) : string :=
  let k := Z.of_nat (length ds) in
  if (k <=? n) && (n <=? 21) then
    string_of_digits (ds ++ zeros (n - k))
  else if (0 <? n) && (n <=? 21) then
    string_of_digits (take (Z.to_nat n) ds) +:+ "."
    +:+ string_of_digits (drop (Z.to_nat n) ds)
  else if (-6 <? n) && (n <=? 0) then
    "0." +:+ string_of_digits (zeros (- n) ++ ds)
  else if k =? 1 then
    string_of_digits ds +:+ exponent_part n
  else
    string_of_digits (take 1 ds) +:+ "."
    +:+ string_of_digits (drop 1 ds) +:+ exponent_part n.

Definition Number_toString (x : number) : string :=
  match x with
  | NZero _ => "0"
  | NInf neg => if neg then "-Infinity" else "Infinity"
  | NFin neg s e =>
      (if neg then "-" else "")
      +:+ number_layout (digits s) (e + Z.of_nat (length (digits s)))
  end.

(** QuoteJSONString. *)
Definition hex_char (n : N) : ascii :=
  if (n <? 10)%N then ascii_of_N (48 + n) else ascii_of_N (87 + n).

Definition quote_char (c : ascii) : string :=
  let n := N_of_ascii c in
  if (n =? 8)%N then "\b"
  else if (n =? 9)%N then "\t"
  else if (n =? 10)%N then "\n"
  else if (n =? 12)%N then "\f"
  else if (n =? 13)%N then "\r"
  else if (n =? 34)%N then String backslash (String dquote "")
  else if (n =? 92)%N then "\\"
  else if (n <? 32)%N then
    "\u00" +:+ String (hex_char (n / 16)) (String (hex_char (n mod 16)) "")
  else String c "".

Fixpoint quote_chars (s : string) : string :=
  match s with
  | EmptyString => ""
  | String c rest => quote_char c +:+ quote_chars rest
  end.

Definition quote (s : string) : string :=
  String dquote (quote_chars s +:+ String dquote "").

Fixpoint join (parts : list string) : string :=
  match parts with
  | [] => ""
  | [p] => p
  | p :: rest => p +:+ "," +:+ join rest
  end.

(** JSON.stringify(j), with no replacer and no indentation.  A number that
    is not finite is written [null].  A string is kept as its UTF-8 bytes:
    the bytes of a character above U+007F are written as they are. *)
Fixpoint stringify (j : json) : string :=
  match j with
  | JNull => "null"
  | JBool true => "true"
  | JBool false => "false"
  | JNum (NInf _) => "null"
  | JNum n => Number_toString n
  | JStr s => quote s
  | JArr elems => "[" +:+ join (map stringify elems) +:+ "]"
  | JObj props =>
      "{" +:+ join (map (λ kv, quote kv.1 +:+ ":" +:+ stringify kv.2) props)
      +:+ "}"
  end.

(** * JSON.parse

    Strings are kept as their UTF-8 bytes, so a [\u] escape is decoded to
    the bytes of its code point.  A number literal is read exactly; the two
    roundings of a double that change what a number is are kept: a literal
    at or above the overflow threshold [2^1024 - 2^970] reads as
    [Infinity], one at or below half the least subnormal, [2^-1075], as
    zero.  The rounding of the digits to 53 bits is not modelled: it is the
    identity on the shortest digits, which are what [Number_toString]
    prints. *)

Definition is_ws (c : ascii) : bool :=
  let n := N_of_ascii c in
  ((n =? 32) || (n =? 9) || (n =? 10) || (n =? 13))%N.

Fixpoint skip_ws (s : string) : string :=
  match s with
  | String c rest => if is_ws c then skip_ws rest else s
  | EmptyString => s
  end.

Definition digit_of (c : ascii) : option Z :=
  let n := N_of_ascii c in
  if ((48 <=? n) && (n <=? 57))%N then Some (Z.of_N n - 48) else None.

(** The longest prefix of digits. *)
Fixpoint take_digits (s : string) : list Z * string :=
  match s with
  | String c rest =>
      match digit_of c with
      | Some d => let '(ds, r) := take_digits rest in (d :: ds, r)
      | None => ([], s)
      end
  | EmptyString => ([], s)
  end.

Definition digits_value (ds : list Z) : Z :=
  fold_left (λ acc d, 10 * acc + d) ds 0.

(** [s · 10^e] rounds to an infinity, resp. to a zero. *)
Definition overflows (s : positive) (e : Z) : bool :=
  if 0 <=? e then 2 ^ 1024 - 2 ^ 970 <=? Z.pos s * 10 ^ e
  else (2 ^ 1024 - 2 ^ 970) * 10 ^ (- e) <=? Z.pos s.

Definition underflows (s : positive) (e : Z) : bool :=
  if 0 <=? e then false else Z.pos s * 2 ^ 1075 <=? 10 ^ (- e).

(** The Number of the decimal [± m · 10^e], [0 <= m]. *)
Definition number_of_decimal (neg : bool) (m e : Z) : number :=
  match m with
  | Z.pos p =>
      let '(s, e') := strip_zeros (Pos.to_nat (Pos.size p)) p e in
      if overflows s e' then NInf neg
      else if underflows s e' then NZero neg
      else NFin neg s e'
  | _ => NZero neg
  end.

Definition parse_fraction (s : string) : option (list Z * string) :=
  match s with
  | String c r =>
      if Ascii.eqb c "." then
        match take_digits r with
        | ([], _) => None
        | (ds, r') => Some (ds, r')
        end
      else Some ([], s)
  | EmptyString => Some ([], s)
  end.

Definition parse_sign (s : string) : Z * string :=
  match s with
  | String c r =>
      if Ascii.eqb c "-" then (-1, r)
      else if Ascii.eqb c "+" then (1, r)
      else (1, s)
  | EmptyString => (1, s)
  end.

Definition parse_exponent (s : string) : option (Z * string) :=
  match s with
  | String c r =>
      if Ascii.eqb c "e" || Ascii.eqb c "E" then
        let '(sign, r1) := parse_sign r in
        match take_digits r1 with
        | ([], _) => None
        | (ds, r2) => Some (sign * digits_value ds, r2)
        end
      else Some (0, s)
  | EmptyString => Some (0, s)
  end.

(** A JSON number: an optional minus sign; an integer part, [0] or digits
    that do not start with [0]; an optional fraction, a point and digits; an
    optional exponent, [e] or [E], an optional sign and digits. *)
Definition parse_number (s : string) : option (number * string) :=
  let '(neg, s1) :=
    match s with
    | String c r => if Ascii.eqb c "-" then (true, r) else (false, s)
    | EmptyString => (false, s)
    end in
  match take_digits s1 with
  | ([], _) => None
  | (0 :: _ :: _, _) => None
  | (int, s2) =>
      '(frac, s3) ← parse_fraction s2;
      '(ex, s4) ← parse_exponent s3;
      Some (number_of_decimal neg (digits_value (int ++ frac))
              (ex - Z.of_nat (length frac)), s4)
  end.

Definition hex_of (c : ascii) : option N :=
  let n := N_of_ascii c in
  if ((48 <=? n) && (n <=? 57))%N then Some (n - 48)%N
  else if ((97 <=? n) && (n <=? 102))%N then Some (n - 87)%N
  else if ((65 <=? n) && (n <=? 70))%N then Some (n - 55)%N
  else None.

Definition hex4 (a b c d : ascii) : option N :=
  x ← hex_of a; y ← hex_of b; z ← hex_of c; w ← hex_of d;
  Some (((x * 16 + y) * 16 + z) * 16 + w)%N.

(** The UTF-8 bytes of a code point. *)
Definition utf8 (n : N) : string :=
  (if n <? 128 then String (ascii_of_N n) ""
   else if n <? 2048 then
     String (ascii_of_N (192 + n / 64))
       (String (ascii_of_N (128 + n mod 64)) "")
   else if n <? 65536 then
     String (ascii_of_N (224 + n / 4096))
       (String (ascii_of_N (128 + (n / 64) mod 64))
          (String (ascii_of_N (128 + n mod 64)) ""))
   else
     String (ascii_of_N (240 + n / 262144))
       (String (ascii_of_N (128 + (n / 4096) mod 64))
          (String (ascii_of_N (128 + (n / 64) mod 64))
             (String (ascii_of_N (128 + n mod 64)) ""))))%N.

Definition is_high_surrogate (n : N) : bool := ((55296 <=? n) && (n <=? 56319))%N.
Definition is_low_surrogate (n : N) : bool := ((56320 <=? n) && (n <=? 57343))%N.

Definition unescape (c : ascii) : option ascii :=
  if Ascii.eqb c dquote then Some dquote
  else if Ascii.eqb c backslash then Some backslash
  else if Ascii.eqb c "/" then Some "/"%char
  else if Ascii.eqb c "b" then Some "008"%char
  else if Ascii.eqb c "f" then Some "012"%char
  else if Ascii.eqb c "n" then Some "010"%char
  else if Ascii.eqb c "r" then Some "013"%char
  else if Ascii.eqb c "t" then Some "009"%char
  else None.

Definition prepend (p : string) (r : option (string * string))
  : option (string * string) :=
  '(s, rest) ← r; Some (p +:+ s, rest).

(** The characters of a string literal after its opening quote, up to and
    including the closing quote. *)
Fixpoint parse_chars (s : string) : option (string * string) :=
  match s with
  | EmptyString => None
  | String c r =>
      if Ascii.eqb c dquote then Some ("", r)
      else if Ascii.eqb c backslash then
        match r with
        | String e r1 =>
            if Ascii.eqb e "u" then
              match r1 with
              | String h1 (String h2 (String h3 (String h4 r2))) =>
                  match hex4 h1 h2 h3 h4 with
                  | None => None
                  | Some n =>
                      if is_high_surrogate n then
                        match r2 with
                        | String b (String u (String g1 (String g2
                            (String g3 (String g4 r3))))) =>
                            match hex4 g1 g2 g3 g4 with
                            | Some m =>
                                if Ascii.eqb b backslash && Ascii.eqb u "u"
                                   && is_low_surrogate m
                                then
                                  prepend
                                    (utf8 (65536 + (n - 55296) * 1024
                                           + (m - 56320))%N)
                                    (parse_chars r3)
                                else prepend (utf8 n) (parse_chars r2)
                            | None => prepend (utf8 n) (parse_chars r2)
                            end
                        | _ => prepend (utf8 n) (parse_chars r2)
                        end
                      else prepend (utf8 n) (parse_chars r2)
                  end
              | _ => None
              end
            else
              match unescape e with
              | Some c' => prepend (String c' "") (parse_chars r1)
              | None => None
              end
        | EmptyString => None
        end
      else if (N_of_ascii c <? 32)%N then None
      else prepend (String c "") (parse_chars r)
  end.

(** The array index a property key is, if it is one: a decimal without
    leading zeros below [2^32 - 1]. *)
Definition array_index (k : string) : option Z :=
  match take_digits k with
  | ([], _) => None
  | (0 :: _ :: _, _) => None
  | (ds, EmptyString) =>
      if digits_value ds <? 2 ^ 32 - 1 then Some (digits_value ds) else None
  | _ => None
  end.

Fixpoint has_key (k : string) (props : list (string * json)) : bool :=
  match props with
  | [] => false
  | (k', _) :: rest => String.eqb k k' || has_key k rest
  end.

Fixpoint replace_property (k : string) (v : json) (props : list (string * json))
  : list (string * json) :=
  match props with
  | [] => []
  | (k', v') :: rest =>
      if String.eqb k k' then (k', v) :: rest
      else (k', v') :: replace_property k v rest
  end.

Fixpoint insert_index (i : Z) (k : string) (v : json)
    (props : list (string * json)) : list (string * json) :=
  match props with
  | [] => [(k, v)]
  | (k', v') :: rest =>
      match array_index k' with
      | Some i' =>
          if i' <? i then (k', v') :: insert_index i k v rest
          else (k, v) :: props
      | None => (k, v) :: props
      end
  end.

(** CreateDataProperty on the property list, in enumeration order: array
    indices first, ascending, then the other keys as they were created. *)
Definition define_property (props : list (string * json)) (k : string) (v : json)
  : list (string * json) :=
  if has_key k props then replace_property k v props
  else match array_index k with
       | Some i => insert_index i k v props
       | None => props ++ [(k, v)]
       end.

Definition object_of_pairs (pairs : list (string * json)) : list (string * json) :=
  fold_left (λ props kv, define_property props kv.1 kv.2) pairs [].

(** A JSON value and what follows it.  The fuel bounds the depth of the
    recursion, which never exceeds the number of characters read. *)
Fixpoint parse_value (fuel : nat) (s : string) : option (json * string) :=
  match fuel with
  | O => None
  | S fuel' =>
      match skip_ws s with
      | EmptyString => None
      | String c r =>
          if Ascii.eqb c "[" then
            match skip_ws r with
            | String c' r' =>
                if Ascii.eqb c' "]" then Some (JArr [], r')
                else '(vs, r'') ← parse_elements fuel' r; Some (JArr vs, r'')
            | EmptyString => None
            end
          else if Ascii.eqb c "{" then
            match skip_ws r with
            | String c' r' =>
                if Ascii.eqb c' "}" then Some (JObj [], r')
                else '(ps, r'') ← parse_members fuel' r;
                     Some (JObj (object_of_pairs ps), r'')
            | EmptyString => None
            end
          else if Ascii.eqb c dquote then
            '(str, r') ← parse_chars r; Some (JStr str, r')
          else if Ascii.eqb c "n" then
            match r with
            | String "u" (String "l" (String "l" r')) => Some (JNull, r')
            | _ => None
            end
          else if Ascii.eqb c "t" then
            match r with
            | String "r" (String "u" (String "e" r')) => Some (JBool true, r')
            | _ => None
            end
          else if Ascii.eqb c "f" then
            match r with
            | String "a" (String "l" (String "s" (String "e" r'))) =>
                Some (JBool false, r')
            | _ => None
            end
          else '(n, r') ← parse_number (String c r); Some (JNum n, r')
      end
  end
with parse_elements (fuel : nat) (s : string) : option (list json * string) :=
  match fuel with
  | O => None
  | S fuel' =>
      '(v, r) ← parse_value fuel' s;
      match skip_ws r with
      | String c r' =>
          if Ascii.eqb c "," then
            '(vs, r'') ← parse_elements fuel' r'; Some (v :: vs, r'')
          else if Ascii.eqb c "]" then Some ([v], r')
          else None
      | EmptyString => None
      end
  end
with parse_members (fuel : nat) (s : string)
  : option (list (string * json) * string) :=
  match fuel with
  | O => None
  | S fuel' =>
      match skip_ws s with
      | String c r =>
          if Ascii.eqb c dquote then
            '(k, r1) ← parse_chars r;
            match skip_ws r1 with
            | String c1 r2 =>
                if Ascii.eqb c1 ":" then
                  '(v, r3) ← parse_value fuel' r2;
                  match skip_ws r3 with
                  | String c2 r4 =>
                      if Ascii.eqb c2 "," then
                        '(ps, r5) ← parse_members fuel' r4;
                        Some ((k, v) :: ps, r5)
                      else if Ascii.eqb c2 "}" then Some ([(k, v)], r4)
                      else None
                  | EmptyString => None
                  end
                else None
            | EmptyString => None
            end
          else None
      | EmptyString => None
      end
  end.

(** JSON.parse(text): [None] is a SyntaxError. *)
Definition parse (text : string) : option json :=
  '(j, rest) ← parse_value (S (String.length text)) text;
  match skip_ws rest with
  | EmptyString => Some j
  | String _ _ => None
  end.

(** The values that [stringify] writes back as they are: numbers are finite,
    not [-0], in shortest decimal form and within the range of a double,
    and objects have their properties in the order [parse] creates them. *)
Definition written_as_is (n : number) : bool :=
  match n with
  | NZero neg => negb neg
  | NInf _ => false
  | NFin _ s e =>
      canonical n && negb (overflows s e) && negb (underflows s e)
  end.

Inductive representable : json → Prop :=
| representable_null : representable JNull
| representable_bool b : representable (JBool b)
| representable_num n : written_as_is n = true → representable (JNum n)
| representable_str s : representable (JStr s)
| representable_arr elems :
    Forall representable elems → representable (JArr elems)
| representable_obj props :
    object_of_pairs props = props →
    Forall (λ kv, representable kv.2) props →
    representable (JObj props).


(** ** Vocabulary of the round trip *)

Definition digit (d : Z) : Prop := 0 ≤ d ≤ 9.

(** A text at which [take_digits] stops at once. *)
Definition digit_stop (s : string) : Prop :=
  match s with
  | String c _ => digit_of c = None
  | EmptyString => True
  end.

(** What may follow a number: nothing, or a character that is no digit, no
    point and no exponent mark. *)
Definition number_stop (s : string) : Prop :=
  match s with
  | String c _ =>
      digit_of c = None ∧ Ascii.eqb c "." = false
      ∧ Ascii.eqb c "e" = false ∧ Ascii.eqb c "E" = false
  | EmptyString => True
  end.

(** The three optional parts of a number literal, as text. *)
Definition fraction_text (frac : list Z) : string :=
  match frac with
  | [] => ""
  | _ => "." +:+ string_of_digits frac
  end.

Definition exponent_text (ex : option Z) : string :=
  match ex with
  | None => ""
  | Some n => exponent_part n
  end.

Definition sign_text (neg : bool) : string := if neg then "-" else "".

(** Fuel that is enough to read a value back. *)
Fixpoint need (j : json) : nat :=
  match j with
  | JArr elems => S (fold_right (λ v acc, S (need v + acc))%nat O elems)
  | JObj props => S (fold_right (λ kv acc, S (need kv.2 + acc))%nat O props)
  | _ => 1
  end.

(** The first character of a number literal. *)
Definition number_head (c : ascii) : Prop :=
  c = "-"%char ∨ ∃ d, digit d ∧ c = digit_char d.

(** How a written value starts: with no white space and no closing
    bracket. *)
Definition value_head (s : string) : Prop :=
  match s with
  | String c _ => is_ws c = false ∧ Ascii.eqb c "]" = false
  | EmptyString => False
  end.

(** What the induction gives for a value: it reads back, with enough fuel,
    before any text a number may stop at. *)
Definition reads_back (v : json) : Prop :=
  ∀ fuel rest, (need v ≤ fuel)%nat → number_stop rest →
    parse_value fuel (stringify v +:+ rest) = Some (v, rest).

(** A property as [stringify] writes it. *)
Definition member_text (kv : string * json) : string :=
  quote kv.1 +:+ ":" +:+ stringify kv.2.

End JSON.

(** * The server *)

Module Server.

(** ** The tables of the source

    The three CREATE TABLE statements, column by column: name, declared
    type, UNIQUE, NOT NULL, default.  The engine hands out the [id] of an
    AUTOINCREMENT column itself, one above the last, so the uniqueness of
    the primary key is never at stake for an INSERT of the server. *)

Definition users_def : table_def :=
  TableDef
    [ Column "id" INTEGER false false Autoincrement;
      Column "username" TEXT true true DefaultNull;
      Column "password" TEXT false true DefaultNull;
      Column "created_at" DATETIME false false CurrentTimestamp ]
    [].

Definition orders_def : table_def :=
  TableDef
    [ Column "id" INTEGER false false Autoincrement;
      Column "username" TEXT false true DefaultNull;
      Column "items" TEXT false true DefaultNull;
      Column "total" REAL false true DefaultNull;
      Column "order_date" DATETIME false false CurrentTimestamp ]
    [ ("username", ("users", "username")) ].

Definition cart_history_def : table_def :=
  TableDef
    [ Column "id" INTEGER false false Autoincrement;
      Column "username" TEXT false true DefaultNull;
      Column "item_id" INTEGER false true DefaultNull;
      Column "item_name" TEXT false true DefaultNull;
      Column "quantity" INTEGER false true DefaultNull;
      Column "price" REAL false true DefaultNull;
      Column "added_date" DATETIME false false CurrentTimestamp ]
    [ ("username", ("users", "username")) ].

(** ** The database handle *)

(** What the server cannot control: whether the database file opened,
    whether the [n]-th statement of the run hits an input/output error, the
    text CURRENT_TIMESTAMP yields for it, and what GET /health reports
    besides its status (process environment, time, database path). *)
Record environment : Type := Environment {
  open_failed : bool;
  io_error : nat → bool;
  current_timestamp : nat → string;
  health_info : list (string * json)
}.

(** The state behind the handle [db]: the tables and the statements issued
    so far, oldest first. *)
Record world : Type := World {
  tables : gmap string table;
  journal : list statement
}.

Section Handlers.

Context (cv : conversions) (env : environment).

(** A statement the engine does not serve: its callback gets [err].  On a
    handle that did not open this is a simplification, since the driver runs
    no statement there and calls nothing back (the request waits for ever);
    what is proved of an answer assumes [open_failed env = false], or
    follows from what a callback received. *)
Definition refused (w : world) : bool :=
  open_failed env || io_error env (length (journal w)).

Definition issue (s : statement) (st : gmap string table) (w : world) : world :=
  World st (journal w ++ [s]).

(** [db.run(sql, params, callback)]: [Some lastID] when the statement ran
    (for CREATE TABLE the identifier is not looked at), [None] for [err]. *)
Definition db_run (c : command) (w : world) : option Z * world :=
  if refused w then (None, issue (Run c) (tables w) w)
  else
    match c with
    | CreateTableIfNotExists name d =>
        (Some 0,
         issue (Run c) (create_table_if_not_exists (tables w) name d) w)
    | InsertInto name assignments =>
        match insert_into cv (tables w)
                (current_timestamp env (length (journal w))) name assignments
        with
        | Some (st, id) => (Some id, issue (Run c) st w)
        | None => (None, issue (Run c) (tables w) w)
        end
    end.

Definition count_row (st : gmap string table) (name : string) : option json :=
  t ← st !! name;
  Some (JObj [ ("table_name", JStr name);
               ("count", JNum (number_of_Z (Z.of_nat (length (rows t))))) ]).

(** The rows a SELECT yields, as the driver hands them to JavaScript. *)
Definition answer (q : query) (st : gmap string table) : option (list json) :=
  match q with
  | SelectWhere name col param order =>
      t ← st !! name;
      rs ← select_where cv st name col param order;
      Some (map (row_object (def t)) rs)
  | SelectAll name =>
      t ← st !! name;
      Some (map (row_object (def t)) (rows t))
  | SelectCounts names => mapM (count_row st) names
  end.

(** [db.all(sql, params, callback)]: [Some rows], or [None] for [err]. *)
Definition db_all (q : query) (w : world) : option (list json) * world :=
  if refused w then (None, issue (Ask q) (tables w) w)
  else (answer q (tables w), issue (Ask q) (tables w) w).

(** [db.get(sql, params, callback)]: the first row or [undefined]. *)
Definition db_get (q : query) (w : world) : option value * world :=
  let '(r, w') := db_all q w in (head <$> r, w').

(** ** Start-up: the callback of [new sqlite3.Database] *)

Definition schema : list (string * table_def) :=
  [ ("users", users_def); ("orders", orders_def);
    ("cart_history", cart_history_def) ].

(** The three [db.run(`CREATE TABLE IF NOT EXISTS ...`)] of the open
    callback; nothing is issued when opening failed.  The results are the
    statements' outcomes.  The source passes no callback to them, so a
    statement that fails raises an 'error' event nobody listens to and the
    process ends there: the statements after it are not run. *)
Fixpoint create_tables (defs : list (string * table_def)) (w : world)
  : list (option Z) * world :=
  match defs with
  | [] => ([], w)
  | (name, d) :: rest =>
      let '(r, w1) := db_run (CreateTableIfNotExists name d) w in
      match r with
      | None => ([None], w1)
      | Some _ =>
          let '(rs, w2) := create_tables rest w1 in
          (r :: rs, w2)
      end
  end.

Definition initialize (w : world) : list (option Z) * world :=
  if open_failed env then ([], w) else create_tables schema w.

(** ** Responses *)

Inductive outcome : Type :=
| Respond (status : Z) (body : json)
    (* res.status(status).json(body) *)
| SendText (status : Z) (prefix : string)
    (* res.status(status).send(prefix + err.message) *)
| Render (results : list (option (list json)))
    (* the handler goes on to fill its HTML template from these query
       results; the markup is not modelled *)
| SendFile (name : string)
| Uncaught.
    (* a TypeError escapes the callback: no response is sent *)

(** An object literal; a property whose value is [undefined] is not written
    by [res.json]. *)
Fixpoint object (props : list (string * value)) : list (string * json) :=
  match props with
  | [] => []
  | (k, Some j) :: rest => (k, j) :: object rest
  | (_, None) :: rest => object rest
  end.

Definition json_response (status : Z) (props : list (string * value)) : outcome :=
  Respond status (JObj (object props)).

Definition str (s : string) : value := Some (JStr s).

(** The body [express.json()] leaves in [req.body]: the properties of the
    parsed object ([{}] when the request carries no JSON). *)
Definition body : Type := list (string * json).

(** ** POST /api/login *)

Definition login (b : body) (w : world) : outcome * world :=
  let username := assoc "username" b in
  let password := assoc "password" b in
  if negb (truthy username) || negb (truthy password) then
    (json_response 400 [("error", str "Username and password are required")], w)
  else
    let '(found, w1) :=
      db_get (SelectWhere "users" "username" username None) w in
    match found with
    | None => (json_response 500 [("error", str "Database error")], w1)
    | Some (Some _) =>
        (json_response 200
           [("message", str "Login successful"); ("username", username)], w1)
    | Some None =>
        let '(created, w2) :=
          db_run (InsertInto "users"
                    [("username", username); ("password", password)]) w1 in
        match created with
        | None =>
            (json_response 500 [("error", str "Failed to create user")], w2)
        | Some _ =>
            (json_response 200
               [("message", str "User created and login successful");
                ("username", username)], w2)
        end
    end.

(** ** POST /api/order *)

(** The statement of the [forEach] callback for one item; [None] when
    reading the item's properties throws. *)
Definition history_insert (username : value) (item : json) : option command :=
  id ← member item "id";
  name ← member item "name";
  quantity ← member item "quantity";
  price ← member item "price";
  Some (InsertInto "cart_history"
          [("username", username); ("item_id", id); ("item_name", name);
           ("quantity", quantity); ("price", price)]).

(** [items.forEach(item => db.run(...))] on an array: the boolean tells
    whether the loop ran to its end.  The result of each insert is dropped
    (part_000 passes a callback that only logs; server.js passes none, so
    that there a failed insert ends the process, after the answer has been
    sent, and the rows written are fewer).  When an item throws, the inserts
    queued for the items before it are taken as run.  The source does not
    call [db.serialize], so the driver may run the queued inserts in any
    order: the rows are written here in the order of the array, and what is
    proved of the rows of [cart_history] is stated up to a permutation. *)
Fixpoint forEach_item (username : value) (items : list json) (w : world)
  : bool * world :=
  match items with
  | [] => (true, w)
  | item :: rest =>
      match history_insert username item with
      | None => (false, w)
      | Some s => forEach_item username rest (db_run s w).2
      end
  end.

Definition placeOrder (b : body) (w : world) : outcome * world :=
  let username := assoc "username" b in
  let items := assoc "items" b in
  let total := assoc "total" b in
  if negb (truthy username) || negb (truthy items) || negb (truthy total) then
    (json_response 400 [("error", str "Missing required fields")], w)
  else
    let itemsJson := JSON.stringify <$> items in
    let '(placed, w1) :=
      db_run (InsertInto "orders"
                [("username", username); ("items", JStr <$> itemsJson);
                 ("total", total)]) w in
    match placed with
    | None => (json_response 500 [("error", str "Failed to place order")], w1)
    | Some lastID =>
        match items with
        | Some (JArr elems) =>
            let '(finished, w2) := forEach_item username elems w1 in
            if finished then
              (json_response 200
                 [("message", str "Order placed successfully");
                  ("orderId", Some (JNum (number_of_Z lastID)));
                  ("total", total)], w2)
            else (Uncaught, w2)
        | _ => (Uncaught, w1)      (* items.forEach is not a function *)
        end
    end.

(** ** GET /api/orders/:username and GET /api/cart-history/:username *)

Definition list_by_user (table_name order_column : string) (username : string)
    (w : world) : outcome * world :=
  let '(rows, w1) :=
    db_all (SelectWhere table_name "username" (str username)
              (Some order_column)) w in
  match rows with
  | None => (json_response 500 [("error", str "Database error")], w1)
  | Some rs => (Respond 200 (JArr rs), w1)
  end.

Definition listOrders : string → world → outcome * world :=
  list_by_user "orders" "order_date".

Definition listCartHistory : string → world → outcome * world :=
  list_by_user "cart_history" "added_date".

(** ** The reporting view and the static routes *)

Definition admin (w : world) : outcome * world :=
  let '(counts, w1) :=
    db_all (SelectCounts ["users"; "orders"; "cart_history"]) w in
  match counts with
  | None => (SendText 500 "Database error: ", w1)
  | Some _ => (Render [counts], w1)
  end.

(** The three queries of GET /admin/details, nested.  A query that fails
    yields [None]: part_000 renders it as no rows, server.js does not test
    [err] and throws on [users.length]. *)
Definition admin_details (w : world) : outcome * world :=
  let '(users, w1) := db_all (SelectAll "users") w in
  let '(orders, w2) := db_all (SelectAll "orders") w1 in
  let '(history, w3) := db_all (SelectAll "cart_history") w2 in
  (Render [users; orders; history], w3).

(** The "Items Count" cell of GET /admin/details in part_000:
    [const items = order.items ? JSON.parse(order.items) : []] and then
    [items.length].  [order.items] is a cell of a row (NULL when the table
    has no such column); [None] is a SyntaxError of [JSON.parse] or the
    TypeError of [null.length]. *)
Fixpoint utf16_length (s : string) : Z :=
  match s with
  | EmptyString => 0
  | String c rest =>
      let n := N_of_ascii c in
      (if (n <? 128)%N then 1
       else if (n <? 192)%N then 0       (* a continuation byte *)
       else if (n <? 240)%N then 1
       else 2)                           (* a surrogate pair *)
      + utf16_length rest
  end.

Definition length_of (j : json) : option value :=
  match j with
  | JNull => None
  | JArr elems => Some (Some (JNum (number_of_Z (Z.of_nat (length elems)))))
  | JStr s => Some (Some (JNum (number_of_Z (utf16_length s))))
  | JObj props => Some (assoc "length" props)
  | JBool _ | JNum _ => Some undefined
  end.

Definition items_count (items : sqlval) : option value :=
  let parsed_length (text : string) :=
    parsed ← JSON.parse text; length_of parsed in
  match items with
  | SqlNull => Some (Some (JNum (NZero false)))
  | SqlNum n =>
      if number_truthy n then parsed_length (JSON.Number_toString n)
      else Some (Some (JNum (NZero false)))
  | SqlText s =>
      if String.eqb s "" then Some (Some (JNum (NZero false)))
      else parsed_length s
  end.

Definition items_cell (d : table_def) (r : row) : sqlval :=
  default SqlNull (i ← column_index "items" (columns d); r !! i).

(** The cells of the column, one per order, in the order of the rows. *)
Definition details_items_counts (orders : table) : list (option value) :=
  map (λ r, items_count (items_cell (def orders) r)) (rows orders).

(** ** The routes *)

Inductive request : Type :=
| PostLogin (b : body)
| PostOrder (b : body)
| GetOrders (username : string)
| GetCartHistory (username : string)
| GetAdmin
| GetAdminDetails
| GetHealth
| GetRoot.

Definition handle (r : request) (w : world) : outcome * world :=
  match r with
  | PostLogin b => login b w
  | PostOrder b => placeOrder b w
  | GetOrders u => listOrders u w
  | GetCartHistory u => listCartHistory u w
  | GetAdmin => admin w
  | GetAdminDetails => admin_details w
  | GetHealth =>      (* a route of part_000 only *)
      (Respond 200 (JObj (("status", JStr "OK") :: health_info env)), w)
  | GetRoot => (SendFile "index.html", w)
  end.

End Handlers.

End Server.

Export Server.

(** * The specification's vocabulary *)

Module Spec.

(** A line item, in the specification's words: [{id, name, quantity, price}]. *)
Definition line_item (j : json) : bool :=
  match j with
  | JObj props =>
      bool_decide (is_Some (assoc "id" props))
      && bool_decide (is_Some (assoc "name" props))
      && bool_decide (is_Some (assoc "quantity" props))
      && bool_decide (is_Some (assoc "price" props))
  | _ => false
  end.

Definition positive_number (n : number) : bool :=
  match n with
  | NFin false _ _ | NInf false => true
  | _ => false
  end.

(** The input constraint of placeOrder, in the specification's words:
    username non-empty, items a non-empty sequence of line items, total a
    positive number. *)
Definition order_constraint (b : body) : bool :=
  match assoc "username" b, assoc "items" b, assoc "total" b with
  | Some (JStr u), Some (JArr (i :: rest)), Some (JNum t) =>
      negb (String.eqb u "") && forallb line_item (i :: rest)
      && positive_number t
  | _, _, _ => false
  end.

(** Empty or absent, for a field of a request body. *)
Definition empty_or_absent (v : value) : Prop :=
  v = undefined ∨ v = Some JNull ∨ v = Some (JStr "").

(** The validation errors of the two POST routes. *)
Definition missing_fields : outcome :=
  json_response 400 [("error", str "Missing required fields")].

Definition credentials_required : outcome :=
  json_response 400 [("error", str "Username and password are required")].

(** The INSERT of POST /api/order into [orders]. *)
Definition order_insert (b : body) : command :=
  InsertInto "orders"
    [("username", assoc "username" b);
     ("items", JStr <$> (JSON.stringify <$> assoc "items" b));
     ("total", assoc "total" b)].

(** [item.k] as the [forEach] callback reads it ([undefined] where the read
    itself throws; the callback then issues nothing). *)
Definition field (item : json) (k : string) : value :=
  default undefined (member item k).

(** What the engine keeps of a parameter bound into a column of affinity
    [a]: for a string in a TEXT column and a number in a numeric column,
    the value itself. *)
Definition stored (cv : conversions) (a : affinity) (v : value) : sqlval :=
  coerce cv a (bind cv v).

(** The Order row of a request: identifier, username, the serialized items,
    total, order date. *)
Definition order_row (cv : conversions) (id : Z) (now : string) (b : body) : row :=
  [ SqlNum (number_of_Z id);
    stored cv TextAffinity (assoc "username" b);
    SqlText (default "" (JSON.stringify <$> assoc "items" b));
    stored cv NumericAffinity (assoc "total" b);
    SqlText now ].

(** A CartHistoryEntry row carries a username and an item: its username,
    item_id, item_name, quantity and price cells hold them. *)
Definition carries (cv : conversions) (username : value) (item : json)
    (r : row) : Prop :=
  r !! 1%nat = Some (stored cv TextAffinity username)
  ∧ r !! 2%nat = Some (stored cv NumericAffinity (field item "id"))
  ∧ r !! 3%nat = Some (stored cv TextAffinity (field item "name"))
  ∧ r !! 4%nat = Some (stored cv NumericAffinity (field item "quantity"))
  ∧ r !! 5%nat = Some (stored cv NumericAffinity (field item "price")).

(** An item none of whose four properties binds to NULL. *)
Definition complete (cv : conversions) (item : json) : Prop :=
  Forall (λ k, bind cv (field item k) ≠ SqlNull)
         ["id"; "name"; "quantity"; "price"].

(** The INSERT of the [forEach] callback into [cart_history]. *)
Definition history_command (username : value) (item : json) : command :=
  InsertInto "cart_history"
    [("username", username); ("item_id", field item "id");
     ("item_name", field item "name");
     ("quantity", field item "quantity"); ("price", field item "price")].

(** No two rows have the same username (NULLs apart, as for UNIQUE). *)
Definition distinct_usernames (rs : list row) : Prop :=
  ∀ i j ri rj, rs !! i = Some ri → rs !! j = Some rj → i ≠ j →
    sql_eqb (cell ri 1) (cell rj 1) = false.

(** The store with [t] as its [users] table. *)
Definition with_users (t : table) (w : world) : world :=
  World (<["users" := t]> (tables w)) (journal w).

(** A row of [orders], and one of [cart_history], as a listing answers
    it: one property per column, in the order of the columns. *)
Definition order_object (r : row) : json :=
  JObj [("id", json_of_sqlval (cell r 0));
        ("username", json_of_sqlval (cell r 1));
        ("items", json_of_sqlval (cell r 2));
        ("total", json_of_sqlval (cell r 3));
        ("order_date", json_of_sqlval (cell r 4))].

Definition entry_object (r : row) : json :=
  JObj [("id", json_of_sqlval (cell r 0));
        ("username", json_of_sqlval (cell r 1));
        ("item_id", json_of_sqlval (cell r 2));
        ("item_name", json_of_sqlval (cell r 3));
        ("quantity", json_of_sqlval (cell r 4));
        ("price", json_of_sqlval (cell r 5));
        ("added_date", json_of_sqlval (cell r 6))].

(** [a] is not before [b].  The timestamps CURRENT_TIMESTAMP writes are
    texts of the form YYYY-MM-DD HH:MM:SS, whose order byte by byte is their
    order in time; of other cells a text counts as later than a number and
    a number as later than NULL. *)
Definition not_before (a b : sqlval) : Prop :=
  match a, b with
  | SqlText x, SqlText y => String.leb y x = true
  | SqlText _, _ => True
  | SqlNum x, SqlNum y => number_leb y x = true
  | SqlNum _, SqlNull => True
  | SqlNum _, SqlText _ => False
  | SqlNull, SqlNull => True
  | SqlNull, _ => False
  end.

(** Most recent first by the cell at [k]: no row of the answer comes
    before a row with a later timestamp. *)
Definition newest_first (k : nat) (rs : list row) : Prop :=
  ∀ i j ri rj, (i < j)%nat → rs !! i = Some ri → rs !! j = Some rj →
    not_before (cell ri k) (cell rj k).

(** The routes that are registered with [app.get]. *)
Definition is_get (r : request) : bool :=
  match r with
  | PostLogin _ | PostOrder _ => false
  | _ => true
  end.

(** The identifiers of a table's rows: its [id] cells are whole numbers
    that grow from row to row and do not pass the table's counter. *)
Definition numbered (t : table) : Prop :=
  ∃ ids : list Z,
    Forall2 (λ r z, r !! 0%nat = Some (SqlNum (number_of_Z z))) (rows t) ids
    ∧ StronglySorted Z.lt ids
    ∧ Forall (λ z, 0 < z ≤ seq t) ids.

(** A store of the server: each of the three tables, where it exists, has
    the definition of the source and numbered rows. *)
Definition well_numbered (st : gmap string table) : Prop :=
  ∀ name d t, (name, d) ∈ schema → st !! name = Some t →
    def t = d ∧ 0 ≤ seq t ∧ numbered t.

(** Insert-only: every table that was there is still there with its
    definition, and its old rows are the first rows of the new table. *)
Definition insert_only (st st' : gmap string table) : Prop :=
  ∀ name t, st !! name = Some t →
    ∃ t', st' !! name = Some t' ∧ def t' = def t ∧ rows t `prefix_of` rows t'.

End Spec.

Export Spec.

(** * Sample data *)

Module Sample.

(** One admissible choice of the conversions the source leaves open. *)
Definition conv : conversions :=
  Conversions (λ _, SqlText "[object Object]") JSON.Number_toString (λ _, None).

Definition clock (n : nat) : string :=
  "2024-01-01 00:00:" +:+ JSON.string_of_digits [Z.of_nat (n / 10); Z.of_nat (n mod 10)].

(** An engine that never fails, and one that fails on its [n]-th statement. *)
Definition healthy : environment := Environment false (λ _, false) clock [].

Definition failing_at (n : nat) : environment :=
  Environment false (λ i, bool_decide (i = n)) clock [].

Definition empty_world : world := World ∅ [].

(** The store after start-up. *)
Definition fresh : world := (initialize conv healthy empty_world).2.

Definition num (z : Z) : json := JNum (number_of_Z z).

Definition alice : body := [("username", JStr "alice"); ("password", JStr "x")].

(** The store after alice's first login. *)
Definition registered : world := (login conv healthy alice fresh).2.

Definition pizza : json :=
  JObj [("id", num 1); ("name", JStr "Pizza"); ("quantity", num 2);
        ("price", num 150)].

Definition order_of (items total : json) : body :=
  [("username", JStr "alice"); ("items", items); ("total", total)].

Definition pizza_order : body := order_of (JArr [pizza]) (num 300).

(** The store after alice has registered and placed two orders and bob has
    placed one. *)
Definition busy : world :=
  (placeOrder conv healthy
     [("username", JStr "bob"); ("items", JArr [pizza; pizza]);
      ("total", num 600)]
     (placeOrder conv healthy pizza_order
        (placeOrder conv healthy pizza_order registered).2).2).2.

Definition table_of (name : string) (w : world) : table :=
  default (Table (TableDef [] []) 0 []) (tables w !! name).

(** The pizza order placed on the fresh store. *)
Definition placed : outcome * world := placeOrder conv healthy pizza_order fresh.

(** An order of one item that has no price. *)
Definition unpriced_order : body :=
  order_of (JArr [JObj [("id", num 1); ("name", JStr "Pizza");
                        ("quantity", num 2)]]) (num 300).

(** An order whose item has the price that [1e999] reads as. *)
Definition infinite_price_items : json :=
  JArr [JObj [("id", num 1); ("name", JStr "Pizza"); ("quantity", num 2);
              ("price", JNum (NInf false))]].

Definition infinite_price_order : body := order_of infinite_price_items (num 300).

(** An order whose total is what [1e999] reads as. *)
Definition infinite_total_order : body :=
  order_of (JArr [pizza]) (JNum (NInf false)).

(** An order with every field supplied and a total of 0. *)
Definition zero_total_order : body := order_of (JArr [pizza]) (JNum (NZero false)).

End Sample.

(** * Validation *)

Section Validation.

Context (cv : conversions) (env : environment).

Lemma placeOrder_rejects b w :
  truthy (assoc "username" b) && truthy (assoc "items" b)
    && truthy (assoc "total" b) = false →
  placeOrder cv env b w = (missing_fields, w).
Proof.
  intros H. unfold placeOrder.
  destruct (truthy (assoc "username" b)), (truthy (assoc "items" b)),
    (truthy (assoc "total" b)); simpl in *; first [discriminate | reflexivity].
Qed.

Lemma db_run_journal c w :
  journal (db_run cv env c w).2 = journal w ++ [Run c].
Proof.
  unfold db_run. destruct (refused env w); [done|].
  destruct c as [name d|name a]; [done|].
  destruct (insert_into _ _ _ _ _) as [[st id]|]; done.
Qed.

Lemma db_all_journal q w :
  journal (db_all cv env q w).2 = journal w ++ [Ask q].
Proof. unfold db_all. destruct (refused env w); done. Qed.

Lemma db_all_tables q w : tables (db_all cv env q w).2 = tables w.
Proof. unfold db_all. destruct (refused env w); done. Qed.

Lemma forEach_item_journal username items w :
  ∃ rest, journal (forEach_item cv env username items w).2 = journal w ++ rest.
Proof.
  revert w. induction items as [|item items IH]; intros w; simpl.
  - exists []. by rewrite app_nil_r.
  - destruct (history_insert username item) as [c|]; simpl.
    + destruct (IH (db_run cv env c w).2) as [rest Hrest].
      rewrite Hrest, db_run_journal, <- app_assoc. eauto.
    + exists []. by rewrite app_nil_r.
Qed.

Lemma placeOrder_accepts b w :
  truthy (assoc "username" b) && truthy (assoc "items" b)
    && truthy (assoc "total" b) = true →
  (placeOrder cv env b w).1 ≠ missing_fields
  ∧ ∃ rest, journal (placeOrder cv env b w).2
            = journal w ++ Run (order_insert b) :: rest.
Proof.
  intros H. apply andb_true_iff in H as [H Ht].
  apply andb_true_iff in H as [Hu Hi].
  unfold placeOrder. rewrite Hu, Hi, Ht. simpl.
  pose proof (db_run_journal (order_insert b) w) as Hj.
  unfold order_insert in *.
  destruct (db_run cv env _ w) as [[lastID|] w1] eqn:Hrun; simpl in Hj.
  - destruct (assoc "items" b) as [[|?|?|?|elems|?]|]; simpl;
      try (split; [discriminate | exists []; exact Hj]).
    pose proof (forEach_item_journal (assoc "username" b) elems w1) as [rest Hr].
    destruct (forEach_item _ _ _ _ _) as [[|] w2]; simpl in *;
      (split; [discriminate | exists rest; rewrite Hr, Hj, <- app_assoc; done]).
  - split; [discriminate | exists []; exact Hj].
Qed.

End Validation.

Lemma order_constraint_truthy b :
  order_constraint b = true →
  truthy (assoc "username" b) && truthy (assoc "items" b)
    && truthy (assoc "total" b) = true.
Proof.
  unfold order_constraint.
  destruct (assoc "username" b) as [[|?|?|u|?|?]|]; try discriminate.
  destruct (assoc "items" b) as [[|?|?|?|[|i rest]|?]|]; try discriminate.
  destruct (assoc "total" b) as [[|?|t|?|?|?]|]; try discriminate.
  intros H. apply andb_true_iff in H as [H Ht].
  apply andb_true_iff in H as [Hu _]. simpl. rewrite Hu. simpl.
  destruct t as [?|[|]|[|] ? ?]; done.
Qed.

(** C1, as amended.  POST /api/order answers 400 "Missing required fields"
    exactly when one of [username], [items], [total] is falsy, and then it
    leaves the database handle untouched (no statement is issued).  Every
    body that satisfies the specification's constraint passes the check and
    has its INSERT into [orders] issued; so every rejected body violates the
    constraint.  (The converse is what fails: see
    [placeOrder_accepts_beyond_constraint].) *)
Theorem placeOrder_validation (cv : conversions) (env : environment)
    (b : body) (w : world) :
  let passes :=
    truthy (assoc "username" b) && truthy (assoc "items" b)
      && truthy (assoc "total" b) in
  ((placeOrder cv env b w).1 = missing_fields ↔ passes = false)
  ∧ ((placeOrder cv env b w).1 = missing_fields →
       (placeOrder cv env b w).2 = w ∧ order_constraint b = false)
  ∧ (order_constraint b = true →
       (placeOrder cv env b w).1 ≠ missing_fields
       ∧ ∃ rest, journal (placeOrder cv env b w).2
                 = journal w ++ Run (order_insert b) :: rest).
Proof.
  intros passes.
  assert (Hiff : (placeOrder cv env b w).1 = missing_fields ↔ passes = false).
  { split.
    - intros H. destruct passes eqn:Hp; [|done].
      by destruct (placeOrder_accepts cv env b w Hp).
    - intros Hp. by rewrite (placeOrder_rejects cv env b w Hp). }
  split; [exact Hiff|]. split.
  - intros H. apply Hiff in H. split.
    + by rewrite (placeOrder_rejects cv env b w H).
    + destruct (order_constraint b) eqn:Hc; [|done].
      apply order_constraint_truthy in Hc. fold passes in Hc. congruence.
  - intros Hc. apply placeOrder_accepts. by apply order_constraint_truthy.
Qed.

(** C1, as the specification states it, fails: an empty item list and a
    negative total both violate the constraint, and both orders are
    accepted and placed. *)
Lemma placeOrder_accepts_beyond_constraint :
  order_constraint (Sample.order_of (JArr []) (Sample.num 300)) = false
  ∧ (placeOrder Sample.conv Sample.healthy
       (Sample.order_of (JArr []) (Sample.num 300)) Sample.fresh).1
    = json_response 200
        [("message", str "Order placed successfully");
         ("orderId", Some (Sample.num 1)); ("total", Some (Sample.num 300))]
  ∧ order_constraint (Sample.order_of (JArr [Sample.pizza]) (Sample.num (-5)))
    = false
  ∧ (placeOrder Sample.conv Sample.healthy
       (Sample.order_of (JArr [Sample.pizza]) (Sample.num (-5))) Sample.fresh).1
    = json_response 200
        [("message", str "Order placed successfully");
         ("orderId", Some (Sample.num 1)); ("total", Some (Sample.num (-5)))].
Proof. repeat split; vm_compute; reflexivity. Qed.

(** C10.  A total that is present and equal to 0 is falsy: the order is
    answered 400 "Missing required fields" and nothing is stored, whatever
    the other fields are. *)
Theorem placeOrder_zero_total (cv : conversions) (env : environment)
    (b : body) (w : world) (neg : bool) :
  assoc "total" b = Some (JNum (NZero neg)) →
  placeOrder cv env b w = (missing_fields, w).
Proof.
  intros H. apply placeOrder_rejects. rewrite H. simpl.
  by rewrite andb_false_r.
Qed.

Lemma placeOrder_zero_total_witness :
  is_Some (assoc "username" Sample.zero_total_order)
  ∧ is_Some (assoc "items" Sample.zero_total_order)
  ∧ assoc "total" Sample.zero_total_order = Some (JNum (NZero false))
  ∧ placeOrder Sample.conv Sample.healthy Sample.zero_total_order Sample.fresh
    = (missing_fields, Sample.fresh).
Proof.
  split; [eexists; reflexivity|]. split; [eexists; reflexivity|].
  split; [reflexivity|].
  apply (placeOrder_zero_total Sample.conv Sample.healthy
           Sample.zero_total_order Sample.fresh false).
  reflexivity.
Defined.

(** C6.  POST /api/login answers 400 "Username and password are required"
    whenever the username or the password is empty or absent, whatever the
    other field is, and the database handle is left as it was: no SELECT and
    no INSERT is issued. *)
Theorem login_validation (cv : conversions) (env : environment)
    (b : body) (w : world) :
  empty_or_absent (assoc "username" b) ∨ empty_or_absent (assoc "password" b) →
  login cv env b w = (credentials_required, w).
Proof.
  unfold login, empty_or_absent.
  intros [[H|[H|H]]|[H|[H|H]]]; rewrite H; simpl; try reflexivity;
    by rewrite orb_true_r.
Qed.

Lemma login_validation_witness :
  login Sample.conv Sample.healthy [("username", JStr "alice")] Sample.fresh
  = (credentials_required, Sample.fresh)
  ∧ login Sample.conv Sample.healthy
      [("username", JStr ""); ("password", JStr "x")] Sample.fresh
    = (credentials_required, Sample.fresh).
Proof.
  split.
  - apply (login_validation Sample.conv Sample.healthy
             [("username", JStr "alice")] Sample.fresh).
    right. left. reflexivity.
  - apply (login_validation Sample.conv Sample.healthy
             [("username", JStr ""); ("password", JStr "x")] Sample.fresh).
    left. right. right. reflexivity.
Defined.

(** * The engine never rewrites a row *)

Section Monotone.

Context (cv : conversions) (env : environment).

Global Instance insert_only_preorder : PreOrder insert_only.
Proof.
  split.
  - intros st name t H. exists t. done.
  - intros st1 st2 st3 H12 H23 name t H.
    destruct (H12 name t H) as (t2 & H2 & Hd2 & Hp2).
    destruct (H23 name t2 H2) as (t3 & H3 & Hd3 & Hp3).
    exists t3. split; [done|]. split; [congruence|]. by etrans.
Qed.

Lemma insert_into_insert_only st now name a st' id :
  insert_into cv st now name a = Some (st', id) → insert_only st st'.
Proof.
  unfold insert_into. intros H.
  destruct (st !! name) as [t|] eqn:Ht; [|done].
  destruct (known_columns _ _); [|done].
  destruct (constraints_ok _ _ _ _); [|done].
  injection H as <- <-. intros name' t' Ht'.
  destruct (decide (name = name')) as [<-|Hne].
  - rewrite lookup_insert_eq. eexists. split; [done|]. simpl.
    assert (t' = t) as -> by congruence. split; [done|].
    by apply prefix_app_r.
  - rewrite lookup_insert_ne by done. by exists t'.
Qed.

Lemma create_table_insert_only st name d :
  insert_only st (create_table_if_not_exists st name d).
Proof.
  unfold create_table_if_not_exists.
  destruct (st !! name) as [t|] eqn:Ht; [done|].
  intros name' t' Ht'. exists t'.
  rewrite lookup_insert_ne by congruence. done.
Qed.

Lemma db_run_insert_only c w :
  insert_only (tables w) (tables (db_run cv env c w).2).
Proof.
  unfold db_run. destruct (refused env w); [done|].
  destruct c as [name d|name a]; simpl.
  - apply create_table_insert_only.
  - destruct (insert_into _ _ _ _ _) as [[st id]|] eqn:Hi; simpl; [|done].
    by eapply insert_into_insert_only.
Qed.


Lemma forEach_item_insert_only username items w :
  insert_only (tables w) (tables (forEach_item cv env username items w).2).
Proof.
  revert w. induction items as [|item items IH]; intros w; simpl; [done|].
  destruct (history_insert username item) as [c|]; simpl; [|done].
  etrans; [apply (db_run_insert_only c w)|apply IH].
Qed.

Lemma create_tables_insert_only defs w :
  insert_only (tables w) (tables (create_tables cv env defs w).2).
Proof.
  revert w. induction defs as [|[name d] defs IH]; intros w; simpl; [done|].
  pose proof (db_run_insert_only (CreateTableIfNotExists name d) w) as H1.
  destruct (db_run _ _ _ w) as [[id|] w1]; [|done]. specialize (IH w1).
  destruct (create_tables _ _ defs w1) as [rs w2]. simpl in *. by etrans.
Qed.

Lemma login_insert_only b w :
  insert_only (tables w) (tables (login cv env b w).2).
Proof.
  unfold login. destruct (_ || _); [done|]. unfold db_get.
  pose proof (db_all_tables cv env
                (SelectWhere "users" "username" (assoc "username" b) None) w) as Ht.
  destruct (db_all _ _ _ w) as [found w1]. simpl in Ht.
  destruct found as [[|row rs]|]; simpl; try (rewrite Ht; done).
  pose proof (db_run_insert_only
                (InsertInto "users" [("username", assoc "username" b);
                                     ("password", assoc "password" b)]) w1) as Hr.
  destruct (db_run _ _ _ w1) as [[id|] w2]; simpl in *; by rewrite <- Ht.
Qed.

Lemma placeOrder_insert_only b w :
  insert_only (tables w) (tables (placeOrder cv env b w).2).
Proof.
  unfold placeOrder. destruct (_ || _); [done|].
  pose proof (db_run_insert_only (order_insert b) w) as Hr.
  unfold order_insert in Hr.
  destruct (db_run _ _ _ w) as [[lastID|] w1]; simpl in *; [|done].
  destruct (assoc "items" b) as [[|?|?|?|elems|?]|]; simpl; try done.
  pose proof (forEach_item_insert_only (assoc "username" b) elems w1) as Hf.
  destruct (forEach_item _ _ _ _ _) as [[|] w2]; simpl in *; by etrans.
Qed.

Lemma list_by_user_tables tname col u w :
  tables (list_by_user cv env tname col u w).2 = tables w.
Proof.
  unfold list_by_user.
  pose proof (db_all_tables cv env
                (SelectWhere tname "username" (str u) (Some col)) w) as Ht.
  destruct (db_all _ _ _ w) as [[rs|] w1]; done.
Qed.

Lemma admin_tables w : tables (admin cv env w).2 = tables w.
Proof.
  unfold admin.
  pose proof (db_all_tables cv env
                (SelectCounts ["users"; "orders"; "cart_history"]) w) as Ht.
  destruct (db_all _ _ _ w) as [[rs|] w1]; done.
Qed.

Lemma admin_details_tables w : tables (admin_details cv env w).2 = tables w.
Proof.
  unfold admin_details.
  pose proof (db_all_tables cv env (SelectAll "users") w) as H1.
  destruct (db_all _ _ _ w) as [r1 w1].
  pose proof (db_all_tables cv env (SelectAll "orders") w1) as H2.
  destruct (db_all _ _ _ w1) as [r2 w2].
  pose proof (db_all_tables cv env (SelectAll "cart_history") w2) as H3.
  destruct (db_all _ _ _ w2) as [r3 w3]. simpl in *. congruence.
Qed.

End Monotone.



(** C8.  Whatever the request and whatever the engine does, a route handler
    leaves every table that exists in place with its definition, and the
    rows the table had are, unchanged and in the same order, the first rows
    it has afterwards.  The same holds for the table creation at start-up. *)
Theorem handlers_insert_only (cv : conversions) (env : environment)
    (r : request) (w : world) :
  insert_only (tables w) (tables (handle cv env r w).2)
  ∧ insert_only (tables w) (tables (initialize cv env w).2).
Proof.
  split.
  - destruct r; simpl.
    + apply login_insert_only.
    + apply placeOrder_insert_only.
    + unfold listOrders. by rewrite list_by_user_tables.
    + unfold listCartHistory. by rewrite list_by_user_tables.
    + by rewrite admin_tables.
    + by rewrite admin_details_tables.
    + done.
    + done.
  - unfold initialize. destruct (open_failed env); [done|].
    apply create_tables_insert_only.
Qed.

(** * Start-up *)

Section Startup.

Context (cv : conversions) (env : environment).

Hypothesis opened : open_failed env = false.
Hypothesis no_io_error : ∀ n, io_error env n = false.

Lemma never_refused w : refused env w = false.
Proof. unfold refused. by rewrite opened, no_io_error. Qed.

Lemma db_run_create name d w :
  db_run cv env (CreateTableIfNotExists name d) w
  = (Some 0, World (create_table_if_not_exists (tables w) name d)
               (journal w ++ [Run (CreateTableIfNotExists name d)])).
Proof. unfold db_run. by rewrite never_refused. Qed.

Lemma initialize_unfold w :
  initialize cv env w
  = ([Some 0; Some 0; Some 0],
     World
       (create_table_if_not_exists
          (create_table_if_not_exists
             (create_table_if_not_exists (tables w) "users" users_def)
             "orders" orders_def)
          "cart_history" cart_history_def)
       (journal w ++ [Run (CreateTableIfNotExists "users" users_def);
                      Run (CreateTableIfNotExists "orders" orders_def);
                      Run (CreateTableIfNotExists "cart_history"
                             cart_history_def)])).
Proof.
  unfold initialize. rewrite opened. unfold schema, create_tables.
  rewrite !db_run_create. simpl. by rewrite <- !app_assoc.
Qed.

End Startup.

Lemma create_table_present (st : gmap string table) name d :
  is_Some (st !! name) → create_table_if_not_exists st name d = st.
Proof. intros [t Ht]. unfold create_table_if_not_exists. by rewrite Ht. Qed.

Lemma create_table_lookup (st : gmap string table) name d :
  is_Some (create_table_if_not_exists st name d !! name).
Proof.
  unfold create_table_if_not_exists.
  destruct (st !! name) as [t|] eqn:Ht; [by rewrite Ht|].
  rewrite lookup_insert_eq. by eexists.
Qed.

Lemma create_table_keeps (st : gmap string table) name name' d :
  is_Some (st !! name') →
  is_Some (create_table_if_not_exists st name d !! name').
Proof.
  intros [t Ht].
  destruct (create_table_insert_only st name d name' t Ht) as (t' & -> & _).
  by eexists.
Qed.

(** C7.  On an engine that opened and reports no input/output error, the
    table creation of the open callback raises no error when the three
    tables exist, whatever their definitions, and leaves the whole store as
    it was; and run a second time after itself it raises no error and
    changes nothing. *)
Theorem initialize_idempotent (cv : conversions) (env : environment) (w : world) :
  open_failed env = false →
  (∀ n, io_error env n = false) →
  (is_Some (tables w !! "users") → is_Some (tables w !! "orders") →
   is_Some (tables w !! "cart_history") →
   (initialize cv env w).1 = [Some 0; Some 0; Some 0]
   ∧ tables (initialize cv env w).2 = tables w)
  ∧ (initialize cv env (initialize cv env w).2).1 = [Some 0; Some 0; Some 0]
  ∧ tables (initialize cv env (initialize cv env w).2).2
    = tables (initialize cv env w).2.
Proof.
  intros Hopen Hio.
  assert (Hsame : ∀ w', is_Some (tables w' !! "users") →
            is_Some (tables w' !! "orders") →
            is_Some (tables w' !! "cart_history") →
            (initialize cv env w').1 = [Some 0; Some 0; Some 0]
            ∧ tables (initialize cv env w').2 = tables w').
  { intros w' Hu Ho Hc. rewrite (initialize_unfold cv env Hopen Hio). simpl.
    split; [done|].
    rewrite (create_table_present (tables w') "users") by done.
    rewrite (create_table_present (tables w') "orders") by done.
    by rewrite (create_table_present (tables w') "cart_history"). }
  split; [apply Hsame|].
  apply Hsame; rewrite (initialize_unfold cv env Hopen Hio); simpl.
  - do 2 apply create_table_keeps. apply create_table_lookup.
  - apply create_table_keeps. apply create_table_lookup.
  - apply create_table_lookup.
Qed.

Lemma initialize_idempotent_witness :
  ((initialize Sample.conv Sample.healthy Sample.fresh).1
     = [Some 0; Some 0; Some 0]
   ∧ tables (initialize Sample.conv Sample.healthy Sample.fresh).2
     = tables Sample.fresh)
  ∧ (initialize Sample.conv Sample.healthy
       (initialize Sample.conv Sample.healthy Sample.empty_world).2).1
    = [Some 0; Some 0; Some 0]
  ∧ tables (initialize Sample.conv Sample.healthy
              (initialize Sample.conv Sample.healthy Sample.empty_world).2).2
    = tables (initialize Sample.conv Sample.healthy Sample.empty_world).2.
Proof.
  split.
  - apply (initialize_idempotent Sample.conv Sample.healthy Sample.fresh);
      [reflexivity | intros n; reflexivity | ..];
      vm_compute; eexists; reflexivity.
  - apply (initialize_idempotent Sample.conv Sample.healthy Sample.empty_world);
      [reflexivity | intros n; reflexivity].
Defined.

(** * POST /api/login *)

Section Login.

Context (cv : conversions) (env : environment).

Lemma sql_eqb_text v s : sql_eqb v (SqlText s) = true ↔ v = SqlText s.
Proof.
  destruct v as [|n|s']; simpl; try (split; [discriminate|discriminate]).
  rewrite String.eqb_eq. split; congruence.
Qed.






End Login.



(** * The query routes *)

Section Ordering.

Lemma Qle_bool_total x y : Qle_bool x y = true ∨ Qle_bool y x = true.
Proof.
  rewrite !Qle_bool_iff. destruct (Qlt_le_dec x y) as [H|H]; [left|right].
  - by apply Qlt_le_weak.
  - done.
Qed.

Lemma Qle_bool_trans x y z :
  Qle_bool x y = true → Qle_bool y z = true → Qle_bool x z = true.
Proof. rewrite !Qle_bool_iff. apply Qle_trans. Qed.

Lemma number_leb_total a b : number_leb a b = true ∨ number_leb b a = true.
Proof.
  destruct a as [?|[|]|? ? ?], b as [?|[|]|? ? ?]; simpl; auto;
    apply Qle_bool_total.
Qed.

Lemma number_leb_trans a b c :
  number_leb a b = true → number_leb b c = true → number_leb a c = true.
Proof.
  destruct a as [?|[|]|? ? ?], b as [?|[|]|? ? ?], c as [?|[|]|? ? ?];
    simpl; try done; apply Qle_bool_trans.
Qed.

Lemma string_leb_trans a b c :
  String.leb a b = true → String.leb b c = true → String.leb a c = true.
Proof.
  rewrite <- !Is_true_true. intros H1 H2.
  exact (transitivity (R := String.le) H1 H2).
Qed.

Lemma sql_leb_total a b : sql_leb a b = true ∨ sql_leb b a = true.
Proof.
  destruct a as [|x|x], b as [|y|y]; simpl; auto.
  - apply number_leb_total.
  - apply String.leb_total.
Qed.

Lemma sql_leb_trans a b c :
  sql_leb a b = true → sql_leb b c = true → sql_leb a c = true.
Proof.
  destruct a as [|x|x], b as [|y|y], c as [|z|z]; simpl; try done.
  - apply number_leb_trans.
  - apply string_leb_trans.
Qed.

Global Instance desc_by_total i : Total (desc_by i).
Proof. intros r1 r2. unfold desc_by. destruct (sql_leb_total (cell r2 i) (cell r1 i)); auto. Qed.

Global Instance desc_by_trans i : Transitive (desc_by i).
Proof. intros r1 r2 r3 H12 H23. unfold desc_by in *. by eapply sql_leb_trans. Qed.

End Ordering.

Section Queries.

Context (cv : conversions) (env : environment).

Lemma filter_by_username (rs : list row) U :
  filter (λ r, sql_eqb (cell r 1) (SqlText U) = true) rs
  = filter (λ r, cell r 1 = SqlText U) rs.
Proof. apply list_filter_iff. intros r. apply sql_eqb_text. Qed.

(** What [list_by_user] answers when the table [name], with definition [d],
    has its [username] column second and its date column at index [k]. *)
Lemma list_by_user_sorted name key d k U w t :
  open_failed env = false →
  io_error env (length (journal w)) = false →
  tables w !! name = Some t →
  def t = d →
  column_index "username" (columns d) = Some 1%nat →
  (∃ c, columns d !! 1%nat = Some c ∧ col_type c = TEXT) →
  column_index key (columns d) = Some k →
  ∃ rs,
    list_by_user cv env name key U w
    = (Respond 200 (JArr (map (row_object d) rs)),
       World (tables w)
         (journal w
          ++ [Ask (SelectWhere name "username" (str U) (Some key))]))
    ∧ rs ≡ₚ filter (λ r, cell r 1 = SqlText U) (rows t)
    ∧ StronglySorted (desc_by k) rs.
Proof.
  intros Hopen Hio Ht Hd Hu (c & Hc & Hty) Hk.
  exists (merge_sort (desc_by k) (filter (λ r, cell r 1 = SqlText U) (rows t))).
  split; [|split].
  - unfold list_by_user, db_all, refused. rewrite Hopen, Hio. simpl.
    unfold select_where. rewrite Ht. simpl. rewrite Hd, Hu. simpl.
    rewrite Hc. simpl. rewrite Hty, Hk. simpl.
    by rewrite filter_by_username.
  - apply merge_sort_Permutation.
  - apply StronglySorted_merge_sort; apply _.
Qed.

End Queries.

(** The answer row by row, and its order, in the specification's words. *)
Lemma row_object_orders (r : row) : row_object orders_def r = order_object r.
Proof. reflexivity. Qed.

Lemma row_object_history (r : row) :
  row_object cart_history_def r = entry_object r.
Proof. reflexivity. Qed.

Lemma desc_by_not_before k (r1 r2 : row) :
  desc_by k r1 r2 → not_before (cell r1 k) (cell r2 k).
Proof.
  unfold desc_by, not_before.
  by destruct (cell r1 k), (cell r2 k).
Qed.

Lemma sorted_newest_first k (rs : list row) :
  StronglySorted (desc_by k) rs → newest_first k rs.
Proof.
  induction 1 as [|r rs Hs IH Hr]; intros i j ri rj Hij Hi Hj.
  - by rewrite lookup_nil in Hi.
  - destruct j as [|j]; [lia|]. simpl in Hj. destruct i as [|i].
    + injection Hi as <-. apply desc_by_not_before.
      rewrite Forall_forall in Hr. apply Hr.
      by eapply list_elem_of_lookup_2.
    + simpl in Hi. apply (IH i j); [lia|done|done].
Qed.

(** C5.  With the [orders] and [cart_history] tables of the source in place
    and an engine that serves the statement, GET /api/orders/U answers 200
    with exactly the rows of [orders] whose username is [U], each once and
    each as an object of its five columns, most recent first: no row comes
    before a row whose [order_date] is later (rows of the same date in
    either order).  GET /api/cart-history/U does the same on [cart_history]
    by [added_date].  When no row matches the answer is the empty array,
    still with status 200; and no table changes. *)
Theorem list_by_username (cv : conversions) (env : environment)
    (U : string) (w : world) (orders history : table) :
  open_failed env = false →
  io_error env (length (journal w)) = false →
  tables w !! "orders" = Some orders → def orders = orders_def →
  tables w !! "cart_history" = Some history → def history = cart_history_def →
  (∃ rs,
     (listOrders cv env U w).1 = Respond 200 (JArr (map order_object rs))
     ∧ rs ≡ₚ filter (λ r, cell r 1 = SqlText U) (rows orders)
     ∧ newest_first 4 rs
     ∧ (filter (λ r, cell r 1 = SqlText U) (rows orders) = [] → rs = [])
     ∧ tables (listOrders cv env U w).2 = tables w)
  ∧ (∃ rs,
       (listCartHistory cv env U w).1
       = Respond 200 (JArr (map entry_object rs))
       ∧ rs ≡ₚ filter (λ r, cell r 1 = SqlText U) (rows history)
       ∧ newest_first 6 rs
       ∧ (filter (λ r, cell r 1 = SqlText U) (rows history) = [] → rs = [])
       ∧ tables (listCartHistory cv env U w).2 = tables w).
Proof.
  intros Hopen Hio Ho Hdo Hh Hdh. split.
  - destruct (list_by_user_sorted cv env "orders" "order_date" orders_def 4 U w
                orders Hopen Hio Ho Hdo eq_refl) as (rs & Heq & Hperm & Hsorted);
      [by eexists|done|].
    exists rs. unfold listOrders. rewrite Heq. simpl.
    split; [do 2 f_equal; apply map_ext, row_object_orders|].
    split; [done|]. split; [by apply sorted_newest_first|]. split; [|done].
    intros Hnil. rewrite Hnil in Hperm. by apply Permutation_nil_r.
  - destruct (list_by_user_sorted cv env "cart_history" "added_date"
                cart_history_def 6 U w history Hopen Hio Hh Hdh eq_refl)
      as (rs & Heq & Hperm & Hsorted); [by eexists|done|].
    exists rs. unfold listCartHistory. rewrite Heq. simpl.
    split; [do 2 f_equal; apply map_ext, row_object_history|].
    split; [done|]. split; [by apply sorted_newest_first|]. split; [|done].
    intros Hnil. rewrite Hnil in Hperm. by apply Permutation_nil_r.
Qed.

(** On a store where alice has placed two orders and bob one of two items:
    alice's orders come back the second first, bob's entries the later
    first, and carol, who has none, gets the empty array. *)
Lemma list_by_username_witness :
  (listOrders Sample.conv Sample.healthy "alice" Sample.busy).1
  = Respond 200
      (JArr
         [JObj [("id", Sample.num 2); ("username", JStr "alice");
                ("items", JStr (JSON.stringify (JArr [Sample.pizza])));
                ("total", Sample.num 300);
                ("order_date", JStr "2024-01-01 00:00:07")];
          JObj [("id", Sample.num 1); ("username", JStr "alice");
                ("items", JStr (JSON.stringify (JArr [Sample.pizza])));
                ("total", Sample.num 300);
                ("order_date", JStr "2024-01-01 00:00:05")]])
  ∧ (listCartHistory Sample.conv Sample.healthy "bob" Sample.busy).1
    = Respond 200
        (JArr
           [JObj [("id", Sample.num 4); ("username", JStr "bob");
                  ("item_id", Sample.num 1); ("item_name", JStr "Pizza");
                  ("quantity", Sample.num 2); ("price", Sample.num 150);
                  ("added_date", JStr "2024-01-01 00:00:11")];
            JObj [("id", Sample.num 3); ("username", JStr "bob");
                  ("item_id", Sample.num 1); ("item_name", JStr "Pizza");
                  ("quantity", Sample.num 2); ("price", Sample.num 150);
                  ("added_date", JStr "2024-01-01 00:00:10")]])
  ∧ (listCartHistory Sample.conv Sample.healthy "carol" Sample.busy).1
    = Respond 200 (JArr []).
Proof.
  assert (Ho : tables Sample.busy !! "orders"
               = Some (Sample.table_of "orders" Sample.busy))
    by (vm_compute; reflexivity).
  assert (Hh : tables Sample.busy !! "cart_history"
               = Some (Sample.table_of "cart_history" Sample.busy))
    by (vm_compute; reflexivity).
  assert (Hdo : def (Sample.table_of "orders" Sample.busy) = orders_def)
    by (vm_compute; reflexivity).
  assert (Hdh : def (Sample.table_of "cart_history" Sample.busy)
                = cart_history_def)
    by (vm_compute; reflexivity).
  set (o1 := [SqlNum (number_of_Z 1); SqlText "alice";
              SqlText (JSON.stringify (JArr [Sample.pizza]));
              SqlNum (number_of_Z 300); SqlText "2024-01-01 00:00:05"] : row).
  set (o2 := [SqlNum (number_of_Z 2); SqlText "alice";
              SqlText (JSON.stringify (JArr [Sample.pizza]));
              SqlNum (number_of_Z 300); SqlText "2024-01-01 00:00:07"] : row).
  set (h3 := [SqlNum (number_of_Z 3); SqlText "bob"; SqlNum (number_of_Z 1);
              SqlText "Pizza"; SqlNum (number_of_Z 2);
              SqlNum (number_of_Z 150); SqlText "2024-01-01 00:00:10"] : row).
  set (h4 := [SqlNum (number_of_Z 4); SqlText "bob"; SqlNum (number_of_Z 1);
              SqlText "Pizza"; SqlNum (number_of_Z 2);
              SqlNum (number_of_Z 150); SqlText "2024-01-01 00:00:11"] : row).
  assert (Hfo : filter (λ r, cell r 1 = SqlText "alice")
                  (rows (Sample.table_of "orders" Sample.busy)) = [o1; o2])
    by (vm_compute; reflexivity).
  assert (Hfh : filter (λ r, cell r 1 = SqlText "bob")
                  (rows (Sample.table_of "cart_history" Sample.busy))
                = [h3; h4])
    by (vm_compute; reflexivity).
  assert (Hfc : filter (λ r, cell r 1 = SqlText "carol")
                  (rows (Sample.table_of "cart_history" Sample.busy)) = [])
    by (vm_compute; reflexivity).
  split; [|split].
  - destruct (list_by_username Sample.conv Sample.healthy "alice" Sample.busy
                _ _ eq_refl eq_refl Ho Hdo Hh Hdh)
      as [(rs & Heq & Hperm & Hnew & _) _].
    rewrite Heq. rewrite Hfo in Hperm. symmetry in Hperm.
    apply Permutation_length_2_inv in Hperm as [->| ->].
    + specialize (Hnew 0%nat 1%nat o1 o2 ltac:(lia) eq_refl eq_refl).
      vm_compute in Hnew. discriminate Hnew.
    + reflexivity.
  - destruct (list_by_username Sample.conv Sample.healthy "bob" Sample.busy
                _ _ eq_refl eq_refl Ho Hdo Hh Hdh)
      as [_ (rs & Heq & Hperm & Hnew & _)].
    rewrite Heq. rewrite Hfh in Hperm. symmetry in Hperm.
    apply Permutation_length_2_inv in Hperm as [->| ->].
    + specialize (Hnew 0%nat 1%nat h3 h4 ltac:(lia) eq_refl eq_refl).
      vm_compute in Hnew. discriminate Hnew.
    + reflexivity.
  - destruct (list_by_username Sample.conv Sample.healthy "carol" Sample.busy
                _ _ eq_refl eq_refl Ho Hdo Hh Hdh)
      as [_ (rs & Heq & _ & _ & Hnil & _)].
    rewrite Heq, (Hnil Hfc). reflexivity.
Defined.

(** * POST /api/order *)

Section Orders.

Context (cv : conversions) (env : environment).

Local Arguments coerce : simpl never.
Local Arguments bind : simpl never.

Lemma coerce_null a v : coerce cv a v = SqlNull ↔ v = SqlNull.
Proof.
  destruct a, v as [|n|s]; unfold coerce; try done.
  destruct (number_of_text cv s); done.
Qed.

Lemma stored_null a v : stored cv a v = SqlNull ↔ bind cv v = SqlNull.
Proof. apply coerce_null. Qed.

Lemma history_insert_fields username item c :
  history_insert username item = Some c →
  c = InsertInto "cart_history"
        [("username", username); ("item_id", field item "id");
         ("item_name", field item "name");
         ("quantity", field item "quantity"); ("price", field item "price")].
Proof. unfold history_insert, field. destruct item; simpl; congruence. Qed.

Lemma insert_order (st : gmap string table) t now b st' id :
  st !! "orders" = Some t → def t = orders_def →
  is_Some (assoc "items" b) →
  insert_into cv st now "orders"
    [("username", assoc "username" b);
     ("items", JStr <$> (JSON.stringify <$> assoc "items" b));
     ("total", assoc "total" b)] = Some (st', id) →
  st' = <["orders" := Table orders_def (seq t + 1)
                        (rows t ++ [order_row cv (seq t + 1) now b])]> st
  ∧ id = seq t + 1
  ∧ stored cv TextAffinity (assoc "username" b) ≠ SqlNull.
Proof.
  intros Ht Hd [j Hj] H. unfold insert_into in H. rewrite Ht, Hd in H.
  unfold known_columns, new_row, new_cell in H. rewrite Hd in H.
  simpl in H. unfold cell in H. simpl in H.
  fold (stored cv TextAffinity (assoc "username" b)) in H.
  destruct (bool_decide (stored cv TextAffinity (assoc "username" b) = SqlNull))
    eqn:Hnull; simpl in H; [done|].
  apply bool_decide_eq_false in Hnull.
  match type of H with (if ?c then _ else _) = _ => destruct c end; [|done].
  injection H as <- <-. split; [|done].
  unfold order_row, stored. rewrite Hj. done.
Qed.

Lemma insert_history (st : gmap string table) t now username item st' id :
  st !! "cart_history" = Some t → def t = cart_history_def →
  insert_into cv st now "cart_history"
    [("username", username); ("item_id", field item "id");
     ("item_name", field item "name");
     ("quantity", field item "quantity"); ("price", field item "price")]
  = Some (st', id) →
  ∃ r, carries cv username item r
       ∧ st' = <["cart_history" := Table cart_history_def (seq t + 1)
                                     (rows t ++ [r])]> st.
Proof.
  intros Ht Hd H. unfold insert_into in H. rewrite Ht, Hd in H.
  unfold known_columns, new_row, new_cell in H. rewrite Hd in H.
  simpl in H.
  match type of H with (if ?c then _ else _) = _ => destruct c end; [|done].
  injection H as <- <-. eexists. split; [|reflexivity].
  unfold carries, stored. done.
Qed.

Lemma insert_history_ok (st : gmap string table) t now username item :
  st !! "cart_history" = Some t → def t = cart_history_def →
  stored cv TextAffinity username ≠ SqlNull →
  complete cv item →
  is_Some (insert_into cv st now "cart_history"
             [("username", username); ("item_id", field item "id");
              ("item_name", field item "name");
              ("quantity", field item "quantity");
              ("price", field item "price")]).
Proof.
  intros Ht Hd Hu Hc. unfold insert_into. rewrite Ht, Hd.
  unfold known_columns, new_row, new_cell. rewrite Hd. simpl.
  unfold cell. simpl.
  unfold complete in Hc. rewrite !Forall_cons in Hc.
  destruct Hc as (Hid & Hname & Hq & Hp & _).
  rewrite <- (stored_null NumericAffinity) in Hid, Hq, Hp.
  rewrite <- (stored_null TextAffinity) in Hname.
  unfold stored in *.
  rewrite !bool_decide_eq_false_2 by done. simpl. by eexists.
Qed.

Lemma db_run_history w h username item :
  tables w !! "cart_history" = Some h → def h = cart_history_def →
  (tables (db_run cv env (history_command username item) w).2 = tables w
   ∨ ∃ r, carries cv username item r
          ∧ tables (db_run cv env (history_command username item) w).2
            = <["cart_history" := Table cart_history_def (seq h + 1)
                                    (rows h ++ [r])]> (tables w))
  ∧ (refused env w = false → stored cv TextAffinity username ≠ SqlNull →
     complete cv item →
     ∃ r, carries cv username item r
          ∧ tables (db_run cv env (history_command username item) w).2
            = <["cart_history" := Table cart_history_def (seq h + 1)
                                    (rows h ++ [r])]> (tables w)).
Proof.
  intros Hh Hd. unfold db_run, history_command.
  destruct (refused env w) eqn:Href; simpl.
  - split; [by left|done].
  - destruct (insert_into cv (tables w) _ "cart_history" _) as [[st id]|] eqn:Hi.
    + destruct (insert_history _ _ _ _ _ _ _ Hh Hd Hi) as (r & Hr & ->).
      simpl. split; [right|intros _ _ _]; by exists r.
    + simpl. split; [by left|]. intros _ Hu Hc.
      destruct (insert_history_ok (tables w) h
                  (current_timestamp env (length (journal w))) username item
                  Hh Hd Hu Hc) as [x Hx].
      congruence.
Qed.

Lemma forEach_item_rows username elems : ∀ w h w2,
  tables w !! "cart_history" = Some h → def h = cart_history_def →
  forEach_item cv env username elems w = (true, w2) →
  ∃ kept added,
    kept `sublist_of` elems
    ∧ Forall2 (carries cv username) kept added
    ∧ tables w2
      = <["cart_history" :=
            Table cart_history_def (seq h + Z.of_nat (length added))
              (rows h ++ added)]> (tables w)
    ∧ (open_failed env = false →
       (∀ i, (i < length elems)%nat →
             io_error env (length (journal w) + i) = false) →
       stored cv TextAffinity username ≠ SqlNull →
       Forall (complete cv) elems →
       kept = elems).
Proof.
  induction elems as [|item elems IH]; intros w h w2 Hh Hd Hrun; simpl in Hrun.
  - injection Hrun as <-. exists [], []. repeat split; try done.
    simpl. rewrite Z.add_0_r, app_nil_r. symmetry. apply insert_id.
    rewrite Hh. f_equal. destruct h; simpl in *; congruence.
  - destruct (history_insert username item) as [c|] eqn:Hc; [|done].
    apply history_insert_fields in Hc. fold (history_command username item) in Hc.
    subst c.
    destruct (db_run_history w h username item Hh Hd) as [Hstep Hok].
    pose proof (db_run_journal cv env (history_command username item) w) as Hj.
    destruct Hstep as [Hsame|(r & Hr & Hnew)].
    + destruct (IH _ h w2 ltac:(by rewrite Hsame) Hd Hrun)
        as (kept & added & Hsub & Hcar & Htab & Hall).
      exists kept, added. split; [by apply sublist_cons|].
      split; [done|]. split; [by rewrite Htab, Hsame|].
      intros Hopen Hio Hu Hcomp. exfalso.
      apply Forall_cons in Hcomp as [Hitem Hrest].
      destruct Hok as (r & _ & Hnew); [|done|done|].
      * unfold refused. rewrite Hopen. simpl.
        specialize (Hio O ltac:(simpl; lia)). by rewrite Nat.add_0_r in Hio.
      * rewrite Hsame in Hnew.
        apply (f_equal (λ m, m !! "cart_history")) in Hnew.
        rewrite lookup_insert_eq, Hh in Hnew. injection Hnew as Hnew.
        apply (f_equal (λ x, length (rows x))) in Hnew. simpl in Hnew.
        rewrite length_app in Hnew. simpl in Hnew. lia.
    + set (h1 := Table cart_history_def (seq h + 1) (rows h ++ [r])) in *.
      destruct (IH _ h1 w2 ltac:(by rewrite Hnew, lookup_insert_eq) eq_refl Hrun)
        as (kept & added & Hsub & Hcar & Htab & Hall).
      exists (item :: kept), (r :: added).
      split; [by apply sublist_skip|]. split; [by constructor|]. split.
      * rewrite Htab, Hnew, insert_insert_eq. unfold h1. simpl.
        rewrite <- app_assoc. simpl. do 2 f_equal. lia.
      * intros Hopen Hio Hu Hcomp.
        apply Forall_cons in Hcomp as [Hitem Hrest].
        f_equal. apply Hall; try done.
        intros i Hi. rewrite Hj, length_app. simpl.
        specialize (Hio (S i) ltac:(simpl; lia)).
        by replace (length (journal w) + 1 + i)%nat
             with (length (journal w) + S i)%nat by lia.
Qed.

End Orders.

(** * JSON.parse after JSON.stringify *)

Module RoundTrip.

Import JSON.

(** ** Strings *)

Lemma append_cons x (a b : string) : String x a +:+ b = String x (a +:+ b).
Proof. reflexivity. Qed.

Lemma append_empty_l (a : string) : "" +:+ a = a.
Proof. reflexivity. Qed.

Lemma append_assoc (a b c : string) : (a +:+ b) +:+ c = a +:+ (b +:+ c).
Proof.
  induction a as [|x a IH]; [done|]. by rewrite !append_cons, IH.
Qed.

Lemma append_empty_r (a : string) : a +:+ "" = a.
Proof. induction a as [|x a IH]; [done|]. by rewrite append_cons, IH. Qed.

Lemma parse_quote_char c tail :
  parse_chars (quote_char c +:+ tail) = prepend (String c "") (parse_chars tail).
Proof. destruct c as [[] [] [] [] [] [] [] []]; reflexivity. Qed.

Lemma parse_quote_chars s rest :
  parse_chars (quote_chars s +:+ String dquote rest) = Some (s, rest).
Proof.
  induction s as [|c s IH]; [done|].
  change (quote_chars (String c s)) with (quote_char c +:+ quote_chars s).
  rewrite append_assoc, parse_quote_char, IH. done.
Qed.

(** ** Digits *)

Lemma digit_cases d : digit d →
  d = 0 ∨ d = 1 ∨ d = 2 ∨ d = 3 ∨ d = 4 ∨ d = 5 ∨ d = 6 ∨ d = 7 ∨ d = 8 ∨ d = 9.
Proof. unfold digit. lia. Qed.

Lemma digit_of_char d : digit d → digit_of (digit_char d) = Some d.
Proof.
  intros H. destruct (digit_cases d H) as [->|[->|[->|[->|[->|[->|[->|[->|[->| ->]]]]]]]]];
    reflexivity.
Qed.

Lemma take_digits_stop s : digit_stop s → take_digits s = ([], s).
Proof. destruct s as [|c s]; simpl; [done|]. by intros ->. Qed.

Lemma string_of_digits_app a b :
  string_of_digits (a ++ b) = string_of_digits a +:+ string_of_digits b.
Proof.
  unfold string_of_digits. induction a as [|d a IH]; [done|].
  simpl. by rewrite ?append_cons, IH.
Qed.

Lemma take_digits_app ds tail :
  Forall digit ds → digit_stop tail →
  take_digits (string_of_digits ds +:+ tail) = (ds, tail).
Proof.
  intros Hds Hstop. induction Hds as [|d ds Hd _ IH].
  - by apply take_digits_stop.
  - unfold string_of_digits in *. simpl. rewrite ?append_cons. simpl.
    rewrite (digit_of_char d Hd), IH. done.
Qed.

Lemma digits_value_snoc ds d : digits_value (ds ++ [d]) = 10 * digits_value ds + d.
Proof. unfold digits_value. by rewrite fold_left_app. Qed.

Lemma digits_value_app a b :
  digits_value (a ++ b) = digits_value a * 10 ^ Z.of_nat (length b) + digits_value b.
Proof.
  induction b as [|d b IH] using rev_ind.
  - rewrite app_nil_r. simpl. unfold digits_value at 3. simpl. lia.
  - rewrite app_assoc, !digits_value_snoc, IH, length_app. simpl.
    rewrite Nat2Z.inj_add, Z.pow_add_r by lia. simpl Z.of_nat. lia.
Qed.

Lemma digits_value_zeros n : digits_value (zeros n) = 0.
Proof.
  unfold zeros. induction (Z.to_nat n) as [|m IH]; [done|].
  replace (replicate (S m) 0) with (replicate m 0 ++ [0]).
  - rewrite digits_value_snoc, IH. done.
  - clear. induction m as [|m IH]; simpl; [done|]. by rewrite IH.
Qed.

Lemma zeros_length n : 0 ≤ n → Z.of_nat (length (zeros n)) = n.
Proof. intros H. unfold zeros. rewrite length_replicate. lia. Qed.

Lemma zeros_digit n : Forall digit (zeros n).
Proof. unfold zeros. apply Forall_replicate. unfold digit. lia. Qed.

Lemma digits_le_spec fuel : ∀ z,
  0 < z < 2 ^ Z.of_nat fuel →
  ∃ d ds, rev (digits_le fuel z) = d :: ds ∧ 1 ≤ d ≤ 9
          ∧ Forall digit ds ∧ digits_value (d :: ds) = z.
Proof.
  induction fuel as [|fuel IH]; intros z Hz.
  - simpl in Hz. lia.
  - simpl digits_le. destruct (z <? 10) eqn:Hlt.
    + apply Z.ltb_lt in Hlt. exists z, []. simpl.
      split; [done|]. split; [lia|]. split; [done|].
      unfold digits_value. simpl. lia.
    + apply Z.ltb_ge in Hlt.
      rewrite Nat2Z.inj_succ, Z.pow_succ_r in Hz by lia.
      destruct (IH (z / 10)) as (d & ds & Hrev & Hd & Hds & Hval).
      { split; [apply Z.div_str_pos; lia|].
        apply Z.div_lt_upper_bound; lia. }
      exists d, (ds ++ [z mod 10]). simpl. rewrite Hrev. simpl.
      split; [done|]. split; [done|]. split.
      * apply Forall_app. split; [done|]. constructor; [|done].
        unfold digit. pose proof (Z.mod_pos_bound z 10). lia.
      * change (d :: ds ++ [z mod 10]) with ((d :: ds) ++ [z mod 10]).
        rewrite digits_value_snoc, Hval.
        pose proof (Z.div_mod z 10). lia.
Qed.

Lemma digits_spec p :
  ∃ d ds, digits p = d :: ds ∧ 1 ≤ d ≤ 9 ∧ Forall digit ds
          ∧ digits_value (d :: ds) = Z.pos p.
Proof.
  apply digits_le_spec. split; [lia|].
  rewrite positive_nat_Z.
  pose proof (Pos.size_gt p) as H.
  apply Pos2Z.pos_lt_pos in H. by rewrite Pos2Z.inj_pow in H.
Qed.

(** ** Numbers *)

Lemma strip_zeros_pow j : ∀ fuel p s e,
  Z.pos p = Z.pos s * 10 ^ Z.of_nat j → (j ≤ fuel)%nat →
  Z.pos s mod 10 ≠ 0 →
  strip_zeros fuel p e = (s, e + Z.of_nat j).
Proof.
  induction j as [|j IH]; intros fuel p s e Hp Hfuel Hs.
  - simpl in Hp. rewrite Z.mul_1_r in Hp. injection Hp as ->.
    rewrite Z.add_0_r. destruct fuel as [|fuel]; [done|]. simpl.
    apply Z.eqb_neq in Hs. by rewrite Hs.
  - destruct fuel as [|fuel]; [lia|]. simpl strip_zeros.
    rewrite Nat2Z.inj_succ, Z.pow_succ_r in Hp by lia.
    assert (Hmod : Z.pos p mod 10 = 0).
    { rewrite Hp. replace (Z.pos s * (10 * 10 ^ Z.of_nat j))
        with (Z.pos s * 10 ^ Z.of_nat j * 10) by lia.
      apply Z_mod_mult. }
    assert (Hdiv : Z.pos p / 10 = Z.pos s * 10 ^ Z.of_nat j).
    { rewrite Hp. replace (Z.pos s * (10 * 10 ^ Z.of_nat j))
        with (Z.pos s * 10 ^ Z.of_nat j * 10) by lia.
      apply Z_div_mult. lia. }
    rewrite Hmod. simpl. rewrite Hdiv.
    pose proof (Z.pow_pos_nonneg 10 (Z.of_nat j) ltac:(lia) ltac:(lia)) as Hpos.
    destruct (Z.pos s * 10 ^ Z.of_nat j) as [|q|q] eqn:Hq; [lia| |lia].
    rewrite (IH fuel q s (e + 1)); [f_equal; lia|done|lia|done].
Qed.

Lemma size_bound p s j :
  Z.pos p = Z.pos s * 10 ^ Z.of_nat j → (j ≤ Pos.to_nat (Pos.size p))%nat.
Proof.
  intros Hp.
  pose proof (Pos.size_gt p) as H.
  apply Pos2Z.pos_lt_pos in H. rewrite Pos2Z.inj_pow in H.
  assert (2 ^ Z.of_nat j ≤ 10 ^ Z.of_nat j) by (apply Z.pow_le_mono_l; lia).
  assert (10 ^ Z.of_nat j ≤ Z.pos p) by (rewrite Hp; nia).
  assert (2 ^ Z.of_nat j < 2 ^ Z.pos (Pos.size p)) as Hlt by lia.
  apply Z.pow_lt_mono_r_iff in Hlt; lia.
Qed.

Lemma number_of_decimal_scaled neg s e j :
  written_as_is (NFin neg s e) = true →
  number_of_decimal neg (Z.pos s * 10 ^ Z.of_nat j) (e - Z.of_nat j)
  = NFin neg s e.
Proof.
  intros Hw. simpl in Hw.
  apply andb_true_iff in Hw as [Hw Hu]. apply andb_true_iff in Hw as [Hc Ho].
  apply negb_true_iff in Hc, Ho, Hu. apply Z.eqb_neq in Hc.
  pose proof (Z.pow_pos_nonneg 10 (Z.of_nat j) ltac:(lia) ltac:(lia)) as Hpos.
  destruct (Z.pos s * 10 ^ Z.of_nat j) as [|p|p] eqn:Hp; [lia| |lia].
  unfold number_of_decimal.
  rewrite (strip_zeros_pow j _ p s); [|done|by eapply size_bound|done].
  replace (e - Z.of_nat j + Z.of_nat j) with e by lia.
  by rewrite Ho, Hu.
Qed.

Lemma number_of_decimal_exact neg s e :
  written_as_is (NFin neg s e) = true →
  number_of_decimal neg (Z.pos s) e = NFin neg s e.
Proof.
  intros Hw. pose proof (number_of_decimal_scaled neg s e 0 Hw) as H.
  change (Z.of_nat 0) with 0 in H.
  by rewrite Z.pow_0_r, Z.mul_1_r, Z.sub_0_r in H.
Qed.

Lemma number_stop_digit_stop s : number_stop s → digit_stop s.
Proof. destruct s; simpl; [done|]. by intros [? _]. Qed.

Lemma digit_char_not_minus d : digit d → Ascii.eqb (digit_char d) "-" = false.
Proof.
  intros H. destruct (digit_cases d H) as [->|[->|[->|[->|[->|[->|[->|[->|[->| ->]]]]]]]]];
    reflexivity.
Qed.

Lemma parse_exponent_part n rest :
  digit_stop rest →
  parse_exponent (exponent_part n +:+ rest) = Some (n - 1, rest).
Proof.
  intros Hstop. unfold exponent_part. rewrite append_cons. simpl parse_exponent.
  rewrite append_assoc.
  assert (Hsign : parse_sign ((if 0 <=? n - 1 then "+" else "-")
                              +:+ match Z.abs (n - 1) with
                                  | Z.pos p => string_of_digits (digits p)
                                  | _ => "0"
                                  end +:+ rest)
                  = (if 0 <=? n - 1 then 1 else -1,
                     match Z.abs (n - 1) with
                     | Z.pos p => string_of_digits (digits p)
                     | _ => "0"
                     end +:+ rest)).
  { destruct (0 <=? n - 1); reflexivity. }
  rewrite Hsign. clear Hsign.
  destruct (Z.abs (n - 1)) as [|p|p] eqn:Habs.
  - change ("0" : string) with (string_of_digits [0]).
    rewrite (take_digits_app [0] rest); [|repeat constructor; unfold digit; lia|done].
    f_equal. f_equal. unfold digits_value. simpl. lia.
  - destruct (digits_spec p) as (d & ds & Hdig & Hd & Hds & Hval).
    rewrite Hdig, (take_digits_app (d :: ds) rest);
      [|constructor; [unfold digit; lia|done]|done].
    f_equal. f_equal. rewrite Hval.
    destruct (0 <=? n - 1) eqn:Hle; [apply Z.leb_le in Hle|apply Z.leb_gt in Hle]; lia.
  - lia.
Qed.

Lemma parse_fraction_point r :
  parse_fraction (String "." r)
  = match take_digits r with
    | ([], _) => None
    | (ds, r') => Some (ds, r')
    end.
Proof. reflexivity. Qed.

Lemma parse_number_token neg d ds frac ex rest :
  digit d → Forall digit ds → (d = 0 → ds = []) → Forall digit frac →
  number_stop rest →
  parse_number (sign_text neg +:+ string_of_digits (d :: ds)
                +:+ fraction_text frac +:+ exponent_text ex +:+ rest)
  = Some (number_of_decimal neg (digits_value ((d :: ds) ++ frac))
            (default 0 ((λ n, n - 1) <$> ex) - Z.of_nat (length frac)),
          rest).
Proof.
  intros Hd Hds Hzero Hfrac Hrest.
  pose proof (number_stop_digit_stop rest Hrest) as Hrest'.
  set (tail := fraction_text frac +:+ exponent_text ex +:+ rest).
  assert (Htail : digit_stop tail).
  { unfold tail. destruct frac as [|f frac]; [|done].
    destruct ex as [n|]; [done|]. exact Hrest'. }
  assert (Hfracp : parse_fraction tail
                   = Some (frac, exponent_text ex +:+ rest)).
  { unfold tail. destruct frac as [|f frac].
    - simpl fraction_text. rewrite append_empty_l.
      destruct ex as [n|]; [done|]. simpl exponent_text.
      rewrite append_empty_l. destruct rest as [|c rest]; [done|].
      simpl in Hrest. destruct Hrest as (_ & Hp & _). simpl. by rewrite Hp.
    - unfold fraction_text.
      rewrite append_assoc, append_cons, append_empty_l, parse_fraction_point.
      rewrite take_digits_app; [done|done|].
      destruct ex as [n|]; [done|]. exact Hrest'. }
  assert (Hexp : parse_exponent (exponent_text ex +:+ rest)
                 = Some (default 0 ((λ n, n - 1) <$> ex), rest)).
  { destruct ex as [n|]; simpl.
    - by apply parse_exponent_part.
    - destruct rest as [|c rest]; [done|].
      simpl in Hrest. destruct Hrest as (_ & _ & He1 & He2). simpl.
      by rewrite He1, He2. }
  assert (Hint : take_digits (string_of_digits (d :: ds) +:+ tail)
                 = (d :: ds, tail)).
  { apply take_digits_app; [by constructor|done]. }
  unfold parse_number. fold tail.
  assert (Hsign :
    match sign_text neg +:+ string_of_digits (d :: ds) +:+ tail with
    | String c r =>
        if Ascii.eqb c "-" then (true, r)
        else (false, sign_text neg +:+ string_of_digits (d :: ds)
                     +:+ tail)
    | EmptyString =>
        (false, sign_text neg +:+ string_of_digits (d :: ds) +:+ tail)
    end = (neg, string_of_digits (d :: ds) +:+ tail)).
  { unfold sign_text. destruct neg; [done|]. rewrite append_empty_l.
    unfold string_of_digits. simpl. rewrite ?append_cons.
    by rewrite digit_char_not_minus. }
  rewrite Hsign, Hint.
  destruct d as [|q|q]; [rewrite (Hzero eq_refl)| |];
    rewrite Hfracp; simpl; rewrite Hexp; done.
Qed.

Lemma fraction_text_digits f frac :
  "." +:+ string_of_digits (f :: frac) = fraction_text (f :: frac).
Proof. reflexivity. Qed.

Lemma token_plain neg d ds rest :
  sign_text neg +:+ string_of_digits (d :: ds) +:+ rest
  = sign_text neg +:+ string_of_digits (d :: ds) +:+ fraction_text []
    +:+ exponent_text None +:+ rest.
Proof. reflexivity. Qed.

Lemma token_exponent neg d ds n rest :
  sign_text neg +:+ string_of_digits (d :: ds) +:+ exponent_part n +:+ rest
  = sign_text neg +:+ string_of_digits (d :: ds) +:+ fraction_text []
    +:+ exponent_text (Some n) +:+ rest.
Proof. reflexivity. Qed.

Lemma token_fraction neg d ds f frac rest :
  sign_text neg +:+ string_of_digits (d :: ds) +:+ "."
  +:+ string_of_digits (f :: frac) +:+ rest
  = sign_text neg +:+ string_of_digits (d :: ds) +:+ fraction_text (f :: frac)
    +:+ exponent_text None +:+ rest.
Proof.
  rewrite <- fraction_text_digits. simpl exponent_text.
  by rewrite append_empty_l, (append_assoc ".").
Qed.

Lemma token_fraction_exponent neg d ds f frac n rest :
  sign_text neg +:+ string_of_digits (d :: ds) +:+ "."
  +:+ string_of_digits (f :: frac) +:+ exponent_part n +:+ rest
  = sign_text neg +:+ string_of_digits (d :: ds) +:+ fraction_text (f :: frac)
    +:+ exponent_text (Some n) +:+ rest.
Proof.
  rewrite <- fraction_text_digits. simpl exponent_text.
  by rewrite (append_assoc ".").
Qed.

(** A finite number that is written as it is reads back as itself. *)
Lemma parse_number_layout neg s e rest :
  written_as_is (NFin neg s e) = true → number_stop rest →
  parse_number (Number_toString (NFin neg s e) +:+ rest)
  = Some (NFin neg s e, rest).
Proof.
  intros Hw Hrest. unfold Number_toString. fold (sign_text neg).
  rewrite append_assoc.
  destruct (digits_spec s) as (d & ds & Hdig & Hd & Hds & Hval). rewrite Hdig.
  assert (Hdd : digit d) by (unfold digit; lia).
  assert (Hnz : d = 0 → ds = []) by lia.
  set (k := Z.of_nat (length (d :: ds))).
  assert (Hk : k = 1 + Z.of_nat (length ds)) by (unfold k; simpl length; lia).
  set (n := e + k). unfold number_layout. fold k.
  destruct ((k <=? n) && (n <=? 21)) eqn:H1.
  { apply andb_true_iff in H1 as [H1 _]. apply Z.leb_le in H1.
    rewrite <- app_comm_cons, token_plain.
    rewrite parse_number_token;
      [|done|apply Forall_app; split; [done|apply zeros_digit]
       |intros ->; lia|done|done].
    rewrite app_nil_r, app_comm_cons, digits_value_app, Hval,
      digits_value_zeros. simpl default. simpl length.
    rewrite zeros_length by lia.
    replace (n - k) with (Z.of_nat (Z.to_nat e)) by lia.
    replace (0 - Z.of_nat 0) with (e - Z.of_nat (Z.to_nat e)) by lia.
    rewrite Z.add_0_r. by rewrite number_of_decimal_scaled. }
  destruct ((0 <? n) && (n <=? 21)) eqn:H2.
  { apply andb_true_iff in H2 as [H2 H2']. apply Z.ltb_lt in H2.
    apply Z.leb_le in H2'.
    assert (n < k).
    { apply andb_false_iff in H1 as [H1|H1];
        [apply Z.leb_gt in H1|apply Z.leb_gt in H1]; lia. }
    destruct (Z.to_nat n) as [|m] eqn:Hm; [lia|]. simpl take. simpl drop.
    destruct (drop m ds) as [|f frac] eqn:Hdrop.
    { apply (f_equal length) in Hdrop. rewrite length_drop in Hdrop.
      simpl in Hdrop. lia. }
    rewrite !append_assoc, token_fraction.
    assert (Hparts : Forall digit (take m ds) ∧ Forall digit (f :: frac)).
    { rewrite <- Hdrop. split; [by apply Forall_take|by apply Forall_drop]. }
    destruct Hparts as [Htake Hfrac].
    rewrite parse_number_token; [|done|done|intros ->; lia|done|done].
    rewrite <- Hdrop, <- app_comm_cons, take_drop, Hval.
    simpl default. rewrite length_drop.
    replace (0 - Z.of_nat (length ds - m)) with e by lia.
    by rewrite number_of_decimal_exact. }
  destruct ((-6 <? n) && (n <=? 0)) eqn:H3.
  { apply andb_true_iff in H3 as [H3 H3']. apply Z.ltb_lt in H3.
    apply Z.leb_le in H3'.
    change ("0." : string) with (string_of_digits [0] +:+ ".").
    rewrite !append_assoc.
    destruct (zeros (- n) ++ d :: ds) as [|f frac] eqn:Hfrac.
    { by destruct (zeros (- n)). }
    rewrite token_fraction.
    rewrite parse_number_token;
      [|unfold digit; lia|done|done
       |rewrite <- Hfrac; apply Forall_app;
        split; [apply zeros_digit|by constructor]
       |done].
    rewrite <- Hfrac.
    rewrite (digits_value_app [0]), (digits_value_app (zeros (- n))),
      digits_value_zeros, Hval.
    simpl default. rewrite length_app, Nat2Z.inj_add, zeros_length by lia.
    change (digits_value [0]) with 0.
    replace (0 * _ + (0 * _ + Z.pos s)) with (Z.pos s) by lia.
    replace (0 - (- n + Z.of_nat (length (d :: ds)))) with e by lia.
    by rewrite number_of_decimal_exact. }
  destruct (k =? 1) eqn:H4.
  { apply Z.eqb_eq in H4. destruct ds as [|d' ds]; [|simpl length in Hk; lia].
    rewrite !append_assoc, token_exponent.
    rewrite parse_number_token; [|done|done|intros ->; lia|done|done].
    rewrite app_nil_r, Hval. simpl default. simpl length.
    replace (n - 1 - Z.of_nat 0) with e by lia.
    by rewrite number_of_decimal_exact. }
  apply Z.eqb_neq in H4. simpl take. simpl drop.
  destruct ds as [|f frac]; [simpl length in Hk; lia|].
  change (take 0 (f :: frac)) with (@nil Z).
  change (drop 0 (f :: frac)) with (f :: frac).
  rewrite !append_assoc, token_fraction_exponent.
  rewrite parse_number_token; [|done|done|intros ->; lia|done|done].
  change ([d] ++ f :: frac) with (d :: f :: frac). rewrite Hval.
  simpl default.
  replace (n - 1 - Z.of_nat (length (f :: frac))) with e by lia.
  by rewrite number_of_decimal_exact.
Qed.

(** ** Values *)

(** Induction on a JSON value with the hypothesis on every element. *)
Lemma json_induction (P : json → Prop) :
  P JNull → (∀ b, P (JBool b)) → (∀ n, P (JNum n)) → (∀ s, P (JStr s)) →
  (∀ elems, Forall P elems → P (JArr elems)) →
  (∀ props, Forall (λ kv, P kv.2) props → P (JObj props)) →
  ∀ j, P j.
Proof.
  intros Hnull Hbool Hnum Hstr Harr Hobj.
  fix IH 1. intros [|b|n|s|elems|props].
  - exact Hnull.
  - apply Hbool.
  - apply Hnum.
  - apply Hstr.
  - apply Harr. induction elems as [|v elems IHl]; constructor; [apply IH|exact IHl].
  - apply Hobj. induction props as [|[k v] props IHl]; constructor;
      [apply IH|exact IHl].
Qed.

Lemma parse_value_number fuel c r :
  number_head c →
  parse_value (S fuel) (String c r)
  = '(n, r') ← parse_number (String c r); Some (JNum n, r').
Proof.
  intros [->|(d & Hd & ->)]; [reflexivity|].
  destruct (digit_cases d Hd) as [->|[->|[->|[->|[->|[->|[->|[->|[->| ->]]]]]]]]];
    reflexivity.
Qed.

Lemma number_head_plain c :
  number_head c → is_ws c = false ∧ Ascii.eqb c "]" = false.
Proof.
  intros [->|(d & Hd & ->)]; [done|].
  destruct (digit_cases d Hd) as [->|[->|[->|[->|[->|[->|[->|[->|[->| ->]]]]]]]]];
    done.
Qed.

Lemma digit_of_inv c d : digit_of c = Some d → digit d ∧ c = digit_char d.
Proof.
  unfold digit_of, digit_char, digit.
  destruct ((48 <=? N_of_ascii c)%N && (N_of_ascii c <=? 57)%N) eqn:H; [|done].
  apply andb_true_iff in H as [H1 H2].
  apply N.leb_le in H1, H2. intros [= <-]. split; [lia|].
  replace (Z.to_N (48 + (Z.of_N (N_of_ascii c) - 48))) with (N_of_ascii c) by lia.
  by rewrite ascii_N_embedding.
Qed.

Lemma parse_number_head c r x :
  parse_number (String c r) = Some x → number_head c.
Proof.
  unfold parse_number.
  destruct (Ascii.eqb c "-") eqn:Hc; [apply Ascii.eqb_eq in Hc; by left|].
  simpl take_digits. destruct (digit_of c) as [d|] eqn:Hd; [|done].
  intros _. right. exists d. by apply digit_of_inv.
Qed.

Lemma parse_number_written n rest :
  written_as_is n = true → number_stop rest →
  parse_number (Number_toString n +:+ rest) = Some (n, rest).
Proof.
  destruct n as [[|]|neg|neg s e]; intros Hw Hrest; try done.
  - change (Number_toString (NZero false))
      with (sign_text false +:+ string_of_digits [0]).
    rewrite append_assoc, token_plain.
    rewrite parse_number_token; done.
  - by apply parse_number_layout.
Qed.

Lemma parse_value_written n fuel rest :
  written_as_is n = true → number_stop rest →
  parse_value (S fuel) (Number_toString n +:+ rest) = Some (JNum n, rest).
Proof.
  intros Hw Hrest. pose proof (parse_number_written n rest Hw Hrest) as H.
  destruct (Number_toString n +:+ rest) as [|c r] eqn:Hs; [done|].
  rewrite (parse_value_number fuel c r (parse_number_head c r _ H)), H. done.
Qed.

Lemma skip_ws_head s : value_head s → skip_ws s = s.
Proof. destruct s as [|c s]; simpl; [done|]. by intros [-> _]. Qed.

Lemma value_head_app s rest : value_head s → value_head (s +:+ rest).
Proof. by destruct s. Qed.

Lemma stringify_head j : representable j → value_head (stringify j).
Proof.
  intros Hj. destruct Hj as [|[|]|n Hw|s|elems _|props _ _]; try done.
  pose proof (parse_number_written n "" Hw I) as H.
  rewrite append_empty_r in H.
  assert (Hs : stringify (JNum n) = Number_toString n) by by destruct n.
  rewrite Hs. destruct (Number_toString n) as [|c r]; [done|].
  by apply number_head_plain, (parse_number_head c r _ H).
Qed.

Lemma parse_value_string fuel r :
  parse_value (S fuel) (String dquote r)
  = '(str, r') ← parse_chars r; Some (JStr str, r').
Proof. reflexivity. Qed.

Lemma parse_value_array fuel r :
  parse_value (S fuel) (String "[" r)
  = match skip_ws r with
    | String c' r' =>
        if Ascii.eqb c' "]" then Some (JArr [], r')
        else '(vs, r'') ← parse_elements fuel r; Some (JArr vs, r'')
    | EmptyString => None
    end.
Proof. reflexivity. Qed.

Lemma parse_value_object fuel r :
  parse_value (S fuel) (String "{" r)
  = match skip_ws r with
    | String c' r' =>
        if Ascii.eqb c' "}" then Some (JObj [], r')
        else '(ps, r'') ← parse_members fuel r;
             Some (JObj (object_of_pairs ps), r'')
    | EmptyString => None
    end.
Proof. reflexivity. Qed.

Lemma parse_elements_step fuel s :
  parse_elements (S fuel) s
  = '(v, r) ← parse_value fuel s;
    match skip_ws r with
    | String c r' =>
        if Ascii.eqb c "," then
          '(vs, r'') ← parse_elements fuel r'; Some (v :: vs, r'')
        else if Ascii.eqb c "]" then Some ([v], r')
        else None
    | EmptyString => None
    end.
Proof. reflexivity. Qed.

Lemma parse_members_step fuel r :
  parse_members (S fuel) (String dquote r)
  = '(k, r1) ← parse_chars r;
    match skip_ws r1 with
    | String c1 r2 =>
        if Ascii.eqb c1 ":" then
          '(v, r3) ← parse_value fuel r2;
          match skip_ws r3 with
          | String c2 r4 =>
              if Ascii.eqb c2 "," then
                '(ps, r5) ← parse_members fuel r4; Some ((k, v) :: ps, r5)
              else if Ascii.eqb c2 "}" then Some ([(k, v)], r4)
              else None
          | EmptyString => None
          end
        else None
    | EmptyString => None
    end.
Proof. reflexivity. Qed.

Lemma parse_elements_comma fuel v s tail :
  parse_value fuel s = Some (v, String "," tail) →
  parse_elements (S fuel) s
  = '(vs, r) ← parse_elements fuel tail; Some (v :: vs, r).
Proof. intros H. rewrite parse_elements_step, H. reflexivity. Qed.

Lemma parse_elements_last fuel v s tail :
  parse_value fuel s = Some (v, String "]" tail) →
  parse_elements (S fuel) s = Some ([v], tail).
Proof. intros H. rewrite parse_elements_step, H. reflexivity. Qed.

Lemma parse_members_comma fuel k v r tail more :
  parse_chars r = Some (k, String ":" tail) →
  parse_value fuel tail = Some (v, String "," more) →
  parse_members (S fuel) (String dquote r)
  = '(ps, r') ← parse_members fuel more; Some ((k, v) :: ps, r').
Proof. intros Hk Hv. rewrite parse_members_step, Hk. simpl. rewrite Hv. reflexivity. Qed.

Lemma parse_members_last fuel k v r tail more :
  parse_chars r = Some (k, String ":" tail) →
  parse_value fuel tail = Some (v, String "}" more) →
  parse_members (S fuel) (String dquote r) = Some ([(k, v)], more).
Proof. intros Hk Hv. rewrite parse_members_step, Hk. simpl. rewrite Hv. reflexivity. Qed.

Lemma number_stop_comma r : number_stop (String "," r).
Proof. done. Qed.

Lemma number_stop_bracket r : number_stop (String "]" r).
Proof. done. Qed.

Lemma number_stop_brace r : number_stop (String "}" r).
Proof. done. Qed.

Lemma join_cons (a b : string) (l : list string) :
  join (a :: b :: l) = a +:+ "," +:+ join (b :: l).
Proof. reflexivity. Qed.

Lemma parse_elements_written vs : ∀ v fuel rest,
  Forall reads_back (v :: vs) →
  (fold_right (λ v acc, S (need v + acc)) O (v :: vs) ≤ fuel)%nat →
  parse_elements fuel (join (map stringify (v :: vs)) +:+ "]" +:+ rest)
  = Some (v :: vs, rest).
Proof.
  induction vs as [|v' vs IH]; intros v fuel rest Hall Hfuel;
    apply Forall_cons in Hall as [Hv Hvs];
    (destruct fuel as [|fuel]; [simpl in Hfuel; lia|]).
  - apply parse_elements_last. simpl in Hfuel.
    change (join (map stringify [v])) with (stringify v).
    rewrite append_cons, append_empty_l.
    apply Hv; [lia|apply number_stop_bracket].
  - change (fold_right (λ v acc, S (need v + acc)) O (v :: v' :: vs))
      with (S (need v + fold_right (λ v acc, S (need v + acc)) O (v' :: vs)))%nat
      in Hfuel.
    rewrite (parse_elements_comma fuel v _
               (join (map stringify (v' :: vs)) +:+ "]" +:+ rest)).
    + rewrite IH; [done|done|lia].
    + change (map stringify (v :: v' :: vs))
        with (stringify v :: stringify v' :: map stringify vs).
      rewrite join_cons, !append_assoc, append_cons, append_empty_l.
      apply Hv; [lia|apply number_stop_comma].
Qed.

Lemma member_text_shape k v tail :
  member_text (k, v) +:+ tail
  = String dquote (quote_chars k +:+ String dquote (String ":" (stringify v +:+ tail))).
Proof.
  unfold member_text, quote. simpl fst. simpl snd.
  by rewrite !append_cons, !append_assoc, !append_cons, !append_empty_l.
Qed.

Lemma parse_members_written ps : ∀ k v fuel rest,
  Forall (λ kv, reads_back kv.2) ((k, v) :: ps) →
  (fold_right (λ kv acc, S (need kv.2 + acc)) O ((k, v) :: ps) ≤ fuel)%nat →
  parse_members fuel (join (map member_text ((k, v) :: ps)) +:+ "}" +:+ rest)
  = Some ((k, v) :: ps, rest).
Proof.
  induction ps as [|[k' v'] ps IH]; intros k v fuel rest Hall Hfuel;
    apply Forall_cons in Hall as [Hv Hvs]; simpl in Hv;
    (destruct fuel as [|fuel]; [simpl in Hfuel; lia|]).
  - change (join (map member_text [(k, v)])) with (member_text (k, v)).
    rewrite member_text_shape. simpl in Hfuel.
    eapply parse_members_last; [apply parse_quote_chars|].
    rewrite append_cons, append_empty_l.
    apply Hv; [lia|apply number_stop_brace].
  - change (fold_right (λ kv acc, S (need kv.2 + acc)) O ((k, v) :: (k', v') :: ps))
      with (S (need v + fold_right (λ kv acc, S (need kv.2 + acc)) O
                          ((k', v') :: ps)))%nat in Hfuel.
    change (map member_text ((k, v) :: (k', v') :: ps))
      with (member_text (k, v) :: member_text (k', v') :: map member_text ps).
    rewrite join_cons, append_assoc, member_text_shape.
    rewrite (parse_members_comma fuel k v _ _
               (join (map member_text ((k', v') :: ps)) +:+ "}" +:+ rest)
               (parse_quote_chars _ _)).
    + rewrite IH; [done|done|lia].
    + rewrite !append_assoc, append_cons, append_empty_l.
      apply Hv; [lia|apply number_stop_comma].
Qed.

Lemma parse_value_array_elements fuel r :
  value_head r →
  parse_value (S fuel) (String "[" r)
  = '(vs, r') ← parse_elements fuel r; Some (JArr vs, r').
Proof.
  intros H. rewrite parse_value_array, (skip_ws_head r H).
  destruct r as [|c r]; [done|]. destruct H as [_ H]. by rewrite H.
Qed.

Lemma parse_value_object_members fuel r :
  parse_value (S fuel) (String "{" (String dquote r))
  = '(ps, r') ← parse_members fuel (String dquote r);
    Some (JObj (object_of_pairs ps), r').
Proof. reflexivity. Qed.

Lemma join_head (a : string) (l : list string) (x : string) :
  value_head a → value_head (join (a :: l) +:+ x).
Proof.
  intros H. destruct l as [|b l].
  - by apply value_head_app.
  - rewrite join_cons. by apply value_head_app, value_head_app.
Qed.

Lemma stringify_array elems :
  stringify (JArr elems) = String "[" (join (map stringify elems) +:+ "]").
Proof. reflexivity. Qed.

Lemma stringify_object props :
  stringify (JObj props) = String "{" (join (map member_text props) +:+ "}").
Proof. reflexivity. Qed.

Lemma stringify_string s :
  stringify (JStr s) = String dquote (quote_chars s +:+ String dquote "").
Proof. reflexivity. Qed.

(** Every representable value, written by [stringify], is read back by
    [parse_value]. *)
Lemma parse_value_stringify j : representable j → reads_back j.
Proof.
  induction j as [|b|n|s|elems IH|props IH] using json_induction;
    intros Hrep fuel rest Hfuel Hrest;
    (destruct fuel as [|fuel]; [simpl in Hfuel; lia|]).
  - reflexivity.
  - destruct b; reflexivity.
  - inversion Hrep as [| |? Hw| | |]; subst.
    assert (Hs : stringify (JNum n) = Number_toString n) by by destruct n.
    rewrite Hs. by apply parse_value_written.
  - rewrite stringify_string, append_cons, append_assoc, append_cons,
      append_empty_l, parse_value_string, parse_quote_chars. done.
  - inversion Hrep as [| | | |? Hall|]; subst.
    assert (Hback : Forall reads_back elems).
    { rewrite Forall_forall in *. intros v Hv. apply IH; [done|]. by apply Hall. }
    rewrite stringify_array, append_cons, append_assoc.
    destruct elems as [|v vs]; [reflexivity|].
    rewrite parse_value_array_elements.
    + simpl in Hfuel. rewrite parse_elements_written; [done|done|].
      simpl. lia.
    + apply join_head, stringify_head. by inversion Hall.
  - inversion Hrep as [| | | | |? Horder Hall]; subst.
    assert (Hback : Forall (λ kv, reads_back kv.2) props).
    { rewrite Forall_forall in *. intros kv Hkv. apply IH; [done|]. by apply Hall. }
    rewrite stringify_object, append_cons, append_assoc.
    destruct props as [|[k v] ps]; [reflexivity|].
    assert (Hshape : ∃ r, join (map member_text ((k, v) :: ps)) +:+ "}" +:+ rest
                          = String dquote r).
    { destruct ps as [|kv ps].
      - eexists. apply member_text_shape.
      - change (map member_text ((k, v) :: kv :: ps))
          with (member_text (k, v) :: member_text kv :: map member_text ps).
        rewrite join_cons, append_assoc. eexists. apply member_text_shape. }
    destruct Hshape as [r Hr].
    pose proof (parse_members_written ps k v fuel rest Hback) as Hparse.
    rewrite Hr in *. rewrite parse_value_object_members, Hparse.
    + simpl. by rewrite Horder.
    + simpl in Hfuel. simpl. lia.
Qed.

Lemma length_append (a b : string) :
  String.length (a +:+ b) = (String.length a + String.length b)%nat.
Proof.
  induction a as [|c a IH]; [done|]. rewrite append_cons. simpl. by rewrite IH.
Qed.

Lemma value_head_length s : value_head s → (1 ≤ String.length s)%nat.
Proof. destruct s; simpl; [done|lia]. Qed.

Lemma need_elements (A : Type) (f : A → json) (text : A → string) (l : list A) :
  Forall (λ x, (need (f x) ≤ String.length (text x))%nat) l →
  (fold_right (λ x acc, S (need (f x) + acc)) O l
   ≤ String.length (join (map text l)) + 1)%nat.
Proof.
  induction l as [|a [|b l] IH]; intros Hall.
  - simpl. lia.
  - apply Forall_cons in Hall as [Ha _]. simpl. lia.
  - apply Forall_cons in Hall as [Ha Hl]. specialize (IH Hl).
    change (map text (a :: b :: l)) with (text a :: text b :: map text l).
    rewrite join_cons, !length_append.
    change (fold_right (λ x acc, S (need (f x) + acc)) O (a :: b :: l))
      with (S (need (f a) + fold_right (λ x acc, S (need (f x) + acc)) O (b :: l)))%nat.
    change (map text (b :: l)) with (text b :: map text l) in IH.
    simpl String.length at 2. lia.
Qed.

(** The fuel [parse] starts with is enough. *)
Lemma need_length j :
  representable j → (need j ≤ String.length (stringify j))%nat.
Proof.
  induction j as [|b|n|s|elems IH|props IH] using json_induction; intros Hrep.
  - simpl. lia.
  - destruct b; simpl; lia.
  - apply (value_head_length _ (stringify_head _ Hrep)).
  - rewrite stringify_string. simpl. lia.
  - inversion Hrep as [| | | |? Hall|]; subst.
    rewrite stringify_array. simpl String.length. rewrite length_append.
    pose proof (need_elements json id stringify elems) as H.
    simpl in *. simpl String.length. 
    assert (Hle : Forall (λ x, (need x ≤ String.length (stringify x))%nat) elems).
    { rewrite Forall_forall in *. intros v Hv. apply IH; [done|]. by apply Hall. }
    specialize (H Hle). lia.
  - inversion Hrep as [| | | | |? Horder Hall]; subst.
    rewrite stringify_object. simpl String.length. rewrite length_append.
    pose proof (need_elements (string * json) snd member_text props) as H.
    assert (Hle : Forall (λ x, (need x.2 ≤ String.length (member_text x))%nat)
                    props).
    { rewrite Forall_forall in *. intros kv Hkv.
      unfold member_text. rewrite !length_append.
      specialize (IH kv Hkv (Hall kv Hkv)). lia. }
    specialize (H Hle). simpl in *. lia.
Qed.

(** [JSON.parse(JSON.stringify(j))] is [j] for a representable [j]. *)
Lemma parse_stringify j : representable j → parse (stringify j) = Some j.
Proof.
  intros Hrep. unfold parse.
  pose proof (parse_value_stringify j Hrep (S (String.length (stringify j))) "")
    as H.
  rewrite append_empty_r in H. rewrite H; [done| |done].
  pose proof (need_length j Hrep). lia.
Qed.

(** ** The representable values

    What [representable] asks of a number besides being finite and not
    [-0] holds of every number [parse] yields, and its condition on an
    object holds whenever the keys are distinct and none is an array
    index. *)

Lemma strip_zeros_canonical fuel : ∀ p e s e',
  Z.pos p < 2 ^ Z.of_nat fuel →
  strip_zeros fuel p e = (s, e') → Z.pos s mod 10 ≠ 0.
Proof.
  induction fuel as [|fuel IH]; intros p e s e' Hp H.
  - simpl in Hp. lia.
  - simpl in H. destruct (Z.pos p mod 10 =? 0) eqn:Hmod.
    + apply Z.eqb_eq in Hmod.
      rewrite Nat2Z.inj_succ, Z.pow_succ_r in Hp by lia.
      destruct (Z.pos p / 10) as [|q|q] eqn:Hq.
      * pose proof (Z.div_mod (Z.pos p) 10). lia.
      * apply (IH q (e + 1) s e'); [|done].
        pose proof (Z.div_mod (Z.pos p) 10). lia.
      * pose proof (Z.div_pos (Z.pos p) 10). lia.
    + apply Z.eqb_neq in Hmod. by injection H as <- <-.
Qed.

Lemma number_of_decimal_written neg p e :
  written_as_is (number_of_decimal neg (Z.pos p) e) = true
  ∨ number_of_decimal neg (Z.pos p) e = NInf neg
  ∨ number_of_decimal neg (Z.pos p) e = NZero neg.
Proof.
  unfold number_of_decimal.
  destruct (strip_zeros _ p e) as [s e'] eqn:Hstrip.
  assert (Hs : Z.pos s mod 10 ≠ 0).
  { apply (strip_zeros_canonical (Pos.to_nat (Pos.size p)) p e s e'); [|done].
    rewrite positive_nat_Z. pose proof (Pos.size_gt p) as H.
    apply Pos2Z.pos_lt_pos in H. by rewrite Pos2Z.inj_pow in H. }
  destruct (overflows s e') eqn:Ho; [by right; left|].
  destruct (underflows s e') eqn:Hu; [by right; right|].
  left. simpl. rewrite Ho, Hu. apply Z.eqb_neq in Hs. by rewrite Hs.
Qed.

Lemma has_key_elem k (props : list (string * json)) :
  has_key k props = false ↔ k ∉ props.*1.
Proof.
  induction props as [|[k' v] props IH]; simpl.
  - split; [intros _; apply not_elem_of_nil|done].
  - rewrite orb_false_iff, IH, not_elem_of_cons, String.eqb_neq. done.
Qed.

Lemma object_of_pairs_plain props :
  NoDup props.*1 → Forall (λ kv, array_index kv.1 = None) props →
  object_of_pairs props = props.
Proof.
  unfold object_of_pairs.
  assert (H : ∀ acc, NoDup (acc ++ props).*1 →
                Forall (λ kv, array_index kv.1 = None) props →
                fold_left (λ ps kv, define_property ps kv.1 kv.2) props acc
                = acc ++ props).
  { induction props as [|[k v] props IH]; intros acc Hnd Hplain.
    - by rewrite app_nil_r.
    - apply Forall_cons in Hplain as [Hk Hplain]. simpl in *.
      assert (Hfresh : has_key k acc = false).
      { apply has_key_elem. rewrite fmap_app in Hnd. simpl in Hnd.
        apply NoDup_app in Hnd as (_ & Hdisj & _). intros Hin.
        apply (Hdisj k Hin). left. }
      unfold define_property at 2. rewrite Hfresh, Hk.
      rewrite IH; [by rewrite <- app_assoc| |done].
      by rewrite <- app_assoc. }
  intros Hnd Hplain. by apply (H []).
Qed.

End RoundTrip.

(** * The stored items *)

Section StoredItems.

Context (cv : conversions) (env : environment).

Lemma insert_into_other (st : gmap string table) now name a st' id name' :
  insert_into cv st now name a = Some (st', id) → name' ≠ name →
  st' !! name' = st !! name'.
Proof.
  unfold insert_into. intros H Hne.
  destruct (st !! name) as [t|]; [|done].
  destruct (known_columns _ _); [|done].
  destruct (constraints_ok _ _ _ _); [|done].
  injection H as <- <-. by rewrite lookup_insert_ne.
Qed.

Lemma db_run_history_other username item w name :
  name ≠ "cart_history" →
  tables (db_run cv env (history_command username item) w).2 !! name
  = tables w !! name.
Proof.
  intros Hne. unfold db_run, history_command.
  destruct (refused env w); [done|].
  destruct (insert_into _ _ _ _ _) as [[st id]|] eqn:Hi; [|done].
  simpl. by eapply insert_into_other.
Qed.

Lemma forEach_item_other username elems name : ∀ w,
  name ≠ "cart_history" →
  tables (forEach_item cv env username elems w).2 !! name = tables w !! name.
Proof.
  induction elems as [|item elems IH]; intros w Hne; simpl; [done|].
  destruct (history_insert username item) as [c|] eqn:Hc; [|done].
  apply history_insert_fields in Hc. subst c. simpl.
  fold (history_command username item).
  rewrite IH by done. by apply db_run_history_other.
Qed.

(** The Order row of a call that answers 200. *)
Lemma placeOrder_order_row b w w' answer orders :
  placeOrder cv env b w = (Respond 200 answer, w') →
  tables w !! "orders" = Some orders → def orders = orders_def →
  ∃ items,
    assoc "items" b = Some items
    ∧ tables w' !! "orders"
      = Some (Table orders_def (seq orders + 1)
                (rows orders
                 ++ [order_row cv (seq orders + 1)
                       (current_timestamp env (length (journal w))) b])).
Proof.
  intros Hrun Ho Hdo. unfold placeOrder in Hrun.
  destruct (negb (truthy (assoc "username" b)) || negb (truthy (assoc "items" b))
            || negb (truthy (assoc "total" b))) eqn:Hvalid;
    [unfold json_response in Hrun; simpl in Hrun; congruence|].
  apply orb_false_iff in Hvalid as [Hvalid _].
  apply orb_false_iff in Hvalid as [_ Hi]. apply negb_false_iff in Hi.
  destruct (assoc "items" b) as [items|] eqn:Hitems; [|done].
  exists items. split; [done|].
  unfold db_run in Hrun.
  destruct (refused env w);
    [unfold json_response in Hrun; simpl in Hrun; congruence|].
  destruct (insert_into _ _ _ _ _) as [[st1 id]|] eqn:Hins;
    [|unfold json_response in Hrun; simpl in Hrun; congruence].
  rewrite <- Hitems in Hins.
  destruct (insert_order cv _ _ _ b _ _ Ho Hdo ltac:(by rewrite Hitems) Hins)
    as (-> & -> & _).
  destruct items as [|?|?|?|elems|?]; try (simpl in Hrun; congruence).
  pose proof (forEach_item_other (assoc "username" b) elems "orders"
                (issue (Run (InsertInto "orders"
                               [("username", assoc "username" b);
                                ("items", JStr <$> (JSON.stringify <$> Some (JArr elems)));
                                ("total", assoc "total" b)]))
                   (<["orders" := Table orders_def (seq orders + 1)
                                    (rows orders
                                     ++ [order_row cv (seq orders + 1)
                                           (current_timestamp env
                                              (length (journal w))) b])]>
                      (tables w)) w) ltac:(done)) as Hother.
  destruct (forEach_item _ _ _ _ _) as [[|] w2]; [|simpl in Hrun; congruence].
  unfold json_response in Hrun. simpl in Hrun. injection Hrun as _ <-.
  simpl in Hother. by rewrite Hother, lookup_insert_eq.
Qed.

End StoredItems.

(** C9, as amended.  With the [orders] table of the source in place, a POST
    /api/order that answers 200 has appended one row to [orders] whose
    [items] cell is the text [JSON.stringify] writes for the request's
    items; and [JSON.parse] of that text is the items again whenever they
    are representable: every number finite and not [-0] (and, as every
    value of [JSON.parse] is, in shortest decimal form within the range of
    a double, with object properties in creation order). *)
Theorem stored_items_round_trip (cv : conversions) (env : environment)
    (b : body) (w w' : world) (answer : json) (orders : table) :
  placeOrder cv env b w = (Respond 200 answer, w') →
  tables w !! "orders" = Some orders → def orders = orders_def →
  ∃ (items : json) (r : row),
    assoc "items" b = Some items
    ∧ tables w' !! "orders"
      = Some (Table orders_def (seq orders + 1) (rows orders ++ [r]))
    ∧ r !! 2%nat = Some (SqlText (JSON.stringify items))
    ∧ (JSON.representable items →
       JSON.parse (JSON.stringify items) = Some items).
Proof.
  intros Hrun Ho Hdo.
  destruct (placeOrder_order_row cv env b w w' answer orders Hrun Ho Hdo)
    as (items & Hitems & Htab).
  exists items. eexists. split; [done|]. split; [exact Htab|]. split.
  - unfold order_row. rewrite Hitems. done.
  - apply RoundTrip.parse_stringify.
Qed.

Lemma stored_items_round_trip_witness :
  ∃ r : row,
    tables Sample.placed.2 !! "orders"
    = Some (Table orders_def (0 + 1) ([] ++ [r]))
    ∧ r !! 2%nat = Some (SqlText (JSON.stringify (JArr [Sample.pizza])))
    ∧ JSON.parse (JSON.stringify (JArr [Sample.pizza]))
      = Some (JArr [Sample.pizza]).
Proof.
  assert (Hrun : placeOrder Sample.conv Sample.healthy Sample.pizza_order
                   Sample.fresh
                 = (Respond 200
                      (JObj [("message", JStr "Order placed successfully");
                             ("orderId", JNum (NFin false 1 0));
                             ("total", JNum (NFin false 3 2))]),
                    Sample.placed.2))
    by (vm_compute; reflexivity).
  destruct (stored_items_round_trip Sample.conv Sample.healthy
              Sample.pizza_order Sample.fresh Sample.placed.2 _
              (Table orders_def 0 []) Hrun)
    as (items & r & Hitems & Htab & Hcell & Hparse);
    try (vm_compute; reflexivity).
  injection Hitems as <-.
  exists r. split; [exact Htab|]. split; [exact Hcell|].
  apply Hparse. constructor. constructor; [|constructor].
  apply JSON.representable_obj; [reflexivity|].
  repeat constructor.
Defined.

(** C9, as the specification states it, fails.  [JSON.parse] reads the
    price [1e999] as [Infinity]; the order is placed, [JSON.stringify]
    stores the price as [null], and the stored text reads back with a
    price of [null].  A [-0] is stored as [0]. *)
Lemma stored_items_do_not_round_trip :
  JSON.parse "1e999" = Some (JNum (NInf false))
  ∧ (placeOrder Sample.conv Sample.healthy Sample.infinite_price_order
       Sample.fresh).1
    = Respond 200
        (JObj [("message", JStr "Order placed successfully");
               ("orderId", JNum (NFin false 1 0));
               ("total", JNum (NFin false 3 2))])
  ∧ (rows (Sample.table_of "orders"
             (placeOrder Sample.conv Sample.healthy
                Sample.infinite_price_order Sample.fresh).2) !! 0%nat)
      ≫= (λ r, r !! 2%nat)
    = Some (SqlText (JSON.stringify Sample.infinite_price_items))
  ∧ JSON.parse (JSON.stringify Sample.infinite_price_items)
    = Some (JArr [JObj [("id", Sample.num 1); ("name", JStr "Pizza");
                        ("quantity", Sample.num 2); ("price", JNull)]])
  ∧ JSON.parse (JSON.stringify Sample.infinite_price_items)
    ≠ Some Sample.infinite_price_items
  ∧ JSON.parse (JSON.stringify (JArr [JNum (NZero true)]))
    = Some (JArr [JNum (NZero false)]).
Proof.
  split; [vm_compute; reflexivity|]. split; [vm_compute; reflexivity|].
  split; [vm_compute; reflexivity|]. split; [vm_compute; reflexivity|].
  split; [|vm_compute; reflexivity].
  assert (H : JSON.parse (JSON.stringify Sample.infinite_price_items)
              = Some (JArr [JObj [("id", Sample.num 1); ("name", JStr "Pizza");
                                  ("quantity", Sample.num 2); ("price", JNull)]]))
    by (vm_compute; reflexivity).
  rewrite H. discriminate.
Qed.

(** * POST /api/order: the rows and the answer *)

(** ** Row identifiers as numbers *)

Lemma strip_zeros_value fuel : ∀ s e s' e',
  strip_zeros fuel s e = (s', e') →
  e ≤ e' ∧ Z.pos s = Z.pos s' * 10 ^ (e' - e).
Proof.
  induction fuel as [|fuel IH]; intros s e s' e' H; simpl in H.
  - injection H as <- <-. rewrite Z.sub_diag. simpl. lia.
  - destruct (Z.pos s mod 10 =? 0) eqn:Hm;
      [|injection H as <- <-; rewrite Z.sub_diag; simpl; lia].
    destruct (Z.pos s / 10) as [|p|p] eqn:Hd;
      try (injection H as <- <-; rewrite Z.sub_diag; simpl; lia).
    apply IH in H as [Hle Hv]. split; [lia|].
    apply Z.eqb_eq in Hm.
    pose proof (Z.div_mod (Z.pos s) 10 ltac:(lia)) as Hdm.
    rewrite Hm, Hd, Hv in Hdm.
    replace (e' - e) with (Z.succ (e' - (e + 1))) by lia.
    rewrite Z.pow_succ_r by lia. lia.
Qed.

Lemma normalize_inj neg p q : normalize neg p 0 = normalize neg q 0 → p = q.
Proof.
  unfold normalize.
  destruct (strip_zeros _ p 0) as [s e] eqn:Hp.
  destruct (strip_zeros _ q 0) as [s' e'] eqn:Hq.
  intros [= <- <-].
  apply strip_zeros_value in Hp as [_ Hp], Hq as [_ Hq].
  assert (Z.pos p = Z.pos q) by congruence. congruence.
Qed.

Lemma number_of_Z_inj z z' : number_of_Z z = number_of_Z z' → z = z'.
Proof.
  assert (Hfin : ∀ neg p, ∃ s e, normalize neg p 0 = NFin neg s e).
  { intros neg p. unfold normalize. destruct (strip_zeros _ p 0). eauto. }
  destruct z as [|p|p], z' as [|q|q]; simpl; try done; intros H;
    try (destruct (Hfin false p) as (s & e & Hs); rewrite Hs in H);
    try (destruct (Hfin true p) as (s & e & Hs); rewrite Hs in H);
    try (destruct (Hfin false q) as (s' & e' & Hs'); rewrite Hs' in H);
    try (destruct (Hfin true q) as (s' & e' & Hs'); rewrite Hs' in H);
    try discriminate.
  - f_equal. apply (normalize_inj false). congruence.
  - f_equal. apply (normalize_inj true). congruence.
Qed.

(** An identifier that JavaScript holds exactly is written as it is. *)
Lemma number_of_Z_written z :
  Z.abs z < 2 ^ 53 → JSON.written_as_is (number_of_Z z) = true.
Proof.
  intros Hz.
  assert (Hpos : ∀ neg p, Z.pos p < 2 ^ 53 →
            JSON.written_as_is (normalize neg p 0) = true).
  { intros neg p Hp. unfold normalize.
    destruct (strip_zeros _ p 0) as [s e] eqn:Hstrip.
    assert (Hs : Z.pos s mod 10 ≠ 0).
    { apply (RoundTrip.strip_zeros_canonical (Pos.to_nat (Pos.size p)) p 0 s e);
        [|done].
      rewrite positive_nat_Z. pose proof (Pos.size_gt p) as H.
      apply Pos2Z.pos_lt_pos in H. by rewrite Pos2Z.inj_pow in H. }
    apply strip_zeros_value in Hstrip as [He Hv]. rewrite Z.sub_0_r in Hv.
    unfold JSON.written_as_is, canonical, JSON.overflows, JSON.underflows.
    apply Z.eqb_neq in Hs. rewrite Hs.
    destruct (Z.leb_spec 0 e) as [_|?]; [|lia]. cbn [negb andb].
    rewrite andb_true_r. apply negb_true_iff, Z.leb_gt.
    rewrite <- Hv.
    assert (2 ^ 53 < 2 ^ 1024 - 2 ^ 970) by (vm_compute; reflexivity).
    lia. }
  destruct z as [|p|p]; simpl; [done| |]; apply Hpos; lia.
Qed.

(** What the client reads of the answer of a 200. *)
Lemma answer_read_back id total :
  Z.abs id < 2 ^ 53 → JSON.representable total →
  JSON.parse
    (JSON.stringify
       (JObj [("message", JStr "Order placed successfully");
              ("orderId", JNum (number_of_Z id)); ("total", total)]))
  = Some (JObj [("message", JStr "Order placed successfully");
                ("orderId", JNum (number_of_Z id)); ("total", total)]).
Proof.
  intros Hid Htotal. apply RoundTrip.parse_stringify.
  apply JSON.representable_obj; [reflexivity|].
  repeat constructor; [|done]. simpl. by apply number_of_Z_written.
Qed.

(** C2, as amended.  With the [orders] and [cart_history] tables of the
    source in place, a POST /api/order that answers 200 on an item array of
    length k has appended exactly one row to [orders] (username, serialized
    items, total), and the object it answers with holds that row's
    identifier and the request's total; the client reads both back from the
    body when the total is a value JSON.stringify writes as it is (an
    infinite total arrives as [null]).  To [cart_history] it has added, in
    whatever order the engine ran the inserts, one row for each item whose
    own INSERT succeeded and nothing else: at most k rows, each with the
    order's username and its item's id, name, quantity and price; and
    exactly k, one per item, when the engine reports no input/output error
    during the call and no item property binds to NULL.  (A failed INSERT
    into [cart_history] is not reported: see
    [placeOrder_succeeds_without_history].) *)
Theorem placeOrder_rows (cv : conversions) (env : environment) (b : body)
    (w w' : world) (answer : json) (orders history : table) :
  placeOrder cv env b w = (Respond 200 answer, w') →
  tables w !! "orders" = Some orders → def orders = orders_def →
  tables w !! "cart_history" = Some history →
  def history = cart_history_def →
  ∃ (elems kept : list json) (added : list row) (total : json)
    (history' : table),
    assoc "items" b = Some (JArr elems)
    ∧ assoc "total" b = Some total
    ∧ answer = JObj [("message", JStr "Order placed successfully");
                     ("orderId", JNum (number_of_Z (seq orders + 1)));
                     ("total", total)]
    ∧ (Z.abs (seq orders + 1) < 2 ^ 53 → JSON.representable total →
       JSON.parse (JSON.stringify answer) = Some answer)
    ∧ tables w' !! "orders"
      = Some (Table orders_def (seq orders + 1)
                (rows orders
                 ++ [order_row cv (seq orders + 1)
                       (current_timestamp env (length (journal w))) b]))
    ∧ tables w' !! "cart_history" = Some history'
    ∧ def history' = cart_history_def
    ∧ rows history' ≡ₚ rows history ++ added
    ∧ kept `sublist_of` elems
    ∧ Forall2 (carries cv (assoc "username" b)) kept added
    ∧ ((∀ i, (i ≤ length elems)%nat →
             io_error env (length (journal w) + i) = false) →
       Forall (complete cv) elems →
       kept = elems).
Proof.
  intros Hrun Ho Hdo Hh Hdh. unfold placeOrder in Hrun.
  destruct (negb (truthy (assoc "username" b)) || negb (truthy (assoc "items" b))
            || negb (truthy (assoc "total" b))) eqn:Hvalid;
    [unfold json_response in Hrun; simpl in Hrun; congruence|].
  apply orb_false_iff in Hvalid as [Hvalid Ht].
  apply orb_false_iff in Hvalid as [_ Hi].
  apply negb_false_iff in Ht, Hi.
  destruct (assoc "total" b) as [total|] eqn:Htotal; [|done].
  destruct (assoc "items" b) as [items|] eqn:Hitems; [|done].
  pose proof (db_run_journal cv env
                (InsertInto "orders"
                   [("username", assoc "username" b);
                    ("items", JStr <$> (JSON.stringify <$> Some items));
                    ("total", Some total)]) w) as Hj.
  unfold db_run in Hrun, Hj.
  destruct (refused env w) eqn:Href;
    [unfold json_response in Hrun; simpl in Hrun; congruence|].
  destruct (insert_into _ _ _ _ _) as [[st1 id]|] eqn:Hins;
    [|unfold json_response in Hrun; simpl in Hrun; congruence].
  rewrite <- Hitems, <- Htotal in Hins.
  destruct (insert_order cv _ _ _ b _ _ Ho Hdo ltac:(by rewrite Hitems) Hins)
    as (-> & -> & Hu).
  destruct items as [|?|?|?|elems|?]; try (simpl in Hrun; congruence).
  set (w1 := issue _ _ w) in *.
  destruct (forEach_item cv env (assoc "username" b) elems w1)
    as [[|] w2] eqn:Hloop; [|simpl in Hrun; congruence].
  unfold json_response in Hrun. simpl in Hrun. injection Hrun as <- <-.
  assert (Hh1 : tables w1 !! "cart_history" = Some history).
  { unfold w1. simpl. by rewrite lookup_insert_ne. }
  destruct (forEach_item_rows cv env _ _ _ _ _ Hh1 Hdh Hloop)
    as (kept & added & Hsub & Hcar & Htab & Hall).
  exists elems, kept, added, total. eexists.
  split; [done|]. split; [done|]. split; [done|].
  split; [by apply answer_read_back|]. split.
  { rewrite Htab, lookup_insert_ne by done. unfold w1. simpl.
    by rewrite lookup_insert_eq. }
  split; [by rewrite Htab, lookup_insert_eq|].
  split; [done|]. split; [done|].
  split; [done|]. split; [done|].
  intros Hio Hcomp. apply Hall; try done.
  - unfold refused in Href. by apply orb_false_iff in Href as [? _].
  - intros i Hlt. unfold w1. simpl. rewrite length_app. simpl.
    specialize (Hio (S i) ltac:(lia)).
    by replace (length (journal w) + 1 + i)%nat
         with (length (journal w) + S i)%nat by lia.
Qed.

(** An order of two pizzas on a store that holds an order of one: one more
    Order row, two more cart-history rows, one per item, and an answer the
    client reads back as it was sent. *)
Lemma placeOrder_rows_witness :
  ∃ (added : list row) (history' : table),
    (placeOrder Sample.conv Sample.healthy
       (Sample.order_of (JArr [Sample.pizza; Sample.pizza]) (Sample.num 600))
       Sample.placed.2).1
    = Respond 200
        (JObj [("message", JStr "Order placed successfully");
               ("orderId", Sample.num 2); ("total", Sample.num 600)])
    ∧ JSON.parse
        (JSON.stringify
           (JObj [("message", JStr "Order placed successfully");
                  ("orderId", Sample.num 2); ("total", Sample.num 600)]))
      = Some (JObj [("message", JStr "Order placed successfully");
                    ("orderId", Sample.num 2); ("total", Sample.num 600)])
    ∧ length (rows (Sample.table_of "orders"
                      (placeOrder Sample.conv Sample.healthy
                         (Sample.order_of (JArr [Sample.pizza; Sample.pizza])
                            (Sample.num 600))
                         Sample.placed.2).2)) = 2%nat
    ∧ tables (placeOrder Sample.conv Sample.healthy
                (Sample.order_of (JArr [Sample.pizza; Sample.pizza])
                   (Sample.num 600))
                Sample.placed.2).2 !! "cart_history" = Some history'
    ∧ rows history'
      ≡ₚ rows (Sample.table_of "cart_history" Sample.placed.2) ++ added
    ∧ length (rows (Sample.table_of "cart_history" Sample.placed.2)) = 1%nat
    ∧ Forall2 (carries Sample.conv (str "alice")) [Sample.pizza; Sample.pizza]
        added.
Proof.
  assert (Hrun : placeOrder Sample.conv Sample.healthy
                   (Sample.order_of (JArr [Sample.pizza; Sample.pizza])
                      (Sample.num 600))
                   Sample.placed.2
                 = (Respond 200
                      (JObj [("message", JStr "Order placed successfully");
                             ("orderId", Sample.num 2);
                             ("total", Sample.num 600)]),
                    (placeOrder Sample.conv Sample.healthy
                       (Sample.order_of (JArr [Sample.pizza; Sample.pizza])
                          (Sample.num 600))
                       Sample.placed.2).2))
    by (vm_compute; reflexivity).
  assert (Ho : tables Sample.placed.2 !! "orders"
               = Some (Sample.table_of "orders" Sample.placed.2))
    by (vm_compute; reflexivity).
  assert (Hh : tables Sample.placed.2 !! "cart_history"
               = Some (Sample.table_of "cart_history" Sample.placed.2))
    by (vm_compute; reflexivity).
  assert (Hdo : def (Sample.table_of "orders" Sample.placed.2) = orders_def)
    by (vm_compute; reflexivity).
  assert (Hdh : def (Sample.table_of "cart_history" Sample.placed.2)
                = cart_history_def)
    by (vm_compute; reflexivity).
  assert (Hseq : seq (Sample.table_of "orders" Sample.placed.2) = 1)
    by (vm_compute; reflexivity).
  assert (Hlo : length (rows (Sample.table_of "orders"
                      (placeOrder Sample.conv Sample.healthy
                         (Sample.order_of (JArr [Sample.pizza; Sample.pizza])
                            (Sample.num 600))
                         Sample.placed.2).2)) = 2%nat)
    by (vm_compute; reflexivity).
  assert (Hlh : length (rows (Sample.table_of "cart_history" Sample.placed.2))
                = 1%nat)
    by (vm_compute; reflexivity).
  destruct (placeOrder_rows Sample.conv Sample.healthy _ Sample.placed.2 _ _
              _ _ Hrun Ho Hdo Hh Hdh)
    as (elems & kept & added & total & history' & Hitems & Htotal & Hans
        & Hback & _ & Hh' & _ & Hperm & _ & Hcar & Hall).
  injection Hitems as <-. injection Htotal as <-.
  rewrite Hall in Hcar.
  - exists added, history'.
    split; [by rewrite Hrun|].
    split.
    { rewrite Hseq in Hback. apply Hback; [done|].
      constructor. reflexivity. }
    split; [exact Hlo|]. split; [exact Hh'|]. split; [exact Hperm|].
    split; [exact Hlh|exact Hcar].
  - intros i _. reflexivity.
  - repeat constructor; discriminate.
Defined.

(** C2, as the specification states it, fails.  The same order of one
    well-formed item, on an engine whose statement after the INSERT into
    [orders] fails, is answered 200 with one Order row and no cart-history
    row; and so is, on an engine that never fails, an order whose one item
    has no price.  And the total is not always echoed: an order whose total
    is what [1e999] reads as is answered 200 with a body in which the total
    is [null]. *)
Lemma placeOrder_succeeds_without_history :
  ((placeOrder Sample.conv (Sample.failing_at 4) Sample.pizza_order
      Sample.fresh).1
   = Respond 200
       (JObj [("message", JStr "Order placed successfully");
              ("orderId", JNum (NFin false 1 0));
              ("total", JNum (NFin false 3 2))])
   ∧ length (rows (Sample.table_of "orders"
                     (placeOrder Sample.conv (Sample.failing_at 4)
                        Sample.pizza_order Sample.fresh).2)) = 1%nat
   ∧ rows (Sample.table_of "cart_history"
             (placeOrder Sample.conv (Sample.failing_at 4)
                Sample.pizza_order Sample.fresh).2) = [])
  ∧ ((placeOrder Sample.conv Sample.healthy Sample.unpriced_order
        Sample.fresh).1
     = Respond 200
         (JObj [("message", JStr "Order placed successfully");
                ("orderId", JNum (NFin false 1 0));
                ("total", JNum (NFin false 3 2))])
     ∧ length (rows (Sample.table_of "orders"
                       (placeOrder Sample.conv Sample.healthy
                          Sample.unpriced_order Sample.fresh).2)) = 1%nat
     ∧ rows (Sample.table_of "cart_history"
               (placeOrder Sample.conv Sample.healthy Sample.unpriced_order
                  Sample.fresh).2) = [])
  ∧ ((placeOrder Sample.conv Sample.healthy Sample.infinite_total_order
        Sample.fresh).1
     = Respond 200
         (JObj [("message", JStr "Order placed successfully");
                ("orderId", JNum (NFin false 1 0));
                ("total", JNum (NInf false))])
     ∧ JSON.parse
         (JSON.stringify
            (JObj [("message", JStr "Order placed successfully");
                   ("orderId", JNum (NFin false 1 0));
                   ("total", JNum (NInf false))]))
       = Some (JObj [("message", JStr "Order placed successfully");
                     ("orderId", JNum (NFin false 1 0));
                     ("total", JNull)])).
Proof. repeat split; vm_compute; reflexivity. Qed.

(** * Further properties of the handlers *)

(** ** POST /api/login: storage errors and repeated calls *)

Section LoginErrors.

Context (cv : conversions) (env : environment).




(** What a login may do to the tables: nothing, or the one INSERT into
    [users]. *)
Lemma login_tables b w :
  tables (login cv env b w).2 = tables w
  ∨ ∃ now st id,
      insert_into cv (tables w) now "users"
        [("username", assoc "username" b); ("password", assoc "password" b)]
      = Some (st, id)
      ∧ tables (login cv env b w).2 = st.
Proof.
  unfold login. destruct (_ || _); [by left|]. unfold db_get.
  pose proof (db_all_tables cv env
                (SelectWhere "users" "username" (assoc "username" b) None) w) as Ht.
  destruct (db_all _ _ _ w) as [found w1]. simpl in Ht.
  destruct found as [[|row rs]|]; simpl; try (left; exact Ht).
  unfold db_run. destruct (refused env w1); [left; exact Ht|].
  rewrite Ht.
  destruct (insert_into _ _ _ _ _) as [[st id]|] eqn:Hi; simpl;
    [|by left].
  right. eauto.
Qed.

End LoginErrors.





Section Accounts.

Context (cv : conversions) (env : environment).

Lemma sql_eqb_sym a b : sql_eqb a b = sql_eqb b a.
Proof.
  destruct a, b; simpl; try done.
  - unfold number_eqb. apply andb_comm.
  - apply String.eqb_sym.
Qed.

Lemma existsb_false {A} (f : A → bool) (l : list A) x :
  existsb f l = false → x ∈ l → f x = false.
Proof.
  intros Hf Hx. destruct (f x) eqn:Hfx; [|done].
  rewrite <- Hf. symmetry. apply existsb_exists.
  exists x. split; [by apply list_elem_of_In|done].
Qed.

(** An INSERT into [users] that the engine accepts appends one row, whose
    username no earlier row has. *)
Lemma insert_users_unique (st : gmap string table) t now a st' id :
  st !! "users" = Some t → def t = users_def →
  insert_into cv st now "users" a = Some (st', id) →
  ∃ r, st' = <["users" := Table users_def (seq t + 1) (rows t ++ [r])]> st
       ∧ existsb (λ r', sql_eqb (cell r' 1) (cell r 1)) (rows t) = false.
Proof.
  unfold insert_into. intros Ht Hd H. rewrite Ht in H.
  destruct (known_columns _ _); [|done].
  destruct (constraints_ok _ _ _ _) eqn:Hc; [|done].
  injection H as <- <-. exists (new_row cv t now a). rewrite Hd.
  split; [done|].
  rewrite Hd in Hc. unfold users_def in Hc. cbn [columns constraints_ok] in Hc.
  cbn [col_unique col_not_null negb orb andb] in Hc.
  apply andb_true_iff in Hc as [Hc _].
  apply andb_true_iff in Hc as [_ Hc].
  by apply negb_true_iff in Hc.
Qed.

Lemma distinct_usernames_snoc (rs : list row) r :
  distinct_usernames rs →
  existsb (λ r', sql_eqb (cell r' 1) (cell r 1)) rs = false →
  distinct_usernames (rs ++ [r]).
Proof.
  intros Hd He i j ri rj Hi Hj Hij.
  assert (Hold : ∀ k rk, (rs ++ [r]) !! k = Some rk →
            ((k < length rs)%nat ∧ rs !! k = Some rk)
            ∨ (k = length rs ∧ rk = r)).
  { intros k rk Hk. apply lookup_app_Some in Hk as [Hk|[Hge Hk]].
    - left. split; [by eapply lookup_lt_Some|done].
    - right. apply list_lookup_singleton_Some in Hk as [Hk ->].
      split; [lia|done]. }
  destruct (Hold _ _ Hi) as [[Hli Hi']|[-> ->]],
           (Hold _ _ Hj) as [[Hlj Hj']|[-> ->]].
  - by eapply Hd.
  - apply (existsb_false _ _ ri He). by eapply list_elem_of_lookup_2.
  - rewrite sql_eqb_sym.
    apply (existsb_false _ _ rj He). by eapply list_elem_of_lookup_2.
  - done.
Qed.

(** POST /api/order writes to [orders] and [cart_history] only. *)
Lemma placeOrder_other b w name :
  name ≠ "orders" → name ≠ "cart_history" →
  tables (placeOrder cv env b w).2 !! name = tables w !! name.
Proof.
  intros Ho Hh. unfold placeOrder.
  destruct (_ || _); [done|].
  unfold db_run. destruct (refused env w); [done|].
  destruct (insert_into _ _ _ _ _) as [[st1 id]|] eqn:Hins; [|done].
  pose proof (insert_into_other cv _ _ _ _ _ _ name Hins Ho) as H1.
  destruct (assoc "items" b) as [[| | | |elems|]|]; try exact H1.
  match goal with
  | |- context [forEach_item _ _ ?u ?e ?w0] =>
      pose proof (forEach_item_other cv env u e name w0 Hh) as H2
  end.
  destruct (forEach_item _ _ _ _ _) as [[|] w2]; simpl in *; by rewrite H2.
Qed.

End Accounts.

(** X3.  UNIQUE on [users.username] is an invariant of the server: when no
    two rows of the [users] table of the source have the same username, no
    request of any route, whatever its outcome, leaves the table with two
    such rows, and the table keeps its definition. *)
Theorem usernames_stay_distinct (cv : conversions) (env : environment)
    (r : request) (w : world) (t : table) :
  tables w !! "users" = Some t → def t = users_def →
  distinct_usernames (rows t) →
  ∃ t', tables (handle cv env r w).2 !! "users" = Some t'
        ∧ def t' = users_def ∧ distinct_usernames (rows t').
Proof.
  intros Ht Hd Hdist.
  assert (Hsame : ∀ st : gmap string table, st !! "users" = tables w !! "users" →
            ∃ t', st !! "users" = Some t'
                  ∧ def t' = users_def ∧ distinct_usernames (rows t')).
  { intros st ->. eauto. }
  destruct r as [b|b|u|u| | | |]; simpl.
  - destruct (login_tables cv env b w) as [->|(now & st & id & Hins & ->)];
      [by apply Hsame|].
    destruct (insert_users_unique cv _ _ _ _ _ _ Ht Hd Hins) as (r & -> & He).
    eexists. rewrite lookup_insert_eq. split; [done|]. split; [done|].
    by apply distinct_usernames_snoc.
  - apply Hsame. by apply placeOrder_other.
  - apply Hsame. unfold listOrders. by rewrite list_by_user_tables.
  - apply Hsame. unfold listCartHistory. by rewrite list_by_user_tables.
  - apply Hsame. by rewrite admin_tables.
  - apply Hsame. by rewrite admin_details_tables.
  - by apply Hsame.
  - by apply Hsame.
Qed.

Lemma usernames_stay_distinct_witness :
  ∃ t',
    tables (handle Sample.conv Sample.healthy
              (PostLogin [("username", JStr "bob"); ("password", JStr "y")])
              Sample.registered).2 !! "users" = Some t'
    ∧ def t' = users_def ∧ distinct_usernames (rows t').
Proof.
  apply (usernames_stay_distinct Sample.conv Sample.healthy _ Sample.registered
           (Sample.table_of "users" Sample.registered)).
  - vm_compute. reflexivity.
  - vm_compute. reflexivity.
  - assert (Hlen : length (rows (Sample.table_of "users" Sample.registered))
                   = 1%nat) by (vm_compute; reflexivity).
    intros i j ri rj Hi Hj Hij.
    apply lookup_lt_Some in Hi, Hj. lia.
Defined.

(** ** POST /api/order and the [users] table *)

Section ForeignKey.

Context (cv : conversions) (env : environment).

Lemma insert_into_frame (st : gmap string table) now name a t :
  name ≠ "users" →
  insert_into cv (<["users" := t]> st) now name a
  = prod_map (insert "users" t) id <$> insert_into cv st now name a.
Proof.
  intros Hne. unfold insert_into. rewrite lookup_insert_ne by done.
  destruct (st !! name) as [t0|]; [|done].
  destruct (known_columns _ _); [|done].
  destruct (constraints_ok _ _ _ _); [|done].
  simpl. unfold prod_map. simpl. by rewrite insert_insert_ne.
Qed.

Lemma db_run_frame name a t w :
  name ≠ "users" →
  db_run cv env (InsertInto name a) (with_users t w)
  = ((db_run cv env (InsertInto name a) w).1,
     with_users t (db_run cv env (InsertInto name a) w).2).
Proof.
  intros Hne. unfold db_run, refused, with_users. simpl.
  destruct (open_failed env || io_error env (length (journal w))); [done|].
  rewrite insert_into_frame by done.
  by destruct (insert_into _ _ _ _ _) as [[st id]|].
Qed.

Lemma forEach_item_frame username elems t : ∀ w,
  forEach_item cv env username elems (with_users t w)
  = ((forEach_item cv env username elems w).1,
     with_users t (forEach_item cv env username elems w).2).
Proof.
  induction elems as [|item elems IH]; intros w; simpl; [done|].
  destruct (history_insert username item) as [c|] eqn:Hc; [|done].
  apply history_insert_fields in Hc. subst c.
  rewrite db_run_frame by done. simpl. apply IH.
Qed.

End ForeignKey.

(** X4.  The FOREIGN KEY of [orders] and [cart_history] on
    [users.username] is never checked: POST /api/order gives the same
    answer, issues the same statements and writes the same rows whatever
    the [users] table holds, and leaves that table as it is.  An order in
    the name of a user who never logged in is stored like any other. *)
Theorem placeOrder_ignores_users (cv : conversions) (env : environment)
    (b : body) (t : table) (w : world) :
  placeOrder cv env b (with_users t w)
  = ((placeOrder cv env b w).1, with_users t (placeOrder cv env b w).2).
Proof.
  unfold placeOrder.
  destruct (_ || _); [done|].
  rewrite db_run_frame by done.
  destruct (db_run cv env _ w) as [[lastID|] w1]; simpl; [|done].
  destruct (assoc "items" b) as [[| | | |elems|]|]; try done.
  rewrite forEach_item_frame.
  by destruct (forEach_item cv env _ elems w1) as [[|] w2].
Qed.

(** ** Logging in again *)

Section LoginAgain.

Context (cv : conversions) (env : environment).

Hypothesis opened : open_failed env = false.




End LoginAgain.



(** ** Storage errors of the read routes *)

Section ReadErrors.

Context (cv : conversions) (env : environment).


Lemma mapM_count_row (st : gmap string table) names :
  is_Some (mapM (count_row st) names)
  ↔ Forall (λ name, is_Some (st !! name)) names.
Proof.
  rewrite mapM_is_Some. apply Forall_iff. intros name.
  unfold count_row. simpl. destruct (st !! name); simpl; [|done].
  split; eauto.
Qed.

End ReadErrors.



(** X7.  On a database that opened, GET /admin answers 500 with the text
    "Database error: " followed by the engine's message exactly when the
    statement hits an input/output error or one of the three tables is
    missing; otherwise it goes on to render the three counts, each the
    number of rows of its table, in the order users, orders, cart_history.
    Either way no table changes. *)
Theorem admin_counts (cv : conversions) (env : environment) (w : world) :
  open_failed env = false →
  ((admin cv env w).1 = SendText 500 "Database error: "
   ↔ io_error env (length (journal w)) = true
     ∨ ¬ Forall (λ name, is_Some (tables w !! name))
           ["users"; "orders"; "cart_history"])
  ∧ (∀ users orders history,
       refused env w = false →
       tables w !! "users" = Some users →
       tables w !! "orders" = Some orders →
       tables w !! "cart_history" = Some history →
       (admin cv env w).1
       = Render
           [Some
              [JObj [("table_name", JStr "users");
                     ("count",
                      JNum (number_of_Z (Z.of_nat (length (rows users)))))];
               JObj [("table_name", JStr "orders");
                     ("count",
                      JNum (number_of_Z (Z.of_nat (length (rows orders)))))];
               JObj [("table_name", JStr "cart_history");
                     ("count",
                      JNum (number_of_Z (Z.of_nat (length (rows history)))))]]])
  ∧ tables (admin cv env w).2 = tables w.
Proof.
  intros Hopen. split; [|split].
  - unfold admin, db_all, refused. rewrite Hopen. cbn [orb].
    destruct (io_error env (length (journal w))).
    + split; [by left|done].
    + pose proof (mapM_count_row (tables w) ["users"; "orders"; "cart_history"])
        as Hm.
      cbn [answer tables].
      destruct (mapM _ _) as [counts|]; cbn [fst].
      * split; [done|]. intros [?|Hn]; [done|]. destruct Hn. by apply Hm.
      * split; [|done]. intros _. right. intros Hall. apply Hm in Hall.
        by destruct Hall.
  - intros users orders history Href Hu Ho Hh.
    unfold admin, db_all. rewrite Href. simpl. unfold count_row.
    by rewrite Hu, Ho, Hh.
  - apply admin_tables.
Qed.

Lemma admin_counts_witness :
  (admin Sample.conv Sample.healthy Sample.busy).1
  = Render
      [Some
         [JObj [("table_name", JStr "users"); ("count", Sample.num 1)];
          JObj [("table_name", JStr "orders"); ("count", Sample.num 3)];
          JObj [("table_name", JStr "cart_history"); ("count", Sample.num 4)]]]
  ∧ (admin Sample.conv Sample.healthy Sample.empty_world).1
    = SendText 500 "Database error: ".
Proof.
  split.
  - destruct (admin_counts Sample.conv Sample.healthy Sample.busy eq_refl)
      as (_ & Hcounts & _).
    rewrite (Hcounts (Sample.table_of "users" Sample.busy)
               (Sample.table_of "orders" Sample.busy)
               (Sample.table_of "cart_history" Sample.busy));
      vm_compute; reflexivity.
  - apply (admin_counts Sample.conv Sample.healthy Sample.empty_world
             eq_refl).
    right. intros Hall. apply Forall_cons in Hall as [[t Ht] _].
    vm_compute in Ht. discriminate.
Defined.

(** ** Start-up *)

(** X9.  Start-up on an engine that opens and serves the three CREATE
    TABLE statements: each of [users], [orders] and [cart_history] that
    is missing is created empty with the definition of the source, each
    table that exists keeps its definition, counter and rows, and no other
    name is touched. *)
Theorem initialize_creates (cv : conversions) (env : environment) (w : world) :
  open_failed env = false →
  (∀ n, io_error env n = false) →
  (∀ name d, (name, d) ∈ schema → tables w !! name = None →
     tables (initialize cv env w).2 !! name = Some (Table d 0 []))
  ∧ (∀ name t, tables w !! name = Some t →
       tables (initialize cv env w).2 !! name = Some t)
  ∧ (∀ name, name ∉ schema.*1 →
       tables (initialize cv env w).2 !! name = tables w !! name).
Proof.
  intros Hopen Hio. rewrite (initialize_unfold cv env Hopen Hio w). simpl.
  assert (Hstep : ∀ (st : gmap string table) name d name',
            create_table_if_not_exists st name d !! name'
            = match st !! name' with
              | Some t => Some t
              | None => if decide (name' = name) then Some (Table d 0 [])
                        else None
              end).
  { intros st name d name'. unfold create_table_if_not_exists.
    destruct (decide (name' = name)) as [->|Hne].
    - destruct (st !! name) eqn:Hl; [by rewrite Hl|].
      by rewrite lookup_insert_eq.
    - destruct (st !! name) eqn:Hl.
      + by destruct (st !! name').
      + rewrite lookup_insert_ne by done. by destruct (st !! name'). }
  split; [|split].
  - intros name d Hin Hnone. rewrite !Hstep, Hnone.
    unfold schema in Hin.
    repeat (apply elem_of_cons in Hin as [Hin|Hin];
            [injection Hin as -> ->; done|]).
    by apply elem_of_nil in Hin.
  - intros name t Hsome. by rewrite !Hstep, Hsome.
  - intros name Hout. rewrite !Hstep. destruct (tables w !! name); [done|].
    simpl in Hout.
    repeat (destruct (decide _) as [->|_];
            [exfalso; apply Hout; set_solver|]).
    done.
Qed.

Lemma initialize_creates_witness :
  tables (initialize Sample.conv Sample.healthy Sample.empty_world).2 !! "orders"
  = Some (Table orders_def 0 [])
  ∧ tables (initialize Sample.conv Sample.healthy Sample.registered).2 !! "users"
    = Some (Sample.table_of "users" Sample.registered).
Proof.
  split.
  - destruct (initialize_creates Sample.conv Sample.healthy Sample.empty_world
                eq_refl (λ _, eq_refl)) as (Hnew & _ & _).
    apply Hnew; [|reflexivity].
    apply list_elem_of_further, list_elem_of_here.
  - destruct (initialize_creates Sample.conv Sample.healthy Sample.registered
                eq_refl (λ _, eq_refl)) as (_ & Hold & _).
    apply Hold. vm_compute. reflexivity.
Defined.

(** ** POST /api/order: what every call leaves in the tables *)

Section OrderOutcomes.

Context (cv : conversions) (env : environment).

Local Arguments coerce : simpl never.
Local Arguments bind : simpl never.

Lemma history_insert_throws username item :
  history_insert username item = None ↔ item = JNull.
Proof. unfold history_insert. by destruct item. Qed.

(** The loop runs to its end unless an element of the array is [null]. *)
Lemma forEach_item_finished username elems : ∀ w,
  (forEach_item cv env username elems w).1 = true ↔ JNull ∉ elems.
Proof.
  induction elems as [|item elems IH]; intros w; simpl.
  - split; [intros _; apply not_elem_of_nil|done].
  - destruct (history_insert username item) as [c|] eqn:Hc.
    + rewrite IH, not_elem_of_cons.
      assert (item ≠ JNull).
      { intros ->. by rewrite (proj2 (history_insert_throws username JNull)) in Hc. }
      split; [by intros ?; split|by intros [_ ?]].
    + apply history_insert_throws in Hc as ->. simpl.
      split; [done|]. intros Hn. destruct Hn. apply list_elem_of_here.
Qed.

(** Whatever the loop's end, it appends rows of the given username to
    [cart_history], at most one per element. *)
Lemma forEach_item_appends username elems : ∀ w h,
  tables w !! "cart_history" = Some h → def h = cart_history_def →
  ∃ added,
    tables (forEach_item cv env username elems w).2
    = <["cart_history" :=
          Table cart_history_def (seq h + Z.of_nat (length added))
            (rows h ++ added)]> (tables w)
    ∧ Forall (λ r, r !! 1%nat = Some (stored cv TextAffinity username)) added
    ∧ (length added ≤ length elems)%nat.
Proof.
  induction elems as [|item elems IH]; intros w h Hh Hd; simpl.
  - exists []. split; [|split; [constructor|done]].
    simpl. rewrite Z.add_0_r, app_nil_r. symmetry. apply insert_id.
    rewrite Hh. f_equal. destruct h; simpl in *; congruence.
  - destruct (history_insert username item) as [c|] eqn:Hc.
    + apply history_insert_fields in Hc.
      fold (history_command username item) in Hc. subst c.
      destruct (db_run_history cv env w h username item Hh Hd) as [Hstep _].
      destruct Hstep as [Hsame|(r & Hr & Hnew)].
      * destruct (IH (db_run cv env (history_command username item) w).2 h
                    ltac:(by rewrite Hsame) Hd) as (added & Htab & Hall & Hlen).
        exists added. rewrite Htab, Hsame. split; [done|]. split; [done|lia].
      * set (h1 := Table cart_history_def (seq h + 1) (rows h ++ [r])) in *.
        destruct (IH (db_run cv env (history_command username item) w).2 h1
                    ltac:(by rewrite Hnew, lookup_insert_eq) eq_refl)
          as (added & Htab & Hall & Hlen).
        exists (r :: added). split; [|split].
        -- rewrite Htab, Hnew, insert_insert_eq. unfold h1. simpl.
           rewrite <- app_assoc. simpl. do 2 f_equal. lia.
        -- constructor; [|done]. by destruct Hr as [? _].
        -- simpl. lia.
    + exists []. split; [|split; [constructor|simpl; lia]].
      simpl. rewrite Z.add_0_r, app_nil_r. symmetry. apply insert_id.
      rewrite Hh. f_equal. destruct h; simpl in *; congruence.
Qed.

(** A call that answers 200, taken apart. *)
Lemma placeOrder_answered b w w' answer :
  placeOrder cv env b w = (Respond 200 answer, w') →
  ∃ elems total st1 id,
    assoc "items" b = Some (JArr elems)
    ∧ assoc "total" b = Some total
    ∧ refused env w = false
    ∧ insert_into cv (tables w) (current_timestamp env (length (journal w)))
        "orders"
        [("username", assoc "username" b);
         ("items", JStr <$> (JSON.stringify <$> assoc "items" b));
         ("total", assoc "total" b)] = Some (st1, id)
    ∧ forEach_item cv env (assoc "username" b) elems
        (World st1 (journal w ++ [Run (order_insert b)])) = (true, w')
    ∧ answer = JObj [("message", JStr "Order placed successfully");
                     ("orderId", JNum (number_of_Z id)); ("total", total)].
Proof.
  intros Hrun. unfold placeOrder in Hrun.
  destruct (negb (truthy (assoc "username" b)) || negb (truthy (assoc "items" b))
            || negb (truthy (assoc "total" b))) eqn:Hvalid;
    [unfold json_response in Hrun; simpl in Hrun; congruence|].
  apply orb_false_iff in Hvalid as [Hvalid Ht].
  apply negb_false_iff in Ht.
  destruct (assoc "total" b) as [total|] eqn:Htotal; [|done].
  unfold db_run in Hrun.
  destruct (refused env w) eqn:Href;
    [unfold json_response in Hrun; simpl in Hrun; congruence|].
  destruct (insert_into _ _ _ _ _) as [[st1 id]|] eqn:Hins;
    [|unfold json_response in Hrun; simpl in Hrun; congruence].
  destruct (assoc "items" b) as [[|?|?|?|elems|?]|] eqn:Hitems;
    try (simpl in Hrun; congruence).
  unfold issue in Hrun.
  destruct (forEach_item _ _ _ _ _) as [[|] w2] eqn:Hloop;
    [|simpl in Hrun; congruence].
  unfold json_response in Hrun. simpl in Hrun. injection Hrun as <- <-.
  exists elems, total, st1, id. unfold order_insert.
  rewrite Hitems, Htotal. by repeat split.
Qed.

(** The tables after any call, whatever its outcome. *)
Lemma placeOrder_orders_any b w orders :
  tables w !! "orders" = Some orders → def orders = orders_def →
  tables (placeOrder cv env b w).2 !! "orders" = Some orders
  ∨ tables (placeOrder cv env b w).2 !! "orders"
    = Some (Table orders_def (seq orders + 1)
              (rows orders
               ++ [order_row cv (seq orders + 1)
                     (current_timestamp env (length (journal w))) b])).
Proof.
  intros Ho Hdo. unfold placeOrder.
  destruct (negb (truthy (assoc "username" b)) || negb (truthy (assoc "items" b))
            || negb (truthy (assoc "total" b))) eqn:Hvalid; [by left|].
  apply orb_false_iff in Hvalid as [Hvalid _].
  apply orb_false_iff in Hvalid as [_ Hi]. apply negb_false_iff in Hi.
  destruct (assoc "items" b) as [items|] eqn:Hitems; [|done].
  unfold db_run. destruct (refused env w); [by left|].
  destruct (insert_into _ _ _ _ _) as [[st1 id]|] eqn:Hins; [|by left].
  rewrite <- Hitems in Hins.
  destruct (insert_order cv _ _ _ b _ _ Ho Hdo ltac:(by rewrite Hitems) Hins)
    as (-> & -> & _).
  right.
  destruct items as [|?|?|?|elems|?];
    try (simpl; by rewrite lookup_insert_eq).
  match goal with
  | |- context [forEach_item _ _ ?u ?e ?w0] =>
      pose proof (forEach_item_other cv env u e "orders" w0 ltac:(done)) as H2
  end.
  destruct (forEach_item _ _ _ _ _) as [[|] w2]; simpl in *;
    by rewrite H2, lookup_insert_eq.
Qed.

Lemma placeOrder_history_any b w h :
  tables w !! "cart_history" = Some h → def h = cart_history_def →
  ∃ added,
    tables (placeOrder cv env b w).2 !! "cart_history"
    = Some (Table cart_history_def (seq h + Z.of_nat (length added))
              (rows h ++ added))
    ∧ Forall (λ r, r !! 1%nat
                   = Some (stored cv TextAffinity (assoc "username" b))) added.
Proof.
  intros Hh Hd.
  assert (Hnone : ∀ st : gmap string table, st !! "cart_history" = Some h →
            ∃ added,
              st !! "cart_history"
              = Some (Table cart_history_def (seq h + Z.of_nat (length added))
                        (rows h ++ added))
              ∧ Forall (λ r, r !! 1%nat
                             = Some (stored cv TextAffinity
                                       (assoc "username" b))) added).
  { intros st Hst. exists []. split; [|constructor].
    simpl. rewrite Z.add_0_r, app_nil_r, Hst. f_equal.
    destruct h; simpl in *; congruence. }
  unfold placeOrder. destruct (_ || _); [by apply Hnone|].
  unfold db_run. destruct (refused env w); [by apply Hnone|].
  destruct (insert_into _ _ _ _ _) as [[st1 id]|] eqn:Hins; [|by apply Hnone].
  pose proof (insert_into_other cv _ _ _ _ _ _ "cart_history" Hins
                ltac:(done)) as H1.
  rewrite Hh in H1.
  destruct (assoc "items" b) as [[| | | |elems|]|]; try (by apply Hnone).
  match goal with
  | |- context [forEach_item _ _ ?u ?e ?w0] =>
      destruct (forEach_item_appends u e w0 h H1 Hd) as (added & Htab & Hall & _)
  end.
  exists added.
  destruct (forEach_item _ _ _ _ _) as [[|] w2]; simpl in *;
    by rewrite Htab, lookup_insert_eq.
Qed.

End OrderOutcomes.

Section OrderCrash.

Context (cv : conversions) (env : environment).

Lemma forEach_item_throws username elems : ∀ w,
  (forEach_item cv env username elems w).1 = false ↔ JNull ∈ elems.
Proof.
  induction elems as [|item elems IH]; intros w; simpl.
  - split; [done|]. intros H. by apply elem_of_nil in H.
  - destruct (history_insert username item) as [c|] eqn:Hc.
    + rewrite IH, elem_of_cons.
      assert (JNull ≠ item).
      { intros <-. by rewrite (proj2 (history_insert_throws username JNull)) in Hc. }
      split; [by right|by intros [?|?]].
    + apply history_insert_throws in Hc as ->. simpl.
      split; [intros _; apply list_elem_of_here|done].
Qed.

(** Once validation has passed and the INSERT into [orders] has run, the
    Order row stays, whatever happens next. *)
Lemma placeOrder_orders_row b w orders :
  truthy (assoc "username" b) && truthy (assoc "items" b)
    && truthy (assoc "total" b) = true →
  is_Some (db_run cv env (order_insert b) w).1 →
  tables w !! "orders" = Some orders → def orders = orders_def →
  tables (placeOrder cv env b w).2 !! "orders"
  = Some (Table orders_def (seq orders + 1)
            (rows orders
             ++ [order_row cv (seq orders + 1)
                   (current_timestamp env (length (journal w))) b])).
Proof.
  intros Hpass Hrun Ho Hdo. unfold placeOrder.
  apply andb_true_iff in Hpass as [Hpass Ht].
  apply andb_true_iff in Hpass as [Hu Hi].
  rewrite Hu, Hi, Ht. simpl.
  destruct (assoc "items" b) as [items|] eqn:Hitems; [|done].
  unfold order_insert in Hrun. rewrite Hitems in Hrun.
  unfold db_run in *. destruct (refused env w); [by destruct Hrun|].
  destruct (insert_into _ _ _ _ _) as [[st1 id]|] eqn:Hins;
    [|by destruct Hrun].
  rewrite <- Hitems in Hins.
  destruct (insert_order cv _ _ _ b _ _ Ho Hdo ltac:(by rewrite Hitems) Hins)
    as (-> & -> & _).
  destruct items as [|?|?|?|elems|?];
    try (simpl; by rewrite lookup_insert_eq).
  match goal with
  | |- context [forEach_item _ _ ?u ?e ?w0] =>
      pose proof (forEach_item_other cv env u e "orders" w0 ltac:(done)) as H2
  end.
  destruct (forEach_item _ _ _ _ _) as [[|] w2]; simpl in *;
    by rewrite H2, lookup_insert_eq.
Qed.

Lemma placeOrder_throws b w :
  (placeOrder cv env b w).1 = Uncaught
  ↔ truthy (assoc "username" b) && truthy (assoc "items" b)
      && truthy (assoc "total" b) = true
    ∧ is_Some (db_run cv env (order_insert b) w).1
    ∧ ∀ elems, assoc "items" b = Some (JArr elems) → JNull ∈ elems.
Proof.
  unfold placeOrder, order_insert.
  destruct (truthy (assoc "username" b)); simpl; [|split; [done|by intros [? _]]].
  destruct (truthy (assoc "items" b)); simpl; [|split; [done|by intros [? _]]].
  destruct (truthy (assoc "total" b)); simpl; [|split; [done|by intros [? _]]].
  destruct (db_run cv env _ w) as [[lastID|] w1]; simpl;
    [|split; [done|by intros (_ & [? ?] & _)]].
  destruct (assoc "items" b) as [[|?|?|?|elems|?]|];
    try (split; [intros _; split; [done|split; [by eexists|done]]|done]).
  pose proof (forEach_item_throws (assoc "username" b) elems w1) as Hloop.
  destruct (forEach_item _ _ _ _ _) as [[|] w2]; simpl in *.
  - split; [done|]. intros (_ & _ & Hnull).
    specialize (Hnull elems eq_refl). by apply Hloop in Hnull.
  - split; [|done]. intros _. split; [done|]. split; [by eexists|].
    intros ? [= <-]. by apply Hloop.
Qed.

End OrderCrash.

(** X10.  POST /api/order throws out of its callback, so that no response
    is sent, exactly when validation passes, the INSERT into [orders]
    succeeds and [items] is not an array without a [null] element (it is a
    string, a number, [true], an object, or an array with a [null] in it).
    The Order row written before the throw stays in the table. *)
Theorem placeOrder_uncaught (cv : conversions) (env : environment)
    (b : body) (w : world) :
  ((placeOrder cv env b w).1 = Uncaught
   ↔ truthy (assoc "username" b) && truthy (assoc "items" b)
       && truthy (assoc "total" b) = true
     ∧ is_Some (db_run cv env (order_insert b) w).1
     ∧ ∀ elems, assoc "items" b = Some (JArr elems) → JNull ∈ elems)
  ∧ (∀ orders,
       (placeOrder cv env b w).1 = Uncaught →
       tables w !! "orders" = Some orders → def orders = orders_def →
       tables (placeOrder cv env b w).2 !! "orders"
       = Some (Table orders_def (seq orders + 1)
                 (rows orders
                  ++ [order_row cv (seq orders + 1)
                        (current_timestamp env (length (journal w))) b]))).
Proof.
  split; [apply placeOrder_throws|].
  intros orders Hthrow Ho Hdo.
  apply placeOrder_throws in Hthrow as (Hpass & Hrun & _).
  by apply placeOrder_orders_row.
Qed.

Lemma placeOrder_uncaught_witness :
  (placeOrder Sample.conv Sample.healthy
     (Sample.order_of (JStr "pizza") (Sample.num 300)) Sample.fresh).1
  = Uncaught
  ∧ tables (placeOrder Sample.conv Sample.healthy
              (Sample.order_of (JStr "pizza") (Sample.num 300))
              Sample.fresh).2 !! "orders"
    = Some (Table orders_def (0 + 1)
              ([] ++ [order_row Sample.conv (0 + 1)
                        (current_timestamp Sample.healthy
                           (length (journal Sample.fresh)))
                        (Sample.order_of (JStr "pizza") (Sample.num 300))])).
Proof.
  assert (Hthrow :
            (placeOrder Sample.conv Sample.healthy
               (Sample.order_of (JStr "pizza") (Sample.num 300))
               Sample.fresh).1 = Uncaught).
  { apply (proj1 (placeOrder_uncaught Sample.conv Sample.healthy
                    (Sample.order_of (JStr "pizza") (Sample.num 300))
                    Sample.fresh)).
    split; [reflexivity|]. split; [vm_compute; eauto|].
    intros elems H. discriminate H. }
  split; [exact Hthrow|].
  apply (proj2 (placeOrder_uncaught Sample.conv Sample.healthy
                  (Sample.order_of (JStr "pizza") (Sample.num 300))
                  Sample.fresh) (Table orders_def 0 []) Hthrow);
    vm_compute; reflexivity.
Defined.

(** ** From POST /api/order to the listings *)

Section OrderListings.

Context (cv : conversions) (env : environment).

(** The answer of a listing that is served, row for row. *)
Lemma list_by_user_exact name key d k U w t :
  refused env w = false →
  tables w !! name = Some t → def t = d →
  column_index "username" (columns d) = Some 1%nat →
  (∃ c, columns d !! 1%nat = Some c ∧ col_type c = TEXT) →
  column_index key (columns d) = Some k →
  (list_by_user cv env name key U w).1
  = Respond 200
      (JArr (map (row_object d)
               (merge_sort (desc_by k)
                  (filter (λ r, cell r 1 = SqlText U) (rows t))))).
Proof.
  intros Href Ht Hd Hu (c & Hc & Hty) Hk.
  unfold list_by_user, db_all. rewrite Href. simpl.
  unfold select_where. rewrite Ht. simpl. rewrite Hd, Hu. simpl.
  rewrite Hc. simpl. rewrite Hty, Hk. simpl.
  by rewrite filter_by_username.
Qed.

Lemma listOrders_exact U w t :
  refused env w = false →
  tables w !! "orders" = Some t → def t = orders_def →
  (listOrders cv env U w).1
  = Respond 200
      (JArr (map (row_object orders_def)
               (merge_sort (desc_by 4)
                  (filter (λ r, cell r 1 = SqlText U) (rows t))))).
Proof.
  intros Href Ht Hd.
  apply (list_by_user_exact "orders" "order_date" orders_def 4 U w t);
    try done.
  eexists. split; [reflexivity|done].
Qed.

Lemma listCartHistory_exact U w t :
  refused env w = false →
  tables w !! "cart_history" = Some t → def t = cart_history_def →
  (listCartHistory cv env U w).1
  = Respond 200
      (JArr (map (row_object cart_history_def)
               (merge_sort (desc_by 6)
                  (filter (λ r, cell r 1 = SqlText U) (rows t))))).
Proof.
  intros Href Ht Hd.
  apply (list_by_user_exact "cart_history" "added_date" cart_history_def 6
           U w t); try done.
  eexists. split; [reflexivity|done].
Qed.

Lemma stored_username U : stored cv TextAffinity (Some (JStr U)) = SqlText U.
Proof. reflexivity. Qed.

Lemma cell_lookup (r : row) i v : r !! i = Some v → cell r i = v.
Proof. unfold cell. by intros ->. Qed.

(** Rows of another username do not show in a filter. *)
Lemma filter_other_username (rs added : list row) U V :
  U ≠ V →
  Forall (λ r, r !! 1%nat = Some (SqlText V)) added →
  filter (λ r, cell r 1 = SqlText U) (rs ++ added)
  = filter (λ r, cell r 1 = SqlText U) rs.
Proof.
  intros Hne Hall. rewrite filter_app.
  rewrite <- (app_nil_r (filter _ rs)) at 2. f_equal.
  induction Hall as [|r added Hr Hall IH]; [done|].
  rewrite filter_cons_False; [done|].
  apply cell_lookup in Hr. congruence.
Qed.

Lemma filter_own_username (rs added : list row) U :
  Forall (λ r, r !! 1%nat = Some (SqlText U)) added →
  filter (λ r, cell r 1 = SqlText U) (rs ++ added)
  = filter (λ r, cell r 1 = SqlText U) rs ++ added.
Proof.
  intros Hall. rewrite filter_app. f_equal.
  induction Hall as [|r added Hr Hall IH]; [done|].
  rewrite filter_cons_True by (by apply cell_lookup). by f_equal.
Qed.

End OrderListings.

(** X11.  An order that POST /api/order answers with 200 is in the listing
    of its user from then on: GET /api/orders/U, served on the store the
    call left, answers 200 with an array that holds the order's row (the
    [orderId] of the answer as [id], the username, [items] as the text
    JSON.stringify made of the request's array, the stored total and the
    order date) and has one entry more than the user had orders before. *)
Theorem placed_order_is_listed (cv : conversions) (env : environment)
    (b : body) (w w' : world) (answer : json) (orders : table) (U : string) :
  placeOrder cv env b w = (Respond 200 answer, w') →
  tables w !! "orders" = Some orders → def orders = orders_def →
  assoc "username" b = Some (JStr U) →
  io_error env (length (journal w')) = false →
  ∃ (elems : list json) (total : json) (rs : list json),
    assoc "items" b = Some (JArr elems)
    ∧ assoc "total" b = Some total
    ∧ answer = JObj [("message", JStr "Order placed successfully");
                     ("orderId", JNum (number_of_Z (seq orders + 1)));
                     ("total", total)]
    ∧ (listOrders cv env U w').1 = Respond 200 (JArr rs)
    ∧ JObj [("id", JNum (number_of_Z (seq orders + 1)));
            ("username", JStr U);
            ("items", JStr (JSON.stringify (JArr elems)));
            ("total", json_of_sqlval (stored cv NumericAffinity (Some total)));
            ("order_date",
             JStr (current_timestamp env (length (journal w))))] ∈ rs
    ∧ length rs
      = S (length (filter (λ r, cell r 1 = SqlText U) (rows orders))).
Proof.
  intros Hrun Ho Hdo Hu Hio.
  destruct (placeOrder_answered cv env b w w' answer Hrun)
    as (elems & total & st1 & id & Hitems & Htotal & Href & Hins & _ & ->).
  destruct (insert_order cv _ _ _ b _ _ Ho Hdo ltac:(by rewrite Hitems) Hins)
    as (_ & -> & _).
  destruct (placeOrder_order_row cv env b w w' _ orders Hrun Ho Hdo)
    as (items & _ & Ho').
  assert (Href' : refused env w' = false).
  { unfold refused in *. apply orb_false_iff in Href as [-> _]. by rewrite Hio. }
  exists elems, total. eexists.
  split; [done|]. split; [done|]. split; [done|].
  split; [exact (listOrders_exact cv env U w' _ Href' Ho' eq_refl)|].
  simpl rows.
  rewrite (filter_own_username _ [_] U)
    by (constructor; [simpl; by rewrite Hu|constructor]).
  split.
  - apply list_elem_of_fmap. eexists. split; [|rewrite merge_sort_Permutation;
      apply elem_of_app; right; apply list_elem_of_here].
    unfold row_object, order_row, cell. simpl. by rewrite Hu, Hitems, Htotal.
  - rewrite length_fmap, merge_sort_Permutation, length_app. simpl. lia.
Qed.

Lemma placed_order_is_listed_witness :
  ∃ rs,
    (listOrders Sample.conv Sample.healthy "alice" Sample.placed.2).1
    = Respond 200 (JArr rs)
    ∧ JObj [("id", JNum (number_of_Z (0 + 1))); ("username", JStr "alice");
            ("items", JStr (JSON.stringify (JArr [Sample.pizza])));
            ("total",
             json_of_sqlval
               (stored Sample.conv NumericAffinity (Some (Sample.num 300))));
            ("order_date",
             JStr (current_timestamp Sample.healthy
                     (length (journal Sample.fresh))))] ∈ rs
    ∧ length rs = 1%nat.
Proof.
  assert (Hrun : placeOrder Sample.conv Sample.healthy Sample.pizza_order
                   Sample.fresh
                 = (Respond 200
                      (JObj [("message", JStr "Order placed successfully");
                             ("orderId", JNum (NFin false 1 0));
                             ("total", JNum (NFin false 3 2))]),
                    Sample.placed.2))
    by (vm_compute; reflexivity).
  destruct (placed_order_is_listed Sample.conv Sample.healthy
              Sample.pizza_order Sample.fresh Sample.placed.2 _
              (Table orders_def 0 []) "alice" Hrun)
    as (elems & total & rs & Hitems & Htotal & _ & Hlist & Hin & Hlen);
    try (vm_compute; reflexivity).
  injection Hitems as <-. injection Htotal as <-.
  exists rs. split; [exact Hlist|]. split; [exact Hin|exact Hlen].
Defined.



(** X13.  An order placed in the name of one user, whatever its outcome,
    does not change what the two listings answer for any other user: for
    string usernames U and V that differ, GET /api/orders/U and
    GET /api/cart-history/U, when served, answer after POST /api/order for
    V exactly what they answered before. *)
Theorem orders_of_other_users (cv : conversions) (env : environment)
    (b : body) (w : world) (U V : string) (orders history : table) :
  assoc "username" b = Some (JStr V) → U ≠ V →
  tables w !! "orders" = Some orders → def orders = orders_def →
  tables w !! "cart_history" = Some history →
  def history = cart_history_def →
  refused env w = false →
  refused env (placeOrder cv env b w).2 = false →
  (listOrders cv env U (placeOrder cv env b w).2).1
  = (listOrders cv env U w).1
  ∧ (listCartHistory cv env U (placeOrder cv env b w).2).1
    = (listCartHistory cv env U w).1.
Proof.
  intros Hu Hne Ho Hdo Hh Hdh Href Href'. split.
  - rewrite (listOrders_exact cv env U w orders Href Ho Hdo).
    destruct (placeOrder_orders_any cv env b w orders Ho Hdo) as [Ho'|Ho'].
    + by rewrite (listOrders_exact cv env U _ orders Href' Ho' Hdo).
    + rewrite (listOrders_exact cv env U _ _ Href' Ho' eq_refl). simpl rows.
      rewrite (filter_other_username _ [_] U V Hne); [done|].
      constructor; [|constructor]. simpl. by rewrite Hu.
  - rewrite (listCartHistory_exact cv env U w history Href Hh Hdh).
    destruct (placeOrder_history_any cv env b w history Hh Hdh)
      as (added & Hh' & Hall).
    rewrite (listCartHistory_exact cv env U _ _ Href' Hh' eq_refl).
    simpl rows. rewrite Hu in Hall.
    by rewrite (filter_other_username _ added U V Hne Hall).
Qed.

Lemma orders_of_other_users_witness :
  (listOrders Sample.conv Sample.healthy "bob" Sample.placed.2).1
  = (listOrders Sample.conv Sample.healthy "bob" Sample.fresh).1
  ∧ (listCartHistory Sample.conv Sample.healthy "bob" Sample.placed.2).1
    = (listCartHistory Sample.conv Sample.healthy "bob" Sample.fresh).1.
Proof.
  apply (orders_of_other_users Sample.conv Sample.healthy Sample.pizza_order
           Sample.fresh "bob" "alice" (Table orders_def 0 [])
           (Table cart_history_def 0 []));
    first [discriminate | vm_compute; reflexivity].
Defined.

(** ** The statements of a request *)

Section Statements.

Context (cv : conversions) (env : environment).

Lemma forEach_item_statements username elems : ∀ w w2,
  forEach_item cv env username elems w = (true, w2) →
  journal w2
  = journal w ++ map (λ item, Run (history_command username item)) elems.
Proof.
  induction elems as [|item elems IH]; intros w w2 Hrun; simpl in Hrun.
  - injection Hrun as <-. simpl. by rewrite app_nil_r.
  - destruct (history_insert username item) as [c|] eqn:Hc; [|done].
    apply history_insert_fields in Hc.
    fold (history_command username item) in Hc. subst c.
    rewrite (IH _ _ Hrun), db_run_journal. simpl. by rewrite <- app_assoc.
Qed.

End Statements.

(** X14.  The statements of a POST /api/order that answers 200: the INSERT
    into [orders], then one INSERT into [cart_history] per element of the
    array, in the array's order, each with the order's username and the
    element's id, name, quantity and price, and nothing else (no SELECT,
    no transaction). *)
Theorem placeOrder_statements (cv : conversions) (env : environment)
    (b : body) (w w' : world) (answer : json) :
  placeOrder cv env b w = (Respond 200 answer, w') →
  ∃ elems,
    assoc "items" b = Some (JArr elems)
    ∧ journal w'
      = journal w
        ++ Run (order_insert b)
           :: map (λ item, Run (history_command (assoc "username" b) item))
                elems.
Proof.
  intros Hrun.
  destruct (placeOrder_answered cv env b w w' answer Hrun)
    as (elems & total & st1 & id & Hitems & _ & _ & _ & Hloop & _).
  exists elems. split; [done|].
  rewrite (forEach_item_statements cv env _ _ _ _ Hloop). simpl.
  by rewrite <- app_assoc.
Qed.

Lemma placeOrder_statements_witness :
  journal Sample.placed.2
  = journal Sample.fresh
    ++ Run (order_insert Sample.pizza_order)
       :: map (λ item, Run (history_command
                              (assoc "username" Sample.pizza_order) item))
            [Sample.pizza].
Proof.
  assert (Hrun : placeOrder Sample.conv Sample.healthy Sample.pizza_order
                   Sample.fresh
                 = (Respond 200
                      (JObj [("message", JStr "Order placed successfully");
                             ("orderId", JNum (NFin false 1 0));
                             ("total", JNum (NFin false 3 2))]),
                    Sample.placed.2))
    by (vm_compute; reflexivity).
  destruct (placeOrder_statements Sample.conv Sample.healthy
              Sample.pizza_order Sample.fresh Sample.placed.2 _ Hrun)
    as (elems & Hitems & Hj).
  injection Hitems as <-. exact Hj.
Defined.

(** X15.  The GET routes are read-only: whatever the outcome, a request to
    /api/orders/:username, /api/cart-history/:username, /admin,
    /admin/details, /health or / leaves every table as it is and issues
    SELECT statements only. *)
Theorem get_routes_read_only (cv : conversions) (env : environment)
    (r : request) (w : world) :
  is_get r = true →
  tables (handle cv env r w).2 = tables w
  ∧ ∃ qs, journal (handle cv env r w).2 = journal w ++ map Ask qs.
Proof.
  destruct r as [b|b|u|u| | | |]; simpl; try done; intros _.
  - split; [apply list_by_user_tables|]. eexists [_].
    unfold listOrders, list_by_user.
    match goal with
    | |- context [db_all _ _ ?q w] =>
        pose proof (db_all_journal cv env q w) as Hj;
        destruct (db_all cv env q w) as [[rs|] w1]; exact Hj
    end.
  - split; [apply list_by_user_tables|]. eexists [_].
    unfold listCartHistory, list_by_user.
    match goal with
    | |- context [db_all _ _ ?q w] =>
        pose proof (db_all_journal cv env q w) as Hj;
        destruct (db_all cv env q w) as [[rs|] w1]; exact Hj
    end.
  - split; [apply admin_tables|]. eexists [_]. unfold admin.
    match goal with
    | |- context [db_all _ _ ?q w] =>
        pose proof (db_all_journal cv env q w) as Hj;
        destruct (db_all cv env q w) as [[rs|] w1]; exact Hj
    end.
  - split; [apply admin_details_tables|]. eexists [_; _; _].
    unfold admin_details.
    pose proof (db_all_journal cv env (SelectAll "users") w) as H1.
    destruct (db_all cv env (SelectAll "users") w) as [users w1].
    pose proof (db_all_journal cv env (SelectAll "orders") w1) as H2.
    destruct (db_all cv env (SelectAll "orders") w1) as [orders w2].
    pose proof (db_all_journal cv env (SelectAll "cart_history") w2) as H3.
    destruct (db_all cv env (SelectAll "cart_history") w2) as [history w3].
    simpl in *. rewrite H3, H2, H1, <- !app_assoc. done.
  - split; [done|]. exists []. simpl. by rewrite app_nil_r.
  - split; [done|]. exists []. simpl. by rewrite app_nil_r.
Qed.

Lemma get_routes_read_only_witness :
  tables (handle Sample.conv Sample.healthy GetAdminDetails Sample.busy).2
  = tables Sample.busy
  ∧ ∃ qs, journal (handle Sample.conv Sample.healthy GetAdminDetails
                     Sample.busy).2
          = journal Sample.busy ++ map Ask qs.
Proof.
  apply (get_routes_read_only Sample.conv Sample.healthy GetAdminDetails
           Sample.busy). reflexivity.
Defined.

(** ** The Items Count column of GET /admin/details *)

Section ItemsCount.

Context (cv : conversions) (env : environment).

(** On a text that JSON.stringify wrote of a value it writes as it is, the
    cell is the [length] of that value. *)
Lemma items_count_stringify j :
  JSON.representable j →
  items_count (SqlText (JSON.stringify j)) = length_of j.
Proof.
  intros Hrep. pose proof (RoundTrip.parse_stringify _ Hrep) as Hp.
  unfold items_count.
  destruct (String.eqb_spec (JSON.stringify j) "") as [He|_].
  - rewrite He in Hp. vm_compute in Hp. discriminate.
  - by rewrite Hp.
Qed.

Lemma items_cell_order_row id now b items :
  assoc "items" b = Some items →
  items_cell orders_def (order_row cv id now b)
  = SqlText (JSON.stringify items).
Proof. intros Hi. unfold items_cell, order_row. simpl. by rewrite Hi. Qed.

End ItemsCount.

(** X16.  The order that POST /api/order answered with 200 on an array of k
    elements shows on the details page of part_000 with Items Count k,
    below the rows that were there: when JSON.stringify writes the array as
    it is, [JSON.parse(order.items).length] of the new row is k. *)
Theorem placed_order_items_count (cv : conversions) (env : environment)
    (b : body) (w w' : world) (answer : json) (orders : table) :
  placeOrder cv env b w = (Respond 200 answer, w') →
  tables w !! "orders" = Some orders → def orders = orders_def →
  ∃ (elems : list json) (orders' : table),
    assoc "items" b = Some (JArr elems)
    ∧ tables w' !! "orders" = Some orders'
    ∧ (JSON.representable (JArr elems) →
       details_items_counts orders'
       = details_items_counts orders
         ++ [Some (Some (JNum (number_of_Z (Z.of_nat (length elems)))))]).
Proof.
  intros Hrun Ho Hdo.
  destruct (placeOrder_answered cv env b w w' answer Hrun)
    as (elems & total & st1 & id & Hitems & _).
  destruct (placeOrder_order_row cv env b w w' _ orders Hrun Ho Hdo)
    as (items & _ & Ho').
  exists elems. eexists. split; [done|]. split; [exact Ho'|].
  intros Hrep. unfold details_items_counts.
  cbn [rows def]. rewrite map_app, Hdo. f_equal.
  cbn [map]. f_equal.
  rewrite (items_cell_order_row cv _ _ b _ Hitems).
  by rewrite (items_count_stringify _ Hrep).
Qed.

Lemma placed_order_items_count_witness :
  ∃ orders',
    tables Sample.placed.2 !! "orders" = Some orders'
    ∧ details_items_counts orders'
      = details_items_counts (Table orders_def 0 [])
        ++ [Some (Some (JNum (number_of_Z (Z.of_nat (length [Sample.pizza])))))].
Proof.
  assert (Hrun : placeOrder Sample.conv Sample.healthy Sample.pizza_order
                   Sample.fresh
                 = (Respond 200
                      (JObj [("message", JStr "Order placed successfully");
                             ("orderId", JNum (NFin false 1 0));
                             ("total", JNum (NFin false 3 2))]),
                    Sample.placed.2))
    by (vm_compute; reflexivity).
  assert (Ho : tables Sample.fresh !! "orders" = Some (Table orders_def 0 []))
    by (vm_compute; reflexivity).
  destruct (placed_order_items_count Sample.conv Sample.healthy
              Sample.pizza_order Sample.fresh Sample.placed.2 _
              (Table orders_def 0 []) Hrun Ho eq_refl)
    as (elems & orders' & Hitems & Htab & Hcount).
  injection Hitems as <-.
  exists orders'. split; [exact Htab|].
  apply Hcount. constructor. constructor; [|constructor].
  apply JSON.representable_obj; [reflexivity|].
  repeat constructor.
Defined.

(** ** Row identifiers *)

Section Identifiers.

Context (cv : conversions) (env : environment).

Lemma StronglySorted_snoc {A} (R : relation A) l y :
  StronglySorted R l → Forall (λ x, R x y) l → StronglySorted R (l ++ [y]).
Proof.
  induction 1 as [|x l Hs IH Hx]; intros Hall; simpl.
  - repeat constructor.
  - apply Forall_cons in Hall as [Hxy Hall]. constructor; [by apply IH|].
    apply Forall_app. split; [done|by constructor].
Qed.

Lemma numbered_snoc t d r :
  numbered t → 0 ≤ seq t →
  r !! 0%nat = Some (SqlNum (number_of_Z (seq t + 1))) →
  numbered (Table d (seq t + 1) (rows t ++ [r])).
Proof.
  intros (ids & Hids & Hsorted & Hbound) Hseq Hr.
  exists (ids ++ [seq t + 1]). simpl. split; [|split].
  - apply Forall2_app; [done|]. by repeat constructor.
  - apply StronglySorted_snoc; [done|].
    eapply Forall_impl; [exact Hbound|]. simpl. lia.
  - apply Forall_app. split.
    + eapply Forall_impl; [exact Hbound|]. simpl. lia.
    + repeat constructor; lia.
Qed.

(** The rows of a numbered table have pairwise different identifiers, none
    above the counter. *)
Lemma numbered_fresh t z :
  numbered t → seq t < z →
  Forall (λ r, r !! 0%nat ≠ Some (SqlNum (number_of_Z z))) (rows t).
Proof.
  intros (ids & Hids & _ & Hbound) Hz.
  induction Hids as [|r y rs ids Hr _ IH]; [constructor|].
  apply Forall_cons in Hbound as [Hy Hbound].
  constructor; [|by apply IH].
  rewrite Hr. intros [= Heq]. apply number_of_Z_inj in Heq. lia.
Qed.

Lemma insert_into_row (st : gmap string table) t now name a st' id :
  st !! name = Some t →
  insert_into cv st now name a = Some (st', id) →
  st' = <[name := Table (def t) (seq t + 1)
                    (rows t ++ [new_row cv t now a])]> st
  ∧ id = seq t + 1.
Proof.
  unfold insert_into. intros Ht H. rewrite Ht in H.
  destruct (known_columns _ _); [|done].
  destruct (constraints_ok _ _ _ _); [|done].
  by injection H as <- <-.
Qed.

Lemma schema_names name d d' :
  (name, d) ∈ schema → (name, d') ∈ schema → d = d'.
Proof.
  unfold schema. intros H H'.
  repeat (apply elem_of_cons in H as [H|H]; [injection H as -> ->|]);
    try (by apply elem_of_nil in H);
    repeat (apply elem_of_cons in H' as [H'|H']; [injection H' as ?; subst|]);
    try (by apply elem_of_nil in H'); done.
Qed.

Lemma schema_id name d t now a :
  (name, d) ∈ schema → def t = d → assigned "id" a = None →
  new_row cv t now a !! 0%nat = Some (SqlNum (number_of_Z (seq t + 1))).
Proof.
  unfold schema, new_row. intros H Hd Ha. rewrite Hd.
  repeat (apply elem_of_cons in H as [H|H];
          [injection H as -> ->; simpl; unfold new_cell; simpl;
           by rewrite Ha|]).
  by apply elem_of_nil in H.
Qed.

Lemma insert_into_numbered (st : gmap string table) now name a st' id :
  well_numbered st → assigned "id" a = None →
  insert_into cv st now name a = Some (st', id) →
  well_numbered st'.
Proof.
  intros Hinv Ha Hins.
  assert (∃ t, st !! name = Some t) as [t Ht].
  { unfold insert_into in Hins. destruct (st !! name); [eauto|done]. }
  destruct (insert_into_row _ _ _ _ _ _ _ Ht Hins) as [-> _].
  intros name' d t' Hin Hl.
  destruct (decide (name' = name)) as [->|Hne].
  - rewrite lookup_insert_eq in Hl. injection Hl as <-.
    destruct (Hinv name d t Hin Ht) as (Hd & Hseq & Hnum). simpl.
    split; [done|]. split; [lia|].
    apply numbered_snoc; [done|done|]. by eapply schema_id.
  - rewrite lookup_insert_ne in Hl by done. by eapply Hinv.
Qed.

Lemma create_table_numbered (st : gmap string table) name d :
  well_numbered st → (name, d) ∈ schema →
  well_numbered (create_table_if_not_exists st name d).
Proof.
  intros Hinv Hin. unfold create_table_if_not_exists.
  destruct (st !! name) eqn:Hl; [done|].
  intros name' d' t' Hin' Hl'.
  destruct (decide (name' = name)) as [->|Hne].
  - rewrite lookup_insert_eq in Hl'. injection Hl' as <-. simpl.
    split; [by eapply schema_names|]. split; [done|].
    exists []. by repeat constructor.
  - rewrite lookup_insert_ne in Hl' by done. by eapply Hinv.
Qed.

Lemma db_run_insert_numbered name a w :
  well_numbered (tables w) → assigned "id" a = None →
  well_numbered (tables (db_run cv env (InsertInto name a) w).2).
Proof.
  intros Hinv Ha. unfold db_run. destruct (refused env w); [done|].
  destruct (insert_into _ _ _ _ _) as [[st id]|] eqn:Hins; [|done].
  simpl. exact (insert_into_numbered _ _ _ _ _ _ Hinv Ha Hins).
Qed.

Lemma forEach_item_numbered username elems : ∀ w,
  well_numbered (tables w) →
  well_numbered (tables (forEach_item cv env username elems w).2).
Proof.
  induction elems as [|item elems IH]; intros w Hinv; simpl; [done|].
  destruct (history_insert username item) as [c|] eqn:Hc; [|done].
  apply history_insert_fields in Hc. subst c.
  apply IH. by apply db_run_insert_numbered.
Qed.

Lemma login_numbered b w :
  well_numbered (tables w) → well_numbered (tables (login cv env b w).2).
Proof.
  intros Hinv.
  destruct (login_tables cv env b w) as [->|(now & st & id & Hins & ->)];
    [done|].
  refine (insert_into_numbered _ _ _ _ _ _ Hinv _ Hins). reflexivity.
Qed.

Lemma placeOrder_numbered b w :
  well_numbered (tables w) → well_numbered (tables (placeOrder cv env b w).2).
Proof.
  intros Hinv. unfold placeOrder. destruct (_ || _); [done|].
  match goal with
  | |- context [db_run _ _ (InsertInto ?n ?a) w] =>
      pose proof (db_run_insert_numbered n a w Hinv eq_refl) as H1;
      destruct (db_run cv env (InsertInto n a) w) as [[lastID|] w1]
  end; [|done].
  destruct (assoc "items" b) as [[| | | |elems|]|]; try done.
  pose proof (forEach_item_numbered (assoc "username" b) elems w1 H1) as H2.
  by destruct (forEach_item _ _ _ _ _) as [[|] w2].
Qed.

Lemma create_tables_numbered defs : ∀ w,
  defs ⊆ schema →
  well_numbered (tables w) →
  well_numbered (tables (create_tables cv env defs w).2).
Proof.
  induction defs as [|[name d] defs IH]; intros w Hsub Hinv; simpl; [done|].
  assert (H1 : well_numbered
                 (tables (db_run cv env (CreateTableIfNotExists name d) w).2)).
  { unfold db_run. destruct (refused env w); [done|]. simpl.
    apply create_table_numbered; [done|]. apply Hsub, list_elem_of_here. }
  destruct (db_run cv env (CreateTableIfNotExists name d) w) as [[id|] w1];
    [|done].
  specialize (IH w1 ltac:(set_solver) H1).
  by destruct (create_tables cv env defs w1) as [rs w2].
Qed.

End Identifiers.

(** X17.  Row identifiers stay in order: in a store where each of the three
    tables has the definition of the source and [id] cells that grow from
    row to row without passing the table's AUTOINCREMENT counter, every
    request of every route and the start-up leave such a store.  No INSERT
    of the server names the [id] column, so each new row takes the counter
    plus one. *)
Theorem identifiers_stay_numbered (cv : conversions) (env : environment)
    (r : request) (w : world) :
  well_numbered (tables w) →
  well_numbered (tables (handle cv env r w).2)
  ∧ well_numbered (tables (initialize cv env w).2).
Proof.
  intros Hinv. split.
  - destruct r as [b|b|u|u| | | |]; simpl.
    + by apply login_numbered.
    + by apply placeOrder_numbered.
    + unfold listOrders. by rewrite list_by_user_tables.
    + unfold listCartHistory. by rewrite list_by_user_tables.
    + by rewrite admin_tables.
    + by rewrite admin_details_tables.
    + done.
    + done.
  - unfold initialize. destruct (open_failed env); [done|].
    by apply create_tables_numbered.
Qed.

Lemma identifiers_stay_numbered_witness :
  well_numbered
    (tables (handle Sample.conv Sample.healthy (PostOrder Sample.pizza_order)
               Sample.fresh).2).
Proof.
  assert (Hempty : well_numbered (tables Sample.empty_world)).
  { intros name d t _ Hl. simpl in Hl. by rewrite lookup_empty in Hl. }
  apply (identifiers_stay_numbered Sample.conv Sample.healthy
           (PostOrder Sample.pizza_order) Sample.fresh).
  apply (identifiers_stay_numbered Sample.conv Sample.healthy GetRoot
           Sample.empty_world Hempty).
Defined.

(** X18.  The [orderId] of a 200 answer is new: in a store with numbered
    rows, the identifier POST /api/order returns is the counter of [orders]
    plus one, and no row that was in [orders] before the call has it.  (The
    example places a second order on a store that holds one.) *)
Theorem order_id_is_fresh (cv : conversions) (env : environment)
    (b : body) (w w' : world) (answer : json) (orders : table) :
  well_numbered (tables w) →
  placeOrder cv env b w = (Respond 200 answer, w') →
  tables w !! "orders" = Some orders →
  ∃ total,
    answer = JObj [("message", JStr "Order placed successfully");
                   ("orderId", JNum (number_of_Z (seq orders + 1)));
                   ("total", total)]
    ∧ Forall (λ r, r !! 0%nat ≠ Some (SqlNum (number_of_Z (seq orders + 1))))
        (rows orders).
Proof.
  intros Hinv Hrun Ho.
  destruct (Hinv "orders" orders_def orders) as (_ & _ & Hnum); [|done|].
  { unfold schema. apply list_elem_of_further, list_elem_of_here. }
  destruct (placeOrder_answered cv env b w w' answer Hrun)
    as (elems & total & st1 & id & _ & _ & _ & Hins & _ & ->).
  destruct (insert_into_row cv _ _ _ _ _ _ _ Ho Hins) as [_ ->].
  exists total. split; [done|].
  apply numbered_fresh; [done|lia].
Qed.

Lemma order_id_is_fresh_witness :
  rows (Sample.table_of "orders" Sample.placed.2)
  = [order_row Sample.conv 1 (Sample.clock 3) Sample.pizza_order]
  ∧ ∃ total,
      (placeOrder Sample.conv Sample.healthy Sample.pizza_order
         Sample.placed.2).1
      = Respond 200
          (JObj [("message", JStr "Order placed successfully");
                 ("orderId",
                  JNum (number_of_Z
                          (seq (Sample.table_of "orders" Sample.placed.2) + 1)));
                 ("total", total)])
      ∧ Forall (λ r, r !! 0%nat
                     ≠ Some (SqlNum
                               (number_of_Z
                                  (seq (Sample.table_of "orders"
                                          Sample.placed.2) + 1))))
          (rows (Sample.table_of "orders" Sample.placed.2)).
Proof.
  assert (Hrows : rows (Sample.table_of "orders" Sample.placed.2)
                  = [order_row Sample.conv 1 (Sample.clock 3)
                       Sample.pizza_order])
    by (vm_compute; reflexivity).
  assert (Hrun : placeOrder Sample.conv Sample.healthy Sample.pizza_order
                   Sample.placed.2
                 = (Respond 200
                      (JObj [("message", JStr "Order placed successfully");
                             ("orderId", JNum (NFin false 2 0));
                             ("total", JNum (NFin false 3 2))]),
                    (placeOrder Sample.conv Sample.healthy Sample.pizza_order
                       Sample.placed.2).2))
    by (vm_compute; reflexivity).
  assert (Ho : tables Sample.placed.2 !! "orders"
               = Some (Sample.table_of "orders" Sample.placed.2))
    by (vm_compute; reflexivity).
  assert (Hfresh : well_numbered (tables Sample.fresh)).
  { intros name d t Hin Hl. unfold schema in Hin.
    repeat (apply elem_of_cons in Hin as [Hin|Hin];
            [injection Hin as -> ->; vm_compute in Hl; injection Hl as <-;
             split; [reflexivity|]; split; [reflexivity|];
             exists []; repeat constructor|]).
    by apply elem_of_nil in Hin. }
  assert (Hinv : well_numbered (tables Sample.placed.2)).
  { exact (placeOrder_numbered Sample.conv Sample.healthy Sample.pizza_order
             Sample.fresh Hfresh). }
  split; [exact Hrows|].
  destruct (order_id_is_fresh Sample.conv Sample.healthy Sample.pizza_order
              Sample.placed.2 _ _ (Sample.table_of "orders" Sample.placed.2)
              Hinv Hrun Ho) as (total & Hans & Hnew).
  exists total. split; [|exact Hnew].
  rewrite Hrun. cbn [fst]. f_equal. exact Hans.
Defined.

(** X19.  POST /api/login answers 400 "Username and password are required"
    exactly when [username] or [password] is falsy (absent, [null],
    [false], 0 or the empty string); any other value, string or not, passes
    and has the lookup issued.  A rejected request issues no statement. *)
Theorem login_rejects_exactly (cv : conversions) (env : environment)
    (b : body) (w : world) :
  ((login cv env b w).1 = credentials_required
   ↔ truthy (assoc "username" b) && truthy (assoc "password" b) = false)
  ∧ ((login cv env b w).1 = credentials_required → (login cv env b w).2 = w)
  ∧ (truthy (assoc "username" b) && truthy (assoc "password" b) = true →
     ∃ rest,
       journal (login cv env b w).2
       = journal w
         ++ Ask (SelectWhere "users" "username" (assoc "username" b) None)
            :: rest).
Proof.
  unfold login, credentials_required.
  destruct (truthy (assoc "username" b)); simpl; [|by repeat split].
  destruct (truthy (assoc "password" b)); simpl; [|by repeat split].
  unfold db_get.
  pose proof (db_all_journal cv env
                (SelectWhere "users" "username" (assoc "username" b) None) w)
    as Hj.
  destruct (db_all cv env _ w) as [[[|row rs]|] w1]; simpl in *.
  - match goal with
    | |- context [db_run _ _ ?c w1] =>
        pose proof (db_run_journal cv env c w1) as Hj2;
        destruct (db_run cv env c w1) as [[id|] w2]
    end; simpl in *;
      (split; [done|]; split; [done|]; intros _; eexists [_];
       by rewrite Hj2, Hj, <- app_assoc).
  - split; [done|]. split; [done|]. intros _. exists []. done.
  - split; [done|]. split; [done|]. intros _. exists []. done.
Qed.

Lemma login_rejects_exactly_witness :
  (login Sample.conv Sample.healthy
     [("username", JNum (NZero false)); ("password", JStr "x")]
     Sample.fresh).1 = credentials_required
  ∧ (login Sample.conv Sample.healthy
       [("username", JNum (NZero false)); ("password", JStr "x")]
       Sample.fresh).2 = Sample.fresh
  ∧ ∃ rest,
      journal (login Sample.conv Sample.healthy
                 [("username", Sample.num 5); ("password", JBool true)]
                 Sample.fresh).2
      = journal Sample.fresh
        ++ Ask (SelectWhere "users" "username" (Some (Sample.num 5)) None)
           :: rest.
Proof.
  assert (H : (login Sample.conv Sample.healthy
                 [("username", JNum (NZero false)); ("password", JStr "x")]
                 Sample.fresh).1 = credentials_required).
  { apply (proj1 (login_rejects_exactly Sample.conv Sample.healthy
                    [("username", JNum (NZero false)); ("password", JStr "x")]
                    Sample.fresh)). reflexivity. }
  split; [exact H|]. split.
  - exact (proj1 (proj2 (login_rejects_exactly Sample.conv Sample.healthy
                    [("username", JNum (NZero false)); ("password", JStr "x")]
                    Sample.fresh)) H).
  - apply (proj2 (proj2 (login_rejects_exactly Sample.conv Sample.healthy
                    [("username", Sample.num 5); ("password", JBool true)]
                    Sample.fresh))). reflexivity.
Defined.

(** ** Items that leave no cart-history entry *)

Section IncompleteItems.

Context (cv : conversions) (env : environment).

Local Arguments coerce : simpl never.
Local Arguments bind : simpl never.

(** NOT NULL on the columns of [cart_history]: an INSERT the engine accepts
    comes from an item none of whose four properties binds to NULL. *)
Lemma insert_history_complete (st : gmap string table) t now username item
    st' id :
  st !! "cart_history" = Some t → def t = cart_history_def →
  insert_into cv st now "cart_history"
    [("username", username); ("item_id", field item "id");
     ("item_name", field item "name");
     ("quantity", field item "quantity"); ("price", field item "price")]
  = Some (st', id) →
  complete cv item.
Proof.
  intros Ht Hd H. unfold insert_into in H. rewrite Ht, Hd in H.
  unfold known_columns, new_row, new_cell in H. rewrite Hd in H.
  simpl in H. unfold cell in H. simpl in H.
  match type of H with (if ?c then _ else _) = _ => destruct c eqn:Hc end;
    [|done].
  rewrite !andb_true_iff, !negb_true_iff, !bool_decide_eq_false in Hc.
  destruct Hc as ((_ & _) & (Hid & _) & (Hname & _) & (Hq & _) & (Hp & _) & _).
  rewrite coerce_null in Hid, Hname, Hq, Hp.
  unfold complete. by repeat constructor.
Qed.

Lemma forEach_item_kept username elems : ∀ w h w2,
  tables w !! "cart_history" = Some h → def h = cart_history_def →
  forEach_item cv env username elems w = (true, w2) →
  ∃ kept added,
    kept `sublist_of` elems
    ∧ Forall (complete cv) kept
    ∧ Forall2 (carries cv username) kept added
    ∧ tables w2
      = <["cart_history" :=
            Table cart_history_def (seq h + Z.of_nat (length added))
              (rows h ++ added)]> (tables w).
Proof.
  induction elems as [|item elems IH]; intros w h w2 Hh Hd Hrun; simpl in Hrun.
  - injection Hrun as <-. exists [], []. repeat split; try done.
    simpl. rewrite Z.add_0_r, app_nil_r. symmetry. apply insert_id.
    rewrite Hh. f_equal. destruct h; simpl in *; congruence.
  - destruct (history_insert username item) as [c|] eqn:Hc; [|done].
    apply history_insert_fields in Hc. subst c.
    unfold db_run in Hrun. destruct (refused env w).
    + simpl in Hrun.
      eapply IH in Hrun as (kept & added & Hsub & Hk & Hcar & Htab);
        [|exact Hh|exact Hd].
      exists kept, added. split; [by apply sublist_cons|]. done.
    + destruct (insert_into cv (tables w) _ "cart_history" _)
        as [[st id]|] eqn:Hi.
      * pose proof (insert_history_complete _ _ _ _ _ _ _ Hh Hd Hi) as Hcomp.
        destruct (insert_history cv _ _ _ _ _ _ _ Hh Hd Hi) as (r & Hr & ->).
        set (h1 := Table cart_history_def (seq h + 1) (rows h ++ [r])) in *.
        simpl in Hrun.
        eapply (IH _ h1) in Hrun as (kept & added & Hsub & Hk & Hcar & Htab);
          [|apply lookup_insert_eq|reflexivity].
        exists (item :: kept), (r :: added).
        split; [by apply sublist_skip|]. split; [by constructor|].
        split; [by constructor|].
        rewrite Htab. simpl. rewrite insert_insert_eq. unfold h1. simpl.
        rewrite <- app_assoc. simpl. do 2 f_equal. lia.
      * simpl in Hrun.
        eapply IH in Hrun as (kept & added & Hsub & Hk & Hcar & Htab);
          [|exact Hh|exact Hd].
        exists kept, added. split; [by apply sublist_cons|]. done.
Qed.

End IncompleteItems.

(** X20.  NOT NULL on the columns of [cart_history] decides which items of
    an order leave an entry: after a POST /api/order that answers 200, the
    rows added to [cart_history], in whatever order they were written,
    belong one each to items none of whose id, name, quantity and price
    binds to NULL.  An item that lacks one of the four, or has [null]
    there, leaves no entry, and the answer is 200 all the same.  (In
    server.js the failed INSERT then ends the process; the rows written
    until then are rows of such items still.) *)
Theorem history_entries_need_complete_items (cv : conversions)
    (env : environment) (b : body) (w w' : world) (answer : json)
    (history : table) :
  placeOrder cv env b w = (Respond 200 answer, w') →
  tables w !! "cart_history" = Some history →
  def history = cart_history_def →
  ∃ (elems kept : list json) (added : list row) (history' : table),
    assoc "items" b = Some (JArr elems)
    ∧ kept `sublist_of` elems
    ∧ Forall (complete cv) kept
    ∧ Forall2 (carries cv (assoc "username" b)) kept added
    ∧ tables w' !! "cart_history" = Some history'
    ∧ def history' = cart_history_def
    ∧ rows history' ≡ₚ rows history ++ added.
Proof.
  intros Hrun Hh Hdh.
  destruct (placeOrder_answered cv env b w w' answer Hrun)
    as (elems & total & st1 & id & Hitems & _ & _ & Hins & Hloop & _).
  pose proof (insert_into_other cv _ _ _ _ _ _ "cart_history" Hins
                ltac:(done)) as H1.
  rewrite Hh in H1.
  destruct (forEach_item_kept cv env (assoc "username" b) elems
              (World st1 (journal w ++ [Run (order_insert b)])) history w'
              H1 Hdh Hloop)
    as (kept & added & Hsub & Hk & Hcar & Htab).
  exists elems, kept, added. eexists.
  split; [done|]. split; [done|]. split; [done|]. split; [done|].
  split; [by rewrite Htab, lookup_insert_eq|]. done.
Qed.

Lemma history_entries_need_complete_items_witness :
  ∃ (kept : list json) (added : list row) (history' : table),
    kept `sublist_of` [JObj [("id", Sample.num 1); ("name", JStr "Pizza");
                             ("quantity", Sample.num 2)]; Sample.pizza]
    ∧ Forall (complete Sample.conv) kept
    ∧ Forall2 (carries Sample.conv (str "alice")) kept added
    ∧ tables (placeOrder Sample.conv Sample.healthy
                (Sample.order_of
                   (JArr [JObj [("id", Sample.num 1); ("name", JStr "Pizza");
                                ("quantity", Sample.num 2)]; Sample.pizza])
                   (Sample.num 450))
                Sample.fresh).2 !! "cart_history" = Some history'
    ∧ rows history' ≡ₚ [] ++ added
    ∧ length (rows history') = 1%nat.
Proof.
  assert (Hrun : placeOrder Sample.conv Sample.healthy
                   (Sample.order_of
                      (JArr [JObj [("id", Sample.num 1);
                                   ("name", JStr "Pizza");
                                   ("quantity", Sample.num 2)]; Sample.pizza])
                      (Sample.num 450))
                   Sample.fresh
                 = (Respond 200
                      (JObj [("message", JStr "Order placed successfully");
                             ("orderId", JNum (NFin false 1 0));
                             ("total", JNum (NFin false 45 1))]),
                    (placeOrder Sample.conv Sample.healthy
                       (Sample.order_of
                          (JArr [JObj [("id", Sample.num 1);
                                       ("name", JStr "Pizza");
                                       ("quantity", Sample.num 2)];
                                 Sample.pizza])
                          (Sample.num 450))
                       Sample.fresh).2))
    by (vm_compute; reflexivity).
  assert (Hh : tables Sample.fresh !! "cart_history"
               = Some (Table cart_history_def 0 []))
    by (vm_compute; reflexivity).
  destruct (history_entries_need_complete_items Sample.conv Sample.healthy
              _ Sample.fresh _ _ _ Hrun Hh eq_refl)
    as (elems & kept & added & history' & Hitems & Hsub & Hk & Hcar & Htab
        & _ & Hperm).
  injection Hitems as <-.
  exists kept, added, history'.
  split; [exact Hsub|]. split; [exact Hk|]. split; [exact Hcar|].
  split; [exact Htab|]. split; [exact Hperm|].
  assert (Hlen : (tables (placeOrder Sample.conv Sample.healthy
                    (Sample.order_of
                       (JArr [JObj [("id", Sample.num 1);
                                    ("name", JStr "Pizza");
                                    ("quantity", Sample.num 2)];
                              Sample.pizza])
                       (Sample.num 450))
                    Sample.fresh).2 !! "cart_history")
                 ≫= (λ t, Some (length (rows t))) = Some 1%nat)
    by (vm_compute; reflexivity).
  rewrite Htab in Hlen. simpl in Hlen. by injection Hlen.
Defined.
